(** * Pluto voice assistant: intent resolution and dispatch

    A shallow embedding of the decision logic of [command.py] and [app.py]:
    the keyword fallback classifier, the model-backed intent classifier,
    the command dispatcher with its tool handlers, the wake / direct-command
    detector and one turn of the continuous listening loop.

    Conventions of the embedding.
    - A Python [str] is the Rocq [string] of its UTF-8 bytes.  [len]
      counts characters, and the regular expressions work on characters:
      [\s] is Python's white space, [\w] and [\b] take the answer of
      [str.isalnum] for a character outside ASCII as a parameter.
      [lower], [strip] and [\d] are those of Python on ASCII text.
    - Python values that travel through an intent (the result of
      [json.loads], the dictionaries built by [handle_fallback]) are the
      type [value].
    - Console output ([print], [logger]) is not part of the model; speech,
      socket notifications and calls to the operating system are recorded
      as [event]s.
    - Exceptions are those [except Exception] catches. *)

From Stdlib Require Import String Ascii List Bool Arith ZArith Lia.
Import ListNotations.
Local Open Scope string_scope.

Set Implicit Arguments.

(** ** Python strings *)

Module PyStr.

Definition code (c : ascii) : nat := nat_of_ascii c.

Definition between (lo hi : nat) (c : ascii) : bool :=
  (lo <=? code c)%nat && (code c <=? hi)%nat.

Definition is_upper (c : ascii) : bool := between 65 90 c.

Definition lower_char (c : ascii) : ascii :=
  if is_upper c then ascii_of_nat (code c + 32) else c.

(** [s.lower()] *)
Fixpoint lower (s : string) : string :=
  match s with
  | EmptyString => EmptyString
  | String c r => String (lower_char c) (lower r)
  end.

(** The ASCII white space, which [str.strip()] removes: TAB..CR, FS..US
    and the blank. *)
Definition isspace (c : ascii) : bool :=
  between 9 13 c || between 28 31 c || (code c =? 32)%nat.

Fixpoint lstrip (s : string) : string :=
  match s with
  | EmptyString => EmptyString
  | String c r => if isspace c then lstrip r else s
  end.

Fixpoint rstrip (s : string) : string :=
  match s with
  | EmptyString => EmptyString
  | String c r =>
      match rstrip r with
      | EmptyString => if isspace c then EmptyString else String c EmptyString
      | r' => String c r'
      end
  end.

(** [s.strip()] *)
Definition strip (s : string) : string := rstrip (lstrip s).

(** [s.startswith(p)] *)
Fixpoint startswith (p s : string) : bool :=
  match p, s with
  | EmptyString, _ => true
  | String a p', String b s' => Ascii.eqb a b && startswith p' s'
  | String _ _, EmptyString => false
  end.

(** [sub in s] *)
Fixpoint contains (sub s : string) : bool :=
  startswith sub s ||
  match s with
  | EmptyString => false
  | String _ r => contains sub r
  end.

Fixpoint drop (n : nat) (s : string) : string :=
  match n, s with
  | O, _ => s
  | S n', String _ r => drop n' r
  | S _, EmptyString => EmptyString
  end.

Fixpoint take (n : nat) (s : string) : string :=
  match n, s with
  | S n', String c r => String c (take n' r)
  | _, _ => EmptyString
  end.

(** [s.endswith(p)] *)
Definition endswith (p s : string) : bool :=
  (String.length p <=? String.length s)%nat &&
  String.eqb (drop (String.length s - String.length p) s) p.

(** [s\[i:j\]] for indices that are not negative. *)
Definition slice (i j : Z) (s : string) : string :=
  take (Z.to_nat j - Z.to_nat i) (drop (Z.to_nat i) s).

(** [s.find(c)] for a one-character needle: the first index, or -1. *)
Fixpoint find_from (c : ascii) (s : string) (i : Z) : Z :=
  match s with
  | EmptyString => (-1)%Z
  | String a r => if Ascii.eqb a c then i else find_from c r (i + 1)%Z
  end.

Definition find_char (c : ascii) (s : string) : Z := find_from c s 0%Z.

(** [s.rfind(c)]: the last index, or -1. *)
Fixpoint rfind_from (c : ascii) (s : string) (i : Z) (last : Z) : Z :=
  match s with
  | EmptyString => last
  | String a r => rfind_from c r (i + 1)%Z (if Ascii.eqb a c then i else last)
  end.

Definition rfind_char (c : ascii) (s : string) : Z :=
  rfind_from c s 0%Z (-1)%Z.

(** [s.replace(old, new)] for a non-empty [old]: occurrences are taken
    from the left and do not overlap.  [skip] counts the characters of
    an occurrence that are still to be dropped. *)
Fixpoint replace_from (old new : string) (skip : nat) (s : string) : string :=
  match s with
  | EmptyString => EmptyString
  | String c r =>
      match skip with
      | S k => replace_from old new k r
      | O =>
          if startswith old s
          then new ++ replace_from old new (String.length old - 1) r
          else String c (replace_from old new 0 r)
      end
  end.

Definition replace (old new s : string) : string := replace_from old new 0 s.

(** A byte that continues a UTF-8 character. *)
Definition is_cont (c : ascii) : bool := between 128 191 c.

(** [len(s)]: the number of characters, that is, of the bytes that
    start one. *)
Fixpoint len (s : string) : nat :=
  match s with
  | EmptyString => 0
  | String c r => (if is_cont c then 0 else 1) + len r
  end.

(** The continuation bytes at the front of a text, and what follows. *)
Fixpoint span_cont (s : string) : string * string :=
  match s with
  | EmptyString => (EmptyString, EmptyString)
  | String c r =>
      if is_cont c then
        let (k, rest) := span_cont r in (String c k, rest)
      else (EmptyString, s)
  end.

(** The first character of a text, as its UTF-8 bytes, and the rest. *)
Definition next_char (s : string) : option (string * string) :=
  match s with
  | EmptyString => None
  | String c r => let (k, rest) := span_cont r in Some (String c k, rest)
  end.

(** The text with the given bytes. *)
Definition bytes (l : list nat) : string :=
  fold_right (fun n s => String (ascii_of_nat n) s) EmptyString l.

(** [any(w in s for w in words)] *)
Definition any_in (words : list string) (s : string) : bool :=
  existsb (fun w => contains w s) words.

(** [sum(1 for w in words if w in s)] *)
Definition count_in (words : list string) (s : string) : nat :=
  List.length (filter (fun w => contains w s) words).

End PyStr.

Import PyStr.

(** ** Python values *)

Local Set Warnings "-register-all".

Inductive value : Type :=
| VNone
| VBool (b : bool)
| VNum (lexeme : string)
| VStr (s : string)
| VList (items : list value)
| VDict (entries : list (string * value)).

Definition dict : Type := list (string * value).

(** [d.get(k)], as an [option]; [k in d] is [dict_get k d <> None]. *)
Fixpoint dict_get (k : string) (d : dict) : option value :=
  match d with
  | [] => None
  | (k', v) :: r => if String.eqb k k' then Some v else dict_get k r
  end.

Definition dict_has (k : string) (d : dict) : bool :=
  match dict_get k d with Some _ => true | None => false end.

(** [d\[k\] = v]: an existing key keeps its place. *)
Fixpoint dict_set (k : string) (v : value) (d : dict) : dict :=
  match d with
  | [] => [(k, v)]
  | (k', v') :: r =>
      if String.eqb k k' then (k, v) :: r else (k', v') :: dict_set k v r
  end.

Definition dict_keys (d : dict) : list string := map fst d.

(** ** The tools *)

Inductive tool : Type :=
| open_app_t | close_app_t | search_web_t | system_control_t
| play_media_t | clipboard_action_t | general_chat_t.

Definition tool_name (t : tool) : string :=
  match t with
  | open_app_t => "open_app"
  | close_app_t => "close_app"
  | search_web_t => "search_web"
  | system_control_t => "system_control"
  | play_media_t => "play_media"
  | clipboard_action_t => "clipboard_action"
  | general_chat_t => "general_chat"
  end.

(** The keys of the [TOOLS] registry, in its order. *)
Definition all_tools : list tool :=
  [open_app_t; close_app_t; search_web_t; system_control_t;
   play_media_t; clipboard_action_t; general_chat_t].

(** [TOOLS.get(name)] on a string. *)
Definition tool_of_name (n : string) : option tool :=
  find (fun t => String.eqb n (tool_name t)) all_tools.

(** An intent as the classifier builds it:
    [{"tool": t, "parameters": {...}}]. *)
Definition mk_intent (t : tool) (params : dict) : value :=
  VDict [("tool", VStr (tool_name t)); ("parameters", VDict params)].

(** ** The deterministic fallback classifier ([handle_fallback]) *)

Definition media_words : list string := ["play"; "kelu"; "pottu"].
Definition clipboard_words : list string := ["copy"; "paste"; "clipboard"].
Definition system_words : list string :=
  ["shutdown"; "shut down"; "power off"; "turn off";
   "restart"; "reboot"; "reset"; "reopen";
   "sleep"; "suspend"; "hibernate";
   "logout"; "log out"; "sign out"; "lock"].
Definition open_words : list string :=
  ["open"; "launch"; "start"; "run"; "thorakku"; "thoraku"; "pannu"; "podu"].
Definition open_fillers : list string :=
  ["the"; "app"; "application"; "please"; "computer"; "system"].
Definition close_words : list string :=
  ["close"; "quit"; "exit"; "stop"; "muddu"; "mudu"].
Definition search_words : list string :=
  ["search"; "find"; "lookup"; "thedi"; "google"].
Definition search_fillers : list string :=
  ["search for"; "search"; "find"; "lookup"; "thedi"; "google";
   "on google"; "in google"].

(** [for word in words: s = s.replace(word, "").strip()] *)
Definition strip_words (words : list string) (s : string) : string :=
  fold_left (fun acc w => strip (replace w "" acc)) words s.

Definition fallback_platform (text_lower : string) : string :=
  if contains "spotify" text_lower then "spotify"
  else if contains "soundcloud" text_lower then "soundcloud"
  else "youtube".

Definition fallback_clip_action (text_lower : string) : string :=
  if contains "paste" text_lower && negb (contains "copy" text_lower)
  then "paste"
  else if contains "copy" text_lower && negb (contains "paste" text_lower)
  then "copy"
  else "copy_paste".

Definition fallback_clip_target (text_lower : string) : string :=
  if contains "vscode" text_lower || contains "vs code" text_lower
  then "vscode"
  else if contains "notepad++" text_lower then "notepadplusplus"
  else "notepad".

Definition fallback_system_action (text_lower : string) : string :=
  if any_in ["shutdown"; "shut down"; "power off"; "turn off"] text_lower
  then "shutdown"
  else if any_in ["restart"; "reboot"; "reset"] text_lower then "restart"
  else if any_in ["sleep"; "suspend"] text_lower then "sleep"
  else if any_in ["hibernate"] text_lower then "hibernate"
  else if any_in ["logout"; "log out"; "sign out"] text_lower then "logout"
  else if any_in ["lock"] text_lower then "lock"
  else "shutdown".

Definition handle_fallback (text : string) : value :=
  let text_lower := lower text in
  if any_in media_words text_lower then
    let platform := fallback_platform text_lower in
    let query :=
      strip_words ["play"; "kelu"; "pottu"; "on"; "in"; "la"; platform]
                  text_lower in
    mk_intent play_media_t
      [("query", VStr query); ("platform", VStr platform)]
  else if any_in clipboard_words text_lower then
    mk_intent clipboard_action_t
      [("action", VStr (fallback_clip_action text_lower));
       ("target_app", VStr (fallback_clip_target text_lower))]
  else if any_in system_words text_lower then
    mk_intent system_control_t
      [("action", VStr (fallback_system_action text_lower))]
  else if any_in open_words text_lower then
    let app_name := strip_words open_fillers (strip_words open_words text_lower) in
    mk_intent open_app_t [("app_name", VStr app_name)]
  else if any_in close_words text_lower then
    mk_intent close_app_t
      [("app_name", VStr (strip_words close_words text_lower))]
  else if any_in search_words text_lower then
    mk_intent search_web_t
      [("query", VStr (strip_words search_fillers text_lower))]
  else
    mk_intent general_chat_t [("query", VStr text)].

(** ** Regular expressions

    The patterns of [app.py] and [clean_app_name] use literals, the classes
    [\s], [\w], [\d] and [.], alternation, [*] and [+], the word boundary
    [\b] and the end anchor [$].  A position is the character before the
    cursor (if any) and the text after it; [matches r p] lists the positions
    at which a match of [r] that starts at [p] can end.  [re.search] finds a
    match exactly when some start position has one. *)

Module Re.

Inductive regex : Type :=
| Eps
| Class (accept : string -> bool)
| Seq (a b : regex)
| Alt (a b : regex)
| Star (a : regex)
| Bound (word : string -> bool)
| Eos.

(** A position: the character before the cursor (if any) and the text
    after it.  A character is given by its UTF-8 bytes. *)
Definition pos : Type := (option string * string)%type.

(** [\w] on ASCII *)
Definition is_word (c : ascii) : bool :=
  between 97 122 c || between 65 90 c || between 48 57 c || (code c =? 95)%nat.

(** [\d] on ASCII *)
Definition is_digit (c : ascii) : bool := between 48 57 c.

(** A class of ASCII characters, as a class of characters. *)
Definition ascii_char (accept : ascii -> bool) (ch : string) : bool :=
  match ch with
  | String c EmptyString => accept c
  | _ => false
  end.

(** The white space outside ASCII: U+0085, U+00A0, U+1680, U+2000 to
    U+200A, U+2028, U+2029, U+202F, U+205F and U+3000. *)
Definition unicode_spaces : list string :=
  map bytes
      [[194; 133]; [194; 160]; [225; 154; 128];
       [226; 128; 128]; [226; 128; 129]; [226; 128; 130]; [226; 128; 131];
       [226; 128; 132]; [226; 128; 133]; [226; 128; 134]; [226; 128; 135];
       [226; 128; 136]; [226; 128; 137]; [226; 128; 138];
       [226; 128; 168]; [226; 128; 169]; [226; 128; 175];
       [226; 129; 159]; [227; 128; 128]].

(** [\s] *)
Definition space_char (ch : string) : bool :=
  ascii_char isspace ch || existsb (String.eqb ch) unicode_spaces.

(** [\w]: a letter, a digit or the underscore; [alnum] is
    [str.isalnum] on the characters outside ASCII. *)
Definition word_char (alnum : string -> bool) (ch : string) : bool :=
  match ch with
  | String c EmptyString => is_word c
  | _ => alnum ch
  end.

Definition word_before (word : string -> bool) (p : pos) : bool :=
  match fst p with Some ch => word ch | None => false end.

Definition word_after (word : string -> bool) (p : pos) : bool :=
  match next_char (snd p) with Some (ch, _) => word ch | None => false end.

(** [$]: the end of the text, or just before a final newline. *)
Definition at_end (p : pos) : bool :=
  match snd p with
  | EmptyString => true
  | String c EmptyString => (code c =? 10)%nat
  | _ => false
  end.

Definition shorter (p q : pos) : bool :=
  (String.length (snd q) <? String.length (snd p))%nat.

(** Zero or more rounds of [step]; a round that consumes nothing adds no
    new end position, so [fuel] = the length of the remaining text is
    enough. *)
Fixpoint star_from (step : pos -> list pos) (fuel : nat) (p : pos) : list pos :=
  p :: match fuel with
       | O => []
       | S n => flat_map (star_from step n) (filter (shorter p) (step p))
       end.

Fixpoint matches (r : regex) (p : pos) : list pos :=
  match r with
  | Eps => [p]
  | Class accept =>
      match next_char (snd p) with
      | Some (ch, rest) => if accept ch then [(Some ch, rest)] else []
      | None => []
      end
  | Seq a b => flat_map (matches b) (matches a p)
  | Alt a b => matches a p ++ matches b p
  | Star a => star_from (matches a) (String.length (snd p)) p
  | Bound word =>
      if xorb (word_before word p) (word_after word p) then [p] else []
  | Eos => if at_end p then [p] else []
  end.

Definition matches_at (r : regex) (p : pos) : bool :=
  match matches r p with [] => false | _ :: _ => true end.

(** A match may start before any character and at the end of the text;
    [prev] is the character before the cursor. *)
Fixpoint search_from (r : regex) (prev : option string) (s : string) : bool :=
  match s with
  | EmptyString => matches_at r (prev, s)
  | String c rest =>
      if is_cont c then search_from r prev rest
      else matches_at r (prev, s)
           || search_from r (option_map fst (next_char s)) rest
  end.

(** [re.search(r, s) is not None] *)
Definition search (r : regex) (s : string) : bool := search_from r None s.

(** Pattern builders. *)
Definition chr (c : ascii) : regex := Class (String.eqb (String c EmptyString)).
(** a literal under [re.IGNORECASE] *)
Definition chr_i (c : ascii) : regex :=
  Class (ascii_char (fun x => Ascii.eqb (lower_char x) (lower_char c))).
Fixpoint lit (s : string) : regex :=
  match s with
  | EmptyString => Eps
  | String c r => Seq (chr c) (lit r)
  end.
Fixpoint lit_i (s : string) : regex :=
  match s with
  | EmptyString => Eps
  | String c r => Seq (chr_i c) (lit_i r)
  end.
Fixpoint alt (rs : list regex) : regex :=
  match rs with
  | [] => Class (fun _ => false)
  | [r] => r
  | r :: rest => Alt r (alt rest)
  end.
Fixpoint seq (rs : list regex) : regex :=
  match rs with
  | [] => Eps
  | [r] => r
  | r :: rest => Seq r (seq rest)
  end.
Definition plus (r : regex) : regex := Seq r (Star r).
Definition space : regex := Class space_char.
Definition wordc (alnum : string -> bool) : regex := Class (word_char alnum).
(** [\b] *)
Definition bound (alnum : string -> bool) : regex := Bound (word_char alnum).
(** [.] matches anything but a newline *)
Definition dot : regex :=
  Class (fun ch => negb (ascii_char (fun c => (code c =? 10)%nat) ch)).

End Re.

(** ** Wake / direct-command detector ([app.py]) *)

(** [AppState.wake_words]; the list is set once in [__init__]. *)
Definition wake_words : list string :=
  ["pluto"; "ghost"; "hey pluto"; "hey ghost"; "pluto anna"; "ghost anna"].

Definition fuzzy_patterns (alnum : string -> bool) : list Re.regex :=
  [ (* \b(pluto|bluto|puto)\b *)
    Re.seq [Re.bound alnum;
            Re.alt [Re.lit "pluto"; Re.lit "bluto"; Re.lit "puto"];
            Re.bound alnum];
    (* \b(ghost|gost|goast)\b *)
    Re.seq [Re.bound alnum;
            Re.alt [Re.lit "ghost"; Re.lit "gost"; Re.lit "goast"];
            Re.bound alnum];
    (* \bhey\s+(pluto|ghost)\b *)
    Re.seq [Re.bound alnum; Re.lit "hey"; Re.plus Re.space;
            Re.alt [Re.lit "pluto"; Re.lit "ghost"]; Re.bound alnum] ].

(** [not text] *)
Definition is_empty (s : string) : bool :=
  match s with EmptyString => true | _ => false end.

(** [alnum] is [str.isalnum] on the characters outside ASCII. *)
Definition detect_wake_word (alnum : string -> bool) (text : string) : bool :=
  if is_empty text then false
  else
    let text_lower := strip (lower text) in
    if any_in wake_words text_lower then true
    else existsb (fun r => Re.search r text_lower) (fuzzy_patterns alnum).

Definition command_patterns (alnum : string -> bool) : list Re.regex :=
  [ (* \bopen\s+\w+ *)
    Re.seq [Re.bound alnum; Re.lit "open"; Re.plus Re.space;
            Re.plus (Re.wordc alnum)];
    (* \bclose\s+\w+ *)
    Re.seq [Re.bound alnum; Re.lit "close"; Re.plus Re.space;
            Re.plus (Re.wordc alnum)];
    (* \bsearch\s+ *)
    Re.seq [Re.bound alnum; Re.lit "search"; Re.plus Re.space];
    (* \w+\s+thorakku *)
    Re.seq [Re.plus (Re.wordc alnum); Re.plus Re.space; Re.lit "thorakku"];
    (* \w+\s+muddu *)
    Re.seq [Re.plus (Re.wordc alnum); Re.plus Re.space; Re.lit "muddu"];
    (* \w+\s+pannu *)
    Re.seq [Re.plus (Re.wordc alnum); Re.plus Re.space; Re.lit "pannu"] ].

Definition is_direct_command (alnum : string -> bool) (text : string) : bool :=
  if is_empty text then false
  else existsb (fun r => Re.search r (lower text)) (command_patterns alnum).

(** ** [json.loads]

    The decoder of the Python standard library, on the UTF-8 form of the
    text.  A number is kept as its lexeme.  The result is [None] where
    [json.loads] raises [JSONDecodeError]. *)

Module Json.

Definition is_ws (c : ascii) : bool :=
  (code c =? 32)%nat || (code c =? 9)%nat || (code c =? 10)%nat
  || (code c =? 13)%nat.

Fixpoint skip_ws (s : string) : string :=
  match s with
  | String c r => if is_ws c then skip_ws r else s
  | EmptyString => EmptyString
  end.

Definition hex_digit (c : ascii) : option N :=
  if between 48 57 c then Some (N.of_nat (code c - 48))
  else if between 97 102 c then Some (N.of_nat (code c - 87))
  else if between 65 70 c then Some (N.of_nat (code c - 55))
  else None.

(** the four hexadecimal digits of a [\uXXXX] escape *)
Definition hex4 (s : string) : option (N * string) :=
  match s with
  | String a (String b (String c (String d r))) =>
      match hex_digit a, hex_digit b, hex_digit c, hex_digit d with
      | Some x, Some y, Some z, Some w =>
          Some ((((x * 16 + y) * 16 + z) * 16 + w)%N, r)
      | _, _, _, _ => None
      end
  | _ => None
  end.

Definition byte (n : N) : string := String (ascii_of_N n) EmptyString.

(** UTF-8 form of a code point *)
Definition utf8 (n : N) : string :=
  if (n <? 128)%N then byte n
  else if (n <? 2048)%N then
    byte (192 + n / 64) ++ byte (128 + n mod 64)
  else if (n <? 65536)%N then
    byte (224 + n / 4096) ++ byte (128 + (n / 64) mod 64)
    ++ byte (128 + n mod 64)
  else
    byte (240 + n / 262144) ++ byte (128 + (n / 4096) mod 64)
    ++ byte (128 + (n / 64) mod 64) ++ byte (128 + n mod 64).

(** A [\uXXXX] escape, with the pairing of surrogates. *)
Definition unicode_escape (s : string) : option (string * string) :=
  match hex4 s with
  | None => None
  | Some (u, r) =>
      let single := Some (utf8 u, r) in
      if (55296 <=? u)%N && (u <=? 56319)%N then
        match r with
        | String "\" (String "u" r2) =>
            match hex4 r2 with
            | None => None
            | Some (u2, r3) =>
                if (56320 <=? u2)%N && (u2 <=? 57343)%N
                then Some (utf8 (65536 + ((u - 55296) * 1024 + (u2 - 56320))), r3)
                else single
            end
        | _ => single
        end
      else single
  end.

(** The body of a string, after its opening quote. *)
Fixpoint scan_string (fuel : nat) (s : string) : option (string * string) :=
  match fuel with
  | O => None
  | S n =>
      match s with
      | EmptyString => None
      | String c r =>
          if (code c =? 34)%nat then Some (EmptyString, r)
          else if (code c =? 92)%nat then
            match r with
            | EmptyString => None
            | String e r2 =>
                let simple (x : nat) :=
                  match scan_string n r2 with
                  | Some (t, rest) => Some (String (ascii_of_nat x) t, rest)
                  | None => None
                  end in
                if (code e =? 34)%nat then simple 34
                else if (code e =? 92)%nat then simple 92
                else if Ascii.eqb e "/" then simple 47
                else if Ascii.eqb e "b" then simple 8
                else if Ascii.eqb e "f" then simple 12
                else if Ascii.eqb e "n" then simple 10
                else if Ascii.eqb e "r" then simple 13
                else if Ascii.eqb e "t" then simple 9
                else if Ascii.eqb e "u" then
                  match unicode_escape r2 with
                  | Some (u, r3) =>
                      match scan_string n r3 with
                      | Some (t, rest) => Some (u ++ t, rest)
                      | None => None
                      end
                  | None => None
                  end
                else None
            end
          else if (code c <? 32)%nat then None
          else
            match scan_string n r with
            | Some (t, rest) => Some (String c t, rest)
            | None => None
            end
      end
  end.

Fixpoint digits (s : string) : string * string :=
  match s with
  | String c r =>
      if Re.is_digit c then let (d, rest) := digits r in (String c d, rest)
      else (EmptyString, s)
  | EmptyString => (EmptyString, EmptyString)
  end.

(** A number lexeme at the cursor: an optional minus, then 0 or a
    digit string without leading 0, then an optional fraction (a dot and
    digits) and an optional exponent (e or E, an optional sign, digits). *)
Definition scan_number (s : string) : option (string * string) :=
  let (sign, s1) :=
    match s with
    | String "-" r => ("-", r)
    | _ => (EmptyString, s)
    end in
  let int_part :=
    match s1 with
    | String "0" r => Some ("0", r)
    | String c _ =>
        if between 49 57 c then Some (digits s1) else None
    | EmptyString => None
    end in
  match int_part with
  | None => None
  | Some (i, s2) =>
      let (frac, s3) :=
        match s2 with
        | String "." r =>
            match digits r with
            | (EmptyString, _) => (EmptyString, s2)
            | (d, rest) => ("." ++ d, rest)
            end
        | _ => (EmptyString, s2)
        end in
      let (exp, s4) :=
        match s3 with
        | String e r =>
            if Ascii.eqb e "e" || Ascii.eqb e "E" then
              let (sg, r1) :=
                match r with
                | String "-" r' => ("-", r')
                | String "+" r' => ("+", r')
                | _ => (EmptyString, r)
                end in
              match digits r1 with
              | (EmptyString, _) => (EmptyString, s3)
              | (d, rest) => (String e sg ++ d, rest)
              end
            else (EmptyString, s3)
        | EmptyString => (EmptyString, s3)
        end in
      Some (sign ++ i ++ frac ++ exp, s4)
  end.

Definition keyword (k : string) (v : value) (s : string)
  : option (value * string) :=
  if startswith k s then Some (v, drop (String.length k) s) else None.

Definition first_some {A} (xs : list (option A)) : option A :=
  fold_right (fun x acc => match x with Some _ => x | None => acc end) None xs.

Fixpoint scan_value (fuel : nat) (s : string) : option (value * string) :=
  match fuel with
  | O => None
  | S n =>
      match s with
      | EmptyString => None
      | String c r =>
          if (code c =? 34)%nat then
            match scan_string (String.length r) r with
            | Some (t, rest) => Some (VStr t, rest)
            | None => None
            end
          else if Ascii.eqb c "{" then
            match skip_ws r with
            | String "}" rest => Some (VDict [], rest)
            | r' => scan_members n [] r'
            end
          else if Ascii.eqb c "[" then
            match skip_ws r with
            | String "]" rest => Some (VList [], rest)
            | r' => scan_items n [] r'
            end
          else
            first_some
              [ keyword "null" VNone s;
                keyword "true" (VBool true) s;
                keyword "false" (VBool false) s;
                match scan_number s with
                | Some (lex, rest) => Some (VNum lex, rest)
                | None => None
                end;
                keyword "NaN" (VNum "NaN") s;
                keyword "Infinity" (VNum "Infinity") s;
                keyword "-Infinity" (VNum "-Infinity") s ]
      end
  end

(** the members of an object, from the quote of the next key *)
with scan_members (fuel : nat) (acc : dict) (s : string)
  : option (value * string) :=
  match fuel with
  | O => None
  | S n =>
      match s with
      | String q r =>
          if (code q =? 34)%nat then
            match scan_string (String.length r) r with
            | None => None
            | Some (k, r1) =>
                match skip_ws r1 with
                | String ":" r2 =>
                    match scan_value n (skip_ws r2) with
                    | None => None
                    | Some (v, r3) =>
                        let acc' := dict_set k v acc in
                        match skip_ws r3 with
                        | String "}" rest => Some (VDict acc', rest)
                        | String "," r4 => scan_members n acc' (skip_ws r4)
                        | _ => None
                        end
                    end
                | _ => None
                end
            end
          else None
      | EmptyString => None
      end
  end

(** the items of an array, from the start of the next item *)
with scan_items (fuel : nat) (acc : list value) (s : string)
  : option (value * string) :=
  match fuel with
  | O => None
  | S n =>
      match scan_value n s with
      | None => None
      | Some (v, r1) =>
          match skip_ws r1 with
          | String "]" rest => Some (VList (rev (v :: acc)), rest)
          | String "," r2 => scan_items n (v :: acc) (skip_ws r2)
          | _ => None
          end
      end
  end.

(** [json.loads(s)]: one value, with white space around it and nothing
    else.  Every call of the scanner reads a character before it calls
    itself again, so the length of the text plus one is fuel enough. *)
Definition loads (s : string) : option value :=
  match scan_value (S (String.length s)) (skip_ws s) with
  | Some (v, rest) =>
      match skip_ws rest with
      | EmptyString => Some v
      | _ => None
      end
  | None => None
  end.

End Json.

Definition dq : string := String (ascii_of_nat 34) EmptyString.
(** [unq s] is [s] with every backquote turned into a double quote. *)
Fixpoint unq (s : string) : string :=
  match s with
  | EmptyString => EmptyString
  | String c r => String (if Ascii.eqb c "`" then ascii_of_nat 34 else c) (unq r)
  end.

(** ** Effects

    What the assistant does to the outside: speech, notifications to the
    web client and calls to the operating system, in the order they happen. *)

Inductive event : Type :=
| Speak (text lang : string)        (* a thread started by tts.speak *)
| Emit (name data : string)         (* socketio.emit(name, {data: ...}) *)
| Popen (path : string) (shell : bool)
| OsSystem (command : string)
| OpenUrl (url : string)            (* webbrowser.open *)
| TaskKill (process : string)       (* taskkill /f /im process *)
| ClipboardCopy (text : string)     (* pyperclip.copy *)
| Hotkey (keys : string)            (* pyautogui.hotkey *)
| Sleep (tenths : nat)              (* time.sleep, in tenths of a second *)
| Listen (timeout limit : nat).     (* a call of listen_once *)

(** The exceptions of the model, all of them subclasses of [Exception]. *)
Inductive exn : Type :=
| TypeError | AttributeError | KeyError | OSError
| CalledProcessError | SubprocessTimeout | JSONDecodeError.

(** The mutable globals [ai_config.last_generated_code] and
    [state.current_lang], and the failure counter of the listening loop. *)
Record store : Type := {
  last_generated_code : string;
  current_lang : string;
  consecutive_failures : nat
}.

Inductive result (A : Type) : Type :=
| Ok (a : A)
| Raised (e : exn).
Arguments Ok {A} a.
Arguments Raised {A} e.

(** A computation: from a store to the events it caused, the store it
    leaves and either a value or the exception that escaped. *)
Definition M (A : Type) : Type := store -> list event * store * result A.

Definition ret {A} (a : A) : M A := fun st => ([], st, Ok a).

Definition bind {A B} (m : M A) (k : A -> M B) : M B :=
  fun st =>
    match m st with
    | (ev, st', Ok a) =>
        match k a st' with
        | (ev', st'', r) => ((ev ++ ev')%list, st'', r)
        end
    | (ev, st', Raised e) => (ev, st', Raised e)
    end.

Definition raise {A} (e : exn) : M A := fun st => ([], st, Raised e).

(** [try: m  except Exception: h] *)
Definition try_except {A} (m : M A) (h : exn -> M A) : M A :=
  fun st =>
    match m st with
    | (ev, st', Ok a) => (ev, st', Ok a)
    | (ev, st', Raised e) =>
        match h e st' with
        | (ev', st'', r) => ((ev ++ ev')%list, st'', r)
        end
    end.

Definition tell (e : event) : M unit := fun st => ([e], st, Ok tt).
Definition get_store : M store := fun st => ([], st, Ok st).
Definition put_store (st : store) : M unit := fun _ => ([], st, Ok tt).

Declare Scope py_scope.
Delimit Scope py_scope with py.
Notation "x <- m ;; k" := (bind m (fun x => k))
  (at level 61, m at next level, right associativity) : py_scope.
Notation "m ;; k" := (bind m (fun _ => k))
  (at level 61, right associativity) : py_scope.
Local Open Scope py_scope.

Definition events_of {A} (o : list event * store * result A) : list event :=
  fst (fst o).
Definition store_of {A} (o : list event * store * result A) : store :=
  snd (fst o).
Definition result_of {A} (o : list event * store * result A) : result A :=
  snd o.

Definition set_last_generated_code (c : string) : M unit :=
  st <- get_store ;;
  put_store {| last_generated_code := c; current_lang := current_lang st;
               consecutive_failures := consecutive_failures st |}.

Definition set_current_lang (l : string) : M unit :=
  st <- get_store ;;
  put_store {| last_generated_code := last_generated_code st;
               current_lang := l;
               consecutive_failures := consecutive_failures st |}.

Definition set_consecutive_failures (n : nat) : M unit :=
  st <- get_store ;;
  put_store {| last_generated_code := last_generated_code st;
               current_lang := current_lang st;
               consecutive_failures := n |}.

(** [try: m  except subprocess.CalledProcessError: h] *)
Definition try_except_called {A} (m : M A) (h : M A) : M A :=
  fun st =>
    match m st with
    | (ev, st', Raised CalledProcessError) =>
        match h st' with
        | (ev', st'', r) => ((ev ++ ev')%list, st'', r)
        end
    | o => o
    end.

(** [table\[k\]] *)
Fixpoint index (k : string) (table : list (string * string)) : M string :=
  match table with
  | [] => raise KeyError
  | (k', v) :: r => if String.eqb k k' then ret v else index k r
  end.

(** [tts.speak(text, lang)]: blank text is dropped, anything else is
    handed to a speech thread. *)
Definition speak (text lang : string) : M unit :=
  if is_empty text || is_empty (strip text) then ret tt
  else tell (Speak text lang).

(** [msg = en; if lang == "ta": msg = ta] *)
Definition pick (lang en ta : string) : string :=
  if String.eqb lang "ta" then ta else en.

(** A value handed to [re.sub]: anything but a [str] is a [TypeError]. *)
Definition as_str (v : value) : M string :=
  match v with
  | VStr s => ret s
  | _ => raise TypeError
  end.

(** A string method ([v.lower()], [v.strip()]) called on a value:
    anything but a [str] is an [AttributeError]. *)
Definition str_method (v : value) : M string :=
  match v with
  | VStr s => ret s
  | _ => raise AttributeError
  end.

(** ** The outside world

    Everything the code asks of the machine it runs on.  One value of
    [world] fixes the answers for the duration of a command. *)

Inductive run_outcome : Type :=
| Completed (stdout : string)
| TimeoutExpired
| RunFailed.

Inductive kill_outcome : Type :=
| Killed                (* taskkill exits with 0 *)
| NotRunning            (* CalledProcessError: non-zero exit *)
| KillFailed.           (* taskkill itself could not be started *)

Record world : Type := {
  (** stdout of [ollama list], or [None] when the call fails *)
  ollama_list : option string;
  (** [ollama run model prompt] under a timeout in seconds *)
  ollama_run : string -> string -> nat -> run_outcome;
  (** [os.getenv('USERNAME', 'User')] *)
  username : string;
  (** [os.path.exists] when the discovery object was built *)
  path_existed : string -> bool;
  (** [os.path.exists] now *)
  path_exists : string -> bool;
  (** the result of [scan_registry_apps()] at start-up *)
  registry_apps : list (string * string);
  (** does [subprocess.Popen(\[path\], shell)] return? *)
  popen_ok : string -> bool -> bool;
  (** does [webbrowser.open(url)] return? *)
  browser_ok : string -> bool;
  taskkill : string -> kill_outcome;
  (** does [pyperclip.copy] return? *)
  clipboard_ok : bool;
  (** does [pyautogui.hotkey] return? *)
  hotkey_ok : bool;
  (** [str(v)] for a decoded value that is not a string *)
  py_str : value -> string;
  (** [str(e)] for a caught exception *)
  exn_text : exn -> string;
  (** [str.isalnum] on a character outside ASCII, given by its UTF-8
      bytes *)
  isalnum : string -> bool
}.

(** [f"{v}"] *)
Definition fmt (w : world) (v : value) : string :=
  match v with
  | VStr s => s
  | _ => py_str w v
  end.

(** ** Model selection and invocation ([AIConfig], [query_ollama_smart]) *)

(** [table.get(k)] for a table of strings *)
Fixpoint lookup {A} (k : string) (table : list (string * A)) : option A :=
  match table with
  | [] => None
  | (k', v) :: r => if String.eqb k k' then Some v else lookup k r
  end.

Definition TASK_MODELS : list (string * string) :=
  [("fast", "phi3:mini"); ("deep", "llama3:instruct");
   ("reasoning", "mistral:latest")].

Definition MODEL_FALLBACK : list string :=
  ["phi3:mini"; "llama3:instruct"; "mistral:latest"].

Definition FAST_TIMEOUT : nat := 15.
Definition NORMAL_TIMEOUT : nat := 30.
Definition REASONING_TIMEOUT : nat := 45.

Definition get_timeout_for_model (model : string) : nat :=
  if contains "phi3" model then FAST_TIMEOUT
  else if contains "mistral" model then REASONING_TIMEOUT
  else NORMAL_TIMEOUT.

Definition fast_keywords : list string :=
  ["open"; "close"; "start"; "stop"; "launch"; "quit"; "exit";
   "play"; "pause"; "skip"; "next"; "previous"; "volume";
   "shutdown"; "restart"; "sleep"; "hibernate"; "copy"; "paste";
   "thorakku"; "muddu"; "pannu"; "podu"; "kelu"; "ninruthu";
   "hello"; "hi"; "vanakkam"; "thanks"; "bye"].

Definition deep_keywords : list string :=
  ["explain"; "what is"; "who is"; "where is"; "when did"; "how does";
   "definition"; "meaning"; "history"; "biography"; "facts about";
   "tell me about"; "describe"; "overview"; "summary"; "information"].

Definition reasoning_keywords : list string :=
  ["solve"; "calculate"; "compute"; "analyze"; "compare"; "evaluate";
   "problem"; "puzzle"; "logic"; "reasoning"; "algorithm"; "code";
   "generate code"; "write code"; "create program"; "debug"; "programming"].

(** The reply [query_ollama_smart] gives when the model gave none. *)
Definition model_failed_reply : string :=
  unq "{`tool`: `general_chat`, `parameters`: {`query`: `AI model failed.`}}".

(** The test a reply must pass to count as a generation. *)
Definition accepted (response : string) : bool :=
  negb (is_empty response) && negb (contains "Error:" response)
  && (10 <? len response)%nat.

Definition looks_like_code (response : string) : bool :=
  contains "def " response || contains "import " response
  || contains "class " response.

Section Model.

Variable w : world.

Definition check_model_availability (model : string) : bool :=
  match ollama_list w with
  | Some stdout => contains model stdout
  | None => false
  end.

Definition get_available_models : list string :=
  filter check_model_availability MODEL_FALLBACK.

Definition preferred_by_keywords (query_lower : string) : string :=
  let fast_score := count_in fast_keywords query_lower in
  let deep_score := count_in deep_keywords query_lower in
  let reasoning_score := count_in reasoning_keywords query_lower in
  if (Nat.max fast_score deep_score <? reasoning_score)%nat
  then "mistral:latest"
  else if (fast_score <? deep_score)%nat then "llama3:instruct"
  else "phi3:mini".

Definition select_by_keywords (query : string) : string :=
  let preferred_model := preferred_by_keywords (lower query) in
  if check_model_availability preferred_model then preferred_model
  else
    match get_available_models with
    | m :: _ => m
    | [] => "phi3:mini"
    end.

Definition select_model_for_task (query : string) (task_type : option string)
  : string :=
  match task_type with
  | Some t =>
      match (if is_empty t then None else lookup t TASK_MODELS) with
      | Some preferred_model =>
          if check_model_availability preferred_model then preferred_model
          else select_by_keywords query
      | None => select_by_keywords query
      end
  | None => select_by_keywords query
  end.

(** [subprocess.run(\["ollama", "run", model, prompt\], timeout=...)] *)
Definition run_model (model prompt : string) (timeout : nat) : M string :=
  match ollama_run w model prompt timeout with
  | Completed stdout => ret stdout
  | TimeoutExpired => raise SubprocessTimeout
  | RunFailed => raise OSError
  end.

Definition query_ollama_smart (prompt query : string)
           (task_type : option string) : M string :=
  let selected_model :=
    select_model_for_task (if is_empty query then prompt else query)
                          task_type in
  let timeout := get_timeout_for_model selected_model in
  answer <-
    try_except
      (stdout <- run_model selected_model prompt timeout ;;
       let response := strip stdout in
       if accepted response then
         (if looks_like_code response
          then set_last_generated_code response else ret tt) ;;
         ret (Some response)
       else ret None)
      (fun _ => ret None) ;;
  match answer with
  | Some response => ret response
  | None => ret model_failed_reply
  end.

(** The instruction text of [get_ai_intent], around the command. *)
Definition intent_prompt (text : string) : string :=
  unq "
You are a command interpreter for Tamil and English voice commands.
Classify this command into JSON with EXACT parameter names.

TOOLS AVAILABLE:
- open_app: Open applications, websites, or system functions
- close_app: Close running applications  
- search_web: Search Google for information
- system_control: System commands (shutdown, restart, sleep)
- play_media: Play music/videos on platforms (YouTube, Spotify)
- clipboard_action: Copy/paste operations with apps
- general_chat: Conversations and questions

RULES:
- For apps: {`tool`: `open_app`, `parameters`: {`app_name`: `APP_NAME`}}
- For system: {`tool`: `system_control`, `parameters`: {`action`: `ACTION`}}
- For media: {`tool`: `play_media`, `parameters`: {`query`: `SEARCH_TERM`, `platform`: `PLATFORM`}}
- For clipboard: {`tool`: `clipboard_action`, `parameters`: {`action`: `copy/paste`, `target_app`: `APP_NAME`}}
- For closing: {`tool`: `close_app`, `parameters`: {`app_name`: `APP_NAME`}}
- For web search: {`tool`: `search_web`, `parameters`: {`query`: `SEARCH_QUERY`}}
- For chat: {`tool`: `general_chat`, `parameters`: {`query`: `USER_MESSAGE`}}

EXAMPLES:
- `play coolie songs on youtube` -> {`tool`: `play_media`, `parameters`: {`query`: `coolie songs`, `platform`: `youtube`}}
- `coolie songs youtube la play pannu` -> {`tool`: `play_media`, `parameters`: {`query`: `coolie songs`, `platform`: `youtube`}}
- `play tamil music on spotify` -> {`tool`: `play_media`, `parameters`: {`query`: `tamil music`, `platform`: `spotify`}}
- `copy code and paste in vscode` -> {`tool`: `clipboard_action`, `parameters`: {`action`: `copy_paste`, `target_app`: `vscode`}}
- `paste code in notepad` -> {`tool`: `clipboard_action`, `parameters`: {`action`: `paste`, `target_app`: `notepad`}}
- `open chrome` -> {`tool`: `open_app`, `parameters`: {`app_name`: `chrome`}}
- `shutdown computer` -> {`tool`: `system_control`, `parameters`: {`action`: `shutdown`}}

Command: `" ++ text ++ unq "`
Return ONLY the JSON object:
".

(** [json.loads(s)] as a computation *)
Definition json_loads (s : string) : M value :=
  match Json.loads s with
  | Some v => ret v
  | None => raise JSONDecodeError
  end.

Definition get_ai_intent (text : string) : M value :=
  try_except
    (response <- query_ollama_smart (intent_prompt text) text (Some "fast") ;;
     let start := find_char "{" response in
     let end_ := (rfind_char "}" response + 1)%Z in
     if negb (start =? -1)%Z && negb (end_ =? 0)%Z then
       json_loads (slice start end_ response)
     else ret (handle_fallback text))
    (fun _ => ret (handle_fallback text)).

End Model.

(** ** Capability registry ([MediaControlAppDiscovery]) *)

Record media_platform : Type := {
  base_url : string;
  (** the text before and after the [{}] of the URL template *)
  search_url : string * string;
  play_url : string * string;
  app_launch : option string
}.

(** [template.format(q)] *)
Definition format_url (template : string * string) (q : string) : string :=
  fst template ++ q ++ snd template.

(** name, command, description *)
Definition system_commands : list (string * (string * string)) :=
  [("shutdown", ("shutdown /s /t 5", "Shutdown computer in 5 seconds"));
   ("restart", ("shutdown /r /t 5", "Restart computer in 5 seconds"));
   ("reboot", ("shutdown /r /t 5", "Reboot computer in 5 seconds"));
   ("sleep", ("rundll32.exe powrprof.dll,SetSuspendState 0,1,0",
              "Put computer to sleep"));
   ("hibernate", ("shutdown /h", "Hibernate computer"));
   ("logout", ("shutdown -l", "Log out current user"));
   ("lock", ("rundll32.exe user32.dll,LockWorkStation",
             "Lock the workstation"))].

Definition web_apps : list (string * string) :=
  [("youtube", "https://www.youtube.com");
   ("gmail", "https://mail.google.com");
   ("facebook", "https://www.facebook.com");
   ("twitter", "https://www.twitter.com");
   ("instagram", "https://www.instagram.com");
   ("netflix", "https://www.netflix.com");
   ("amazon", "https://www.amazon.com");
   ("github", "https://www.github.com");
   ("reddit", "https://www.reddit.com")].

Definition media_platforms : list (string * media_platform) :=
  [("youtube",
    {| base_url := "https://www.youtube.com";
       search_url := ("https://www.youtube.com/results?search_query=", "");
       play_url := ("https://www.youtube.com/results?search_query=",
                    "&autoplay=1");
       app_launch := None |});
   ("spotify",
    {| base_url := "https://open.spotify.com";
       search_url := ("https://open.spotify.com/search/", "");
       play_url := ("https://open.spotify.com/search/", "");
       app_launch := Some "spotify" |});
   ("soundcloud",
    {| base_url := "https://soundcloud.com";
       search_url := ("https://soundcloud.com/search?q=", "");
       play_url := ("https://soundcloud.com/search?q=", "");
       app_launch := None |})].

(** [build_process_map] *)
Definition process_map : list (string * string) :=
  [("chrome", "chrome.exe"); ("firefox", "firefox.exe");
   ("edge", "msedge.exe"); ("spotify", "Spotify.exe");
   ("discord", "Discord.exe"); ("vscode", "Code.exe");
   ("notepad", "notepad.exe"); ("notepadplusplus", "notepad++.exe");
   ("whatsapp", "WhatsApp.exe"); ("calculator", "Calculator.exe")].

(** The candidate paths of [setup_manual_mappings]. *)
Definition app_search (user : string) : list (string * list string) :=
  [("chrome",
    ["C:\Program Files\Google\Chrome\Application\chrome.exe";
     "C:\Program Files (x86)\Google\Chrome\Application\chrome.exe";
     "C:\Users\" ++ user ++ "\AppData\Local\Google\Chrome\Application\chrome.exe"]);
   ("firefox",
    ["C:\Program Files\Mozilla Firefox\firefox.exe";
     "C:\Program Files (x86)\Mozilla Firefox\firefox.exe"]);
   ("spotify",
    ["C:\Users\" ++ user ++ "\AppData\Roaming\Spotify\Spotify.exe";
     "C:\Users\" ++ user ++ "\AppData\Local\Microsoft\WindowsApps\Spotify.exe"]);
   ("whatsapp",
    ["C:\Users\" ++ user ++ "\AppData\Local\WhatsApp\WhatsApp.exe";
     "C:\Users\" ++ user ++ "\AppData\Local\Microsoft\WindowsApps\WhatsApp.exe"]);
   ("vscode",
    ["C:\Users\" ++ user ++ "\AppData\Local\Programs\Microsoft VS Code\Code.exe";
     "C:\Program Files\Microsoft VS Code\Code.exe"]);
   ("notepad", ["notepad.exe"]);
   ("notepadplusplus",
    ["C:\Program Files\Notepad++\notepad++.exe";
     "C:\Program Files (x86)\Notepad++\notepad++.exe"]);
   ("calculator", ["calc.exe"]);
   ("paint", ["mspaint.exe"])].

(** [re.sub(r, '', s)] for a pattern that ends in [$]: the leftmost match
    is the only one, and it is cut out. *)
Fixpoint cut_from (r : Re.regex) (prev : option string) (s : string) : string :=
  match s with
  | EmptyString =>
      match Re.matches r (prev, s) with
      | (_, rest) :: _ => rest
      | [] => EmptyString
      end
  | String c t =>
      if is_cont c then String c (cut_from r prev t)
      else
        match Re.matches r (prev, s) with
        | (_, rest) :: _ => rest
        | [] => String c (cut_from r (option_map fst (next_char s)) t)
        end
  end.

Definition re_cut (r : Re.regex) (s : string) : string := cut_from r None s.

(** \s*\(.*?\)$ *)
Definition trailing_parens : Re.regex :=
  Re.seq [Re.Star Re.space; Re.chr "("; Re.Star Re.dot; Re.chr ")"; Re.Eos].

(** \s*(x64|64-bit|32-bit|build|version)[\s\d\.]*$, ignoring case *)
Definition trailing_version : Re.regex :=
  Re.seq [Re.Star Re.space;
          Re.alt [Re.lit_i "x64"; Re.lit_i "64-bit"; Re.lit_i "32-bit";
                  Re.lit_i "build"; Re.lit_i "version"];
          Re.Star (Re.Class (fun ch =>
                               Re.space_char ch
                               || Re.ascii_char
                                    (fun c => Re.is_digit c || Ascii.eqb c ".")
                                    ch));
          Re.Eos].

Definition clean_app_name (name : string) : string :=
  let name := strip (re_cut trailing_parens name) in
  let name := strip (re_cut trailing_version name) in
  lower name.

(** [urllib.parse.quote_plus], on the UTF-8 form of the text *)
Definition hex_upper (n : nat) : ascii :=
  if (n <? 10)%nat then ascii_of_nat (48 + n) else ascii_of_nat (55 + n).

Definition quote_char (c : ascii) : string :=
  if (code c =? 32)%nat then "+"
  else if Re.is_word c || Ascii.eqb c "." || Ascii.eqb c "-" || Ascii.eqb c "~"
  then String c EmptyString
  else String "%" (String (hex_upper (code c / 16))
                     (String (hex_upper (code c mod 16)) EmptyString)).

Fixpoint quote_plus (s : string) : string :=
  match s with
  | EmptyString => EmptyString
  | String c r => quote_char c ++ quote_plus r
  end.

Definition has_scheme (path : string) : bool :=
  startswith "web:" path || startswith "media:" path
  || startswith "system:" path.

Section Registry.

Variable w : world.

(** [self.manual_app_paths] after [setup_manual_mappings], which runs
    once, when the discovery object is built *)
Definition manual_app_paths : list (string * string) :=
  flat_map
    (fun entry : string * list string =>
       match find (fun path => path_existed w path
                               || negb (startswith "C:" path))
                  (snd entry) with
       | Some path => [(fst entry, path)]
       | None => []
       end)
    (app_search (username w)).

(** [self.installed_apps] after [refresh_apps] *)
Definition installed_apps : list (string * string) := registry_apps w.

Definition find_app (app_name : string) : option string :=
  let app_name_clean := clean_app_name app_name in
  match lookup app_name_clean system_commands with
  | Some _ => Some ("system:" ++ app_name_clean)
  | None =>
  match lookup app_name_clean manual_app_paths with
  | Some path => Some path
  | None =>
  match lookup app_name_clean web_apps with
  | Some url => Some ("web:" ++ url)
  | None =>
  match lookup app_name_clean media_platforms with
  | Some _ => Some ("media:" ++ app_name_clean)
  | None =>
  match (match lookup app_name_clean installed_apps with
         | Some path => if path_exists w path then Some path else None
         | None => None
         end) with
  | Some path => Some path
  | None =>
      match find (fun entry : string * string =>
                    contains app_name_clean (fst entry)
                    && path_exists w (snd entry)) installed_apps with
      | Some entry => Some (snd entry)
      | None => None
      end
  end end end end end.

(** The primitives that may raise. *)
Definition popen (path : string) (shell : bool) : M unit :=
  if popen_ok w path shell then tell (Popen path shell) else raise OSError.

Definition webbrowser_open (url : string) : M unit :=
  if browser_ok w url then tell (OpenUrl url) else raise OSError.

Definition pyperclip_copy (text : string) : M unit :=
  if clipboard_ok w then tell (ClipboardCopy text) else raise OSError.

Definition pyautogui_hotkey (keys : string) : M unit :=
  if hotkey_ok w then tell (Hotkey keys) else raise OSError.

(** [launch_app]; a call that falls off the end of the function gives
    [None], which every caller tests as false. *)
Definition launch_app (app_path : string) : M bool :=
  try_except
    (if startswith "system:" app_path then
       let system_cmd := drop 7 app_path in
       match lookup system_cmd system_commands with
       | Some cmd_info => tell (OsSystem (fst cmd_info)) ;; ret true
       | None => ret false
       end
     else if startswith "web:" app_path then
       webbrowser_open (drop 4 app_path) ;; ret true
     else if startswith "media:" app_path then
       let platform := drop 6 app_path in
       match lookup platform media_platforms with
       | Some platform_info =>
           let desktop :=
             match app_launch platform_info with
             | Some app =>
                 match find_app app with
                 | Some desktop_path =>
                     if negb (is_empty desktop_path)
                        && negb (has_scheme desktop_path)
                     then Some desktop_path else None
                 | None => None
                 end
             | None => None
             end in
           match desktop with
           | Some desktop_path => popen desktop_path false ;; ret true
           | None => webbrowser_open (base_url platform_info) ;; ret true
           end
       | None => ret false
       end
     else if endswith ".exe" app_path then
       (if path_exists w app_path then popen app_path false
        else popen app_path true) ;;
       ret true
     else ret false)
    (fun _ => ret false).

(** [app_discovery.play_media]; the arguments are whatever the intent
    carried. *)
Definition discovery_play_media (query platform : value) : M bool :=
  try_except
    (platform_s <- as_str platform ;;
     let platform_clean := clean_app_name platform_s in
     match lookup platform_clean media_platforms with
     | Some platform_info =>
         query_s <- str_method query ;;
         let encoded_query := quote_plus (strip query_s) in
         let desktop :=
           if String.eqb platform_clean "spotify" then
             match app_launch platform_info with
             | Some _ =>
                 match find_app "spotify" with
                 | Some desktop_path =>
                     if negb (is_empty desktop_path)
                        && negb (has_scheme desktop_path)
                     then Some desktop_path else None
                 | None => None
                 end
             | None => None
             end
           else None in
         match desktop with
         | Some desktop_path =>
             popen desktop_path false ;;
             tell (Sleep 30) ;;
             webbrowser_open
               (format_url (search_url platform_info) encoded_query) ;;
             ret true
         | None =>
             let url :=
               if String.eqb platform_clean "youtube"
               then format_url (search_url platform_info) encoded_query
               else format_url (play_url platform_info) encoded_query in
             webbrowser_open url ;;
             ret true
         end
     | None => ret false
     end)
    (fun _ => ret false).

End Registry.

(** ** Tool handlers *)

(** [if path:] on the result of [find_app] *)
Definition found (o : option string) : option string :=
  match o with
  | Some path => if is_empty path then None else Some path
  | None => None
  end.

(** [v == s] for a string constant *)
Definition is_str (v : value) (s : string) : bool :=
  match v with
  | VStr a => String.eqb a s
  | _ => false
  end.

Definition action_messages : list (string * (string * string)) :=
  [("shutdown", ("Shutting down computer in 5 seconds",
                 "5 seconds-la computer shutdown aagum"));
   ("restart", ("Restarting computer in 5 seconds",
                "5 seconds-la computer restart aagum"));
   ("reboot", ("Rebooting computer in 5 seconds",
               "5 seconds-la computer reboot aagum"));
   ("sleep", ("Putting computer to sleep",
              "Computer-a sleep mode-la pottu tharren"));
   ("hibernate", ("Hibernating computer", "Computer-a hibernate panren"));
   ("logout", ("Logging out", "Logout panren"));
   ("lock", ("Locking computer", "Computer-a lock panren"))].

Definition code_keywords : list string :=
  ["generate code"; "write code"; "create program"; "code for";
   "program for"; "script for"].

Section Tools.

Variable w : world.

Definition open_app (app_name : value) (lang : string) : M unit :=
  name <- as_str app_name ;;
  match found (find_app w name) with
  | None =>
      speak (pick lang ("I couldn't find " ++ name)
                       (name ++ " kandupidikka mudiyala")) lang
  | Some app_path =>
      success <- launch_app w app_path ;;
      if success then
        if startswith "system:" app_path
        then speak (pick lang ("Executing " ++ name) (name ++ " panren")) lang
        else speak (pick lang ("Opening " ++ name) (name ++ " thorakkuren"))
                   lang
      else
        speak (pick lang "Sorry, couldn't complete that action"
                         "Adhu panna mudiyala") lang
  end.

Definition play_media (query platform : value) (lang : string) : M unit :=
  success <- discovery_play_media w query platform ;;
  let q := fmt w query in
  let p := fmt w platform in
  if success then
    platform_s <- str_method platform ;;
    if String.eqb (lower platform_s) "youtube" then
      speak (pick lang ("Playing " ++ q ++ " on YouTube")
                       (q ++ " YouTube-la play panren")) lang
    else if String.eqb (lower platform_s) "spotify" then
      speak (pick lang ("Playing " ++ q ++ " on Spotify")
                       (q ++ " Spotify-la kekka pottutten")) lang
    else
      speak (pick lang ("Playing " ++ q ++ " on " ++ p)
                       (q ++ " " ++ p ++ "-la play panren")) lang
  else
    speak (pick lang ("Sorry, couldn't play " ++ q ++ " on " ++ p)
                     (q ++ " " ++ p ++ "-la play panna mudiyala")) lang.

Definition clipboard_action (action target_app : value) (lang : string)
  : M unit :=
  let t := fmt w target_app in
  try_except
    (if is_str action "copy_paste" then
       st <- get_store ;;
       if negb (is_empty (last_generated_code st)) then
         pyperclip_copy w (last_generated_code st) ;;
         speak (pick lang "Code copied to clipboard"
                          "Code clipboard-la copy pannitten") lang ;;
         tell (Sleep 10) ;;
         target <- as_str target_app ;;
         match found (find_app w target) with
         | Some app_path =>
             success <- launch_app w app_path ;;
             if success then
               tell (Sleep 20) ;;
               pyautogui_hotkey w "ctrl+v" ;;
               speak (pick lang ("Code pasted in " ++ t)
                                ("Code " ++ t ++ "-la paste pannitten")) lang
             else
               speak (pick lang ("Couldn't open " ++ t)
                                (t ++ " thorakka mudiyala")) lang
         | None =>
             speak (pick lang ("Couldn't find " ++ t)
                              (t ++ " kandupidikka mudiyala")) lang
         end
       else
         speak (pick lang "No code to copy" "Copy panna code illai") lang
     else if is_str action "paste" then
       target <- as_str target_app ;;
       match found (find_app w target) with
       | Some app_path =>
           success <- launch_app w app_path ;;
           if success then
             tell (Sleep 20) ;;
             pyautogui_hotkey w "ctrl+v" ;;
             speak (pick lang ("Pasted in " ++ t)
                              (t ++ "-la paste pannitten")) lang
           else ret tt
       | None => ret tt
       end
     else if is_str action "copy" then
       st <- get_store ;;
       if negb (is_empty (last_generated_code st)) then
         pyperclip_copy w (last_generated_code st) ;;
         speak (pick lang "Code copied to clipboard"
                          "Code clipboard-la copy pannitten") lang
       else
         speak (pick lang "No code to copy" "Copy panna code illai") lang
     else ret tt)
    (fun _ =>
       speak (pick lang "Clipboard operation failed"
                        "Clipboard operation fail aachu") lang).

Definition system_control (action : value) (lang : string) : M unit :=
  a <- as_str action ;;
  match found (find_app w a) with
  | Some app_path =>
      if startswith "system:" app_path then
        match lookup a action_messages with
        | Some msgs => speak (pick lang (fst msgs) (snd msgs)) lang
        | None => ret tt
        end ;;
        success <- launch_app w app_path ;;
        if success then ret tt
        else speak (pick lang "Failed to execute system command"
                              "System command execute aagala") lang
      else
        speak (pick lang ("Unknown system action: " ++ a)
                         (a ++ " theriyala")) lang
  | None =>
      speak (pick lang ("Unknown system action: " ++ a)
                       (a ++ " theriyala")) lang
  end.

(** [subprocess.run(\["taskkill", "/f", "/im", p\], check=True)] *)
Definition run_taskkill (process_name : string) : M unit :=
  match taskkill w process_name with
  | Killed => tell (TaskKill process_name)
  | NotRunning => tell (TaskKill process_name) ;; raise CalledProcessError
  | KillFailed => raise OSError
  end.

Definition close_app (app_name : value) (lang : string) : M unit :=
  name <- as_str app_name ;;
  match found (lookup (clean_app_name name) process_map) with
  | Some process_name =>
      try_except_called
        (run_taskkill process_name ;;
         speak (pick lang ("Closed " ++ name) (name ++ " mudditten")) lang)
        (speak (pick lang (name ++ " is not running") (name ++ " odala"))
               lang)
  | None =>
      speak (pick lang ("Don't know how to close " ++ name)
                       (name ++ " mudda theriyala")) lang
  end.

Definition search_web (query : value) (lang : string) : M unit :=
  try_except
    (q <- str_method query ;;
     let encoded_query := quote_plus (strip q) in
     webbrowser_open w ("https://www.google.com/search?q=" ++ encoded_query) ;;
     speak (pick lang ("Here's what I found for " ++ q)
                      (q ++ " pathi Google-la search pannitten")) lang)
    (fun _ =>
       speak (pick lang "Sorry, couldn't perform the search"
                        "Search panna mudiyala") lang).

Definition general_chat (query : value) (lang : string) : M unit :=
  q <- str_method query ;;
  let query_lower := lower q in
  if any_in ["vanakkam"; "hai"; "hello"] query_lower then
    speak (pick lang "Hello! How can I help you?"
                     "Vanakkam! Enna help venum?") lang
  else if any_in ["how are you"; "epdi irukka"] query_lower then
    speak (pick lang "I'm doing well, thank you!"
                     "Naan nalla iruken, nandri!") lang
  else if any_in ["thank you"; "thanks"; "nandri"] query_lower then
    speak (pick lang "You're welcome! Happy to help!"
                     "Paravala! Vera enna help venum?") lang
  else if any_in code_keywords query_lower then
    response <-
      query_ollama_smart w
        ("Generate clean, well-commented code for: " ++ q ++ "

Provide only the code with comments, no explanations:") q (Some "reasoning") ;;
    if negb (is_empty response) && looks_like_code response then
      set_last_generated_code response ;;
      speak (pick lang
               "Code generated! Say 'copy code and paste in vscode' to use it."
               "Code generate pannitten! 'Copy code and paste in vscode' sollungal.")
            lang
    else speak response lang
  else
    response <-
      query_ollama_smart w ("Answer briefly and helpfully: " ++ q) q
                         (Some "fast") ;;
    if negb (is_empty response) && negb (contains "failed" (lower response))
    then speak response lang
    else
      speak (pick lang "I'm not sure how to help with that"
                       "Adhu pathi enakku theriyala") lang.

End Tools.

(** ** Command dispatcher ([execute_command]) *)

(** The parameters a handler declares before [lang]. *)
Definition required (t : tool) : list string :=
  match t with
  | open_app_t => ["app_name"]
  | close_app_t => ["app_name"]
  | search_web_t => ["query"]
  | system_control_t => ["action"]
  | play_media_t => ["query"; "platform"]
  | clipboard_action_t => ["action"; "target_app"]
  | general_chat_t => ["query"]
  end.

Definition mem (k : string) (ks : list string) : bool :=
  existsb (String.eqb k) ks.

(** The [TOOLS] registry: the body of each handler, on arguments already
    bound to its parameters in declaration order. *)
Definition TOOLS (w : world) (t : tool) (args : list value) (lang : string)
  : M unit :=
  match t, args with
  | open_app_t, [a] => open_app w a lang
  | close_app_t, [a] => close_app w a lang
  | search_web_t, [q] => search_web w q lang
  | system_control_t, [a] => system_control w a lang
  | play_media_t, [q; p] => play_media w q p lang
  | clipboard_action_t, [a; target] => clipboard_action w a target lang
  | general_chat_t, [q] => general_chat w q lang
  | _, _ => raise TypeError
  end.

(** [tool_function( **kwargs )]: an unexpected key or a missing required
    one is a [TypeError] raised before the body runs. *)
Definition bind_args (t : tool) (kwargs : dict) : option (list value) :=
  if forallb (fun k => mem k (required t) || String.eqb k "lang")
             (dict_keys kwargs)
     && forallb (fun k => dict_has k kwargs) (required t)
  then Some (map (fun k => match dict_get k kwargs with
                           | Some v => v
                           | None => VNone
                           end) (required t))
  else None.

(** [tool_name in TOOLS]: a string is looked up, a list or a dictionary
    cannot be hashed, anything else is absent. *)
Definition tools_lookup (tool_name : option value) : M (option tool) :=
  match tool_name with
  | Some (VStr n) => ret (tool_of_name n)
  | Some (VList _) => raise TypeError
  | Some (VDict _) => raise TypeError
  | _ => ret None
  end.

Definition generic_apology (lang : string) : string :=
  pick lang "Sorry, I had an error processing that" "Error aachu, mannichanga".

Section Dispatcher.

(** The handlers behind the registry; every one of them declares
    [lang], so the language is always injected. *)
Variable tools : tool -> list value -> string -> M unit.

Definition call_tool (t : tool) (kwargs : dict) (lang : string) : M unit :=
  match bind_args t kwargs with
  | Some args => tools t args lang
  | None => raise TypeError
  end.

Definition execute_command (intent : value) (lang : string) : M unit :=
  try_except
    (d <- match intent with
          | VDict d => ret d
          | _ => raise AttributeError
          end ;;
     let tool_name := dict_get "tool" d in
     let parameters :=
       match dict_get "parameters" d with
       | Some p => p
       | None => VDict []
       end in
     known <- tools_lookup tool_name ;;
     match known with
     | Some t =>
         kwargs <- match parameters with
                   | VDict ps => ret (dict_set "lang" (VStr lang) ps)
                   | _ => raise TypeError
                   end ;;
         call_tool t kwargs lang
     | None => tools general_chat_t [VStr "I'm not sure what you mean"] lang
     end)
    (fun _ => speak (generic_apology lang) lang).

End Dispatcher.

(** ** [handle_command] ([app.py]) *)

Definition has_tool (intent : value) : bool :=
  match intent with
  | VDict d => dict_has "tool" d
  | _ => false
  end.

Definition handle_command (w : world) (command_text lang : string) : M unit :=
  try_except
    (let command_clean := strip command_text in
     if (len command_clean <? 2)%nat then ret tt
     else
       tell (Emit "log_message" command_clean) ;;
       tell (Emit "status_update" "🤖 Processing with AI...") ;;
       intent <- get_ai_intent w command_clean ;;
       if negb (has_tool intent) then
         msg <- index lang
                  [("en", "Sorry, I didn't understand that command");
                   ("ta", "Command puriyala, marupadiyum sollunga")] ;;
         speak msg lang
       else
         execute_command (TOOLS w) intent lang ;;
         tell (Emit "status_update" "✅ Command completed"))
    (fun e =>
       msg <- index lang
                [("en", "Sorry, I had an error processing that");
                 ("ta", "Error aachu, mannichanga")] ;;
       speak msg lang ;;
       tell (Emit "status_update" ("❌ Error: " ++ exn_text w e))).

(** ** Speech capture ([pluto_listener.listen_once]) *)

Definition tamil_words : list string :=
  ["thorakku"; "thoraku"; "muddu"; "mudu"; "pannu"; "podu";
   "vanakkam"; "sollunga"; "kekkala"; "kandupidikka"; "mudiyala"].

Definition is_tamil_text (text : string) : bool :=
  if is_empty text then false else any_in tamil_words (lower text).

(** What the microphone and the recogniser did. *)
Inductive heard : Type :=
| Recognized (text : string)
| UnknownValue
| RequestFailed
| WaitTimeout
| ListenFailed.

(** What [listen_once] returns: a pair, or [None] when the recognised
    text is too short and the function falls off its end. *)
Definition capture : Type := option (string * string).

Definition listen_once (h : heard) : capture :=
  match h with
  | Recognized text =>
      if negb (is_empty text) && (1 <? len (strip text))%nat then
        let text_clean := strip text in
        Some (text_clean, if is_tamil_text text_clean then "ta" else "en")
      else None
  | _ => Some (EmptyString, "en")
  end.

(** ** One turn of [continuous_listener] *)

Definition max_failures : nat := 5.

Definition wake_responses : list (string * string) :=
  [("en", "Yes, how can I help?"); ("ta", "Sollunga, enna help venum?")].

Definition no_command_responses : list (string * string) :=
  [("en", "I didn't hear a command"); ("ta", "Command kekkala")].

Definition starts_ta (lang : string) : bool :=
  negb (is_empty lang) && startswith "ta" lang.

(** [text, lang = listen_once(...)] *)
Definition unpack (c : capture) : M (string * string) :=
  match c with
  | Some p => ret p
  | None => raise TypeError
  end.

Section Listener.

Variable w : world.
(** The command entry point the loop calls. *)
Variable handle : string -> string -> M unit.

(** After the acknowledgement: the second capture. *)
Definition follow_up (second : capture) : M unit :=
  tell (Listen 8 10) ;;
  p <- unpack second ;;
  let command_text := fst p in
  let cmd_lang := snd p in
  if negb (is_empty command_text)
     && (2 <? len (strip command_text))%nat
  then
    (if starts_ta cmd_lang then set_current_lang "ta" else ret tt) ;;
    st <- get_store ;;
    handle command_text (current_lang st)
  else
    st <- get_store ;;
    msg <- index (current_lang st) no_command_responses ;;
    speak msg (current_lang st).

Definition on_wake (text_clean : string) (second : capture) : M unit :=
  tell (Emit "log_message" ("Wake word: " ++ text_clean)) ;;
  tell (Emit "status_update"
             "🎯 Wake word detected! Listening for command...") ;;
  st <- get_store ;;
  ack <- index (current_lang st) wake_responses ;;
  speak ack (current_lang st) ;;
  follow_up second.

Definition on_direct (text_clean : string) : M unit :=
  tell (Emit "log_message" ("Direct command: " ++ text_clean)) ;;
  st <- get_store ;;
  handle text_clean (current_lang st).

(** The body of the [while] loop, given what the next two calls of
    [listen_once] return (the second is only asked for after a wake
    word). *)
Definition listener_turn (first second : capture) : M unit :=
  try_except
    (tell (Emit "status_update" "Listening for wake word or command...") ;;
     tell (Listen 3 6) ;;
     p <- unpack first ;;
     let text := fst p in
     let detected_lang := snd p in
     if is_empty text then
       st <- get_store ;;
       let failures := S (consecutive_failures st) in
       if (max_failures <? failures)%nat then
         tell (Sleep 20) ;;
         set_consecutive_failures 0
       else set_consecutive_failures failures
     else
       set_consecutive_failures 0 ;;
       let text_clean := strip text in
       set_current_lang (if starts_ta detected_lang then "ta" else "en") ;;
       let wake_word_found := detect_wake_word (isalnum w) text_clean in
       let direct_command := is_direct_command (isalnum w) text_clean in
       (if wake_word_found then on_wake text_clean second
        else if direct_command then on_direct text_clean
        else ret tt) ;;
       tell (Sleep 2))
    (fun e =>
       tell (Emit "status_update" ("Listener error: " ++ exn_text w e)) ;;
       tell (Sleep 10)).

End Listener.

(** The loop body with the real entry point. *)
Definition continuous_listener_turn (w : world) (first second : capture)
  : M unit :=
  listener_turn w (handle_command w) first second.

(** ** The rest of the web interface ([app.py]) and [app_automation.py] *)

(** [change_language(data)]: the payload of the socket event is whatever
    the client sent. *)
Definition change_language (data : value) : M unit :=
  d <- match data with
       | VDict d => ret d
       | _ => raise AttributeError
       end ;;
  let new_lang :=
    match dict_get "language" d with
    | Some v => v
    | None => VStr "en"
    end in
  match new_lang with
  | VStr l =>
      if mem l ["en"; "ta"] then
        set_current_lang l ;;
        name <- index l [("en", "English"); ("ta", "Tamil")] ;;
        tell (Emit "status_update" ("🌐 Language: " ++ name))
      else ret tt
  | _ => ret tt
  end.

(** [app_automation.search_youtube(query)]; [speak] is called without a
    language and so with its default. *)
Definition search_youtube (w : world) (query : string) : M bool :=
  try_except
    (let search_url :=
       "https://www.youtube.com/results?search_query="
       ++ replace " " "+" query in
     webbrowser_open w search_url ;;
     speak ("Searching YouTube for " ++ query) "en" ;;
     ret true)
    (fun e =>
       speak ("Failed to search YouTube: " ++ exn_text w e) "en" ;;
       ret false).

(** ** Sample machines *)

(** The letters of the Latin-1 supplement, U+00C0 to U+00FF without the
    two signs U+00D7 and U+00F7: [str.isalnum] on the only characters
    outside ASCII that the sample texts use in words. *)
Definition latin1_letter (ch : string) : bool :=
  match ch with
  | String a (String b EmptyString) =>
      (code a =? 195)%nat && is_cont b
      && negb (code b =? 151)%nat && negb (code b =? 183)%nat
  | _ => false
  end.

(** A machine without ollama and without any installed application
    beyond the ones Windows ships. *)
Definition bare_world : world :=
  {| ollama_list := None;
     ollama_run := fun _ _ _ => RunFailed;
     username := "User";
     path_existed := fun _ => false;
     path_exists := fun _ => false;
     registry_apps := [];
     popen_ok := fun _ _ => true;
     browser_ok := fun _ => true;
     taskkill := fun _ => NotRunning;
     clipboard_ok := true;
     hotkey_ok := true;
     py_str := fun _ => "?";
     exn_text := fun _ => "error";
     isalnum := latin1_letter |}.

(** The same machine with a model that prints [reply] to every prompt. *)
Definition answering (reply : string) : world :=
  {| ollama_list := Some "phi3:mini";
     ollama_run := fun _ _ _ => Completed reply;
     username := "User";
     path_existed := fun _ => false;
     path_exists := fun _ => false;
     registry_apps := [];
     popen_ok := fun _ _ => true;
     browser_ok := fun _ => true;
     taskkill := fun _ => NotRunning;
     clipboard_ok := true;
     hotkey_ok := true;
     py_str := fun _ => "?";
     exn_text := fun _ => "error";
     isalnum := latin1_letter |}.

(** The globals at start-up, and after some code was generated. *)
Definition fresh : store :=
  {| last_generated_code := EmptyString; current_lang := "en";
     consecutive_failures := 0 |}.

(** A machine on which every application is installed and none can be
    started. *)
Definition no_launch : world :=
  {| ollama_list := None;
     ollama_run := fun _ _ _ => RunFailed;
     username := "User";
     path_existed := fun _ => true;
     path_exists := fun _ => true;
     registry_apps := [];
     popen_ok := fun _ _ => false;
     browser_ok := fun _ => true;
     taskkill := fun _ => NotRunning;
     clipboard_ok := true;
     hotkey_ok := true;
     py_str := fun _ => "?";
     exn_text := fun _ => "error";
     isalnum := latin1_letter |}.

(** A machine from which every application was removed after the
    assistant had started. *)
Definition uninstalled : world :=
  {| ollama_list := None;
     ollama_run := fun _ _ _ => RunFailed;
     username := "User";
     path_existed := fun _ => true;
     path_exists := fun _ => false;
     registry_apps := [];
     popen_ok := fun _ _ => true;
     browser_ok := fun _ => true;
     taskkill := fun _ => NotRunning;
     clipboard_ok := true;
     hotkey_ok := true;
     py_str := fun _ => "?";
     exn_text := fun _ => "error";
     isalnum := latin1_letter |}.

Definition with_code : store :=
  {| last_generated_code := "def f(): pass"; current_lang := "en";
     consecutive_failures := 0 |}.

(** * Vocabulary of the properties *)

(** ** Intents *)

(** The tool name of an intent, when it has one that is a string. *)
Definition intent_tool (v : value) : option string :=
  match v with
  | VDict d =>
      match dict_get "tool" d with
      | Some (VStr n) => Some n
      | _ => None
      end
  | _ => None
  end.

(** The parameters of an intent, when they are a dictionary. *)
Definition intent_parameters (v : value) : option dict :=
  match v with
  | VDict d =>
      match dict_get "parameters" d with
      | Some (VDict ps) => Some ps
      | _ => None
      end
  | _ => None
  end.

(** Structurally valid: the tool is one of the seven and every parameter
    its handler requires is present. *)
Definition structurally_valid (v : value) : bool :=
  match intent_tool v, intent_parameters v with
  | Some n, Some ps =>
      match tool_of_name n with
      | Some t => forallb (fun k => dict_has k ps) (required t)
      | None => false
      end
  | _, _ => false
  end.

(** Valid in the sense of the data model: structurally valid, and every
    required parameter is a non-empty string. *)
Definition nonempty_str (o : option value) : bool :=
  match o with
  | Some (VStr s) => negb (is_empty s)
  | _ => false
  end.

Definition valid_intent (v : value) : bool :=
  match intent_tool v, intent_parameters v with
  | Some n, Some ps =>
      match tool_of_name n with
      | Some t => forallb (fun k => nonempty_str (dict_get k ps)) (required t)
      | None => false
      end
  | _, _ => false
  end.

(** ** The classifier *)

(** The rule list in the words of the specification: keyword set and
    tool, in priority order; the first rule with a keyword in the text
    wins and [general_chat] is the default. *)
Definition fallback_rules : list (list string * tool) :=
  [(media_words, play_media_t);
   (clipboard_words, clipboard_action_t);
   (system_words, system_control_t);
   (open_words, open_app_t);
   (close_words, close_app_t);
   (search_words, search_web_t)].

Fixpoint first_match (rules : list (list string * tool)) (text_lower : string)
  : tool :=
  match rules with
  | [] => general_chat_t
  | (words, t) :: rest =>
      if any_in words text_lower then t else first_match rest text_lower
  end.

(** The decision on a normalised text. *)
Definition wake_on (alnum : string -> bool) (text_lower : string) : bool :=
  if any_in wake_words text_lower then true
  else existsb (fun r => Re.search r text_lower) (fuzzy_patterns alnum).

(** What [query_ollama_smart] hands back for an outcome of the model
    process, and the store it leaves. *)
Definition reply_of (o : run_outcome) : string :=
  match o with
  | Completed stdout =>
      if accepted (strip stdout) then strip stdout else model_failed_reply
  | _ => model_failed_reply
  end.

Definition store_after (o : run_outcome) (st : store) : store :=
  match o with
  | Completed stdout =>
      if accepted (strip stdout) && looks_like_code (strip stdout)
      then {| last_generated_code := strip stdout;
              current_lang := current_lang st;
              consecutive_failures := consecutive_failures st |}
      else st
  | _ => st
  end.

(** The model invocation failed: no output in time, an error, or output
    that does not pass the acceptance test. *)
Definition invocation_failed (o : run_outcome) : bool :=
  match o with
  | Completed stdout => negb (accepted (strip stdout))
  | _ => true
  end.

(** The call [query_ollama_smart] makes for a prompt. *)
Definition model_run (w : world) (prompt query : string)
           (task_type : option string) : run_outcome :=
  let m := select_model_for_task w (if is_empty query then prompt else query)
                                 task_type in
  ollama_run w m prompt (get_timeout_for_model m).

(** The call [get_ai_intent] makes for a text. *)
Definition intent_run (w : world) (text : string) : run_outcome :=
  model_run w (intent_prompt text) text (Some "fast").

(** [response\[start:end\]], from the first opening brace to the last
    closing one. *)
Definition brace_slice (response : string) : string :=
  slice (find_char "{" response) (rfind_char "}" response + 1)%Z response.

Definition has_braces (response : string) : bool :=
  negb (find_char "{" response =? -1)%Z
  && negb (rfind_char "}" response + 1 =? 0)%Z.

Definition intent_of_reply (text response : string) : value :=
  if has_braces response then
    match Json.loads (brace_slice response) with
    | Some parsed => parsed
    | None => handle_fallback text
    end
  else handle_fallback text.

(** ** The dispatcher *)

(** Which handler [execute_command] calls for an intent, and on which
    arguments; [NoCall] when an exception stops it before any call. *)
Inductive dispatch : Type :=
| Calls (t : tool) (args : list value)
| NoCall.

Definition not_sure : list value := [VStr "I'm not sure what you mean"].

Definition dispatch_of (intent : value) (lang : string) : dispatch :=
  match intent with
  | VDict d =>
      let parameters :=
        match dict_get "parameters" d with
        | Some p => p
        | None => VDict []
        end in
      match dict_get "tool" d with
      | Some (VStr n) =>
          match tool_of_name n with
          | Some t =>
              match parameters with
              | VDict ps =>
                  match bind_args t (dict_set "lang" (VStr lang) ps) with
                  | Some args => Calls t args
                  | None => NoCall
                  end
              | _ => NoCall
              end
          | None => Calls general_chat_t not_sure
          end
      | Some (VList _) => NoCall
      | Some (VDict _) => NoCall
      | _ => Calls general_chat_t not_sure
      end
  | _ => NoCall
  end.

(** The tool of the intent is a key of the registry. *)
Definition tool_known (intent : value) : bool :=
  match intent_tool intent with
  | Some n => match tool_of_name n with Some _ => true | None => false end
  | None => false
  end.

Definition is_dict (v : value) : bool :=
  match v with VDict _ => true | _ => false end.

(** The value under the tool key is a list or a dictionary, which
    cannot be looked up in the registry. *)
Definition tool_unhashable (intent : value) : bool :=
  match intent with
  | VDict d =>
      match dict_get "tool" d with
      | Some (VList _) => true
      | Some (VDict _) => true
      | _ => false
      end
  | _ => false
  end.

(** The parameters of the intent can be passed to the handler of [t] as
    keyword arguments: they are a dictionary (an empty one when the key
    is missing), every required parameter is among its keys and it has
    no other key, [lang] apart. *)
Definition parameters_bind (t : tool) (intent : value) : bool :=
  match intent with
  | VDict d =>
      match dict_get "parameters" d with
      | Some (VDict ps) =>
          forallb (fun k => mem k (required t) || String.eqb k "lang")
                  (dict_keys ps)
          && forallb (fun k => dict_has k ps) (required t)
      | Some _ => false
      | None => forallb (fun k => dict_has k []) (required t)
      end
  | _ => false
  end.

(** ** The listening loop *)

(** The number of characters of a text that are not white space. *)
Fixpoint non_space_count (s : string) : nat :=
  match s with
  | EmptyString => 0
  | String c r =>
      (if isspace c || is_cont c then 0 else 1) + non_space_count r
  end.

Definition with_lang (st : store) (l : string) : store :=
  {| last_generated_code := last_generated_code st;
     current_lang := l;
     consecutive_failures := consecutive_failures st |}.

(** What a turn does after a wake word, written out: the events up to
    the second capture, then the three ways the turn can end. *)
Definition wake_prefix (text_clean lang : string) : list event :=
  [Emit "status_update" "Listening for wake word or command...";
   Listen 3 6;
   Emit "log_message" ("Wake word: " ++ text_clean);
   Emit "status_update" "🎯 Wake word detected! Listening for command...";
   Speak (if String.eqb lang "ta" then "Sollunga, enna help venum?"
          else "Yes, how can I help?") lang;
   Listen 8 10].

Definition listener_error (w : world) (e : exn) : list event :=
  [Emit "status_update" ("Listener error: " ++ exn_text w e); Sleep 10].

Definition wake_turn (w : world) (handle : string -> string -> M unit)
           (text detected_lang : string) (second : capture) (st : store)
  : list event * store * result unit :=
  let lang := if starts_ta detected_lang then "ta" else "en" in
  let st0 := {| last_generated_code := last_generated_code st;
                current_lang := lang;
                consecutive_failures := 0 |} in
  let prefix := wake_prefix (strip text) lang in
  match second with
  | None => ((prefix ++ listener_error w TypeError)%list, st0, Ok tt)
  | Some (command_text, cmd_lang) =>
      if (2 <? len (strip command_text))%nat then
        let st1 := if starts_ta cmd_lang then with_lang st0 "ta" else st0 in
        match handle command_text (current_lang st1) st1 with
        | (ev, st2, Ok _) => ((prefix ++ ev ++ [Sleep 2])%list, st2, Ok tt)
        | (ev, st2, Raised e) =>
            ((prefix ++ ev ++ listener_error w e)%list, st2, Ok tt)
        end
      else
        ((prefix ++ [Speak (if String.eqb lang "ta" then "Command kekkala"
                            else "I didn't hear a command") lang;
                     Sleep 2])%list, st0, Ok tt)
  end.

(** ** Vocabulary of the further properties *)

(** The text has a character that is not white space. *)
Fixpoint has_nonspace (s : string) : bool :=
  match s with
  | EmptyString => false
  | String c r => negb (isspace c) || has_nonspace r
  end.

Definition is_speak (e : event) : bool :=
  match e with
  | Speak _ _ => true
  | _ => false
  end.

(** The spoken messages among some events. *)
Definition spoken (ev : list event) : list event := filter is_speak ev.

(** The events a launch can cause. *)
Definition is_launch_event (e : event) : bool :=
  match e with
  | Popen _ _ => true
  | OsSystem _ => true
  | OpenUrl _ => true
  | _ => false
  end.

(** The session language is one of the two the assistant answers in. *)
Definition lang_ok (st : store) : Prop :=
  current_lang st = "en" \/ current_lang st = "ta".

(** The characters [quote_plus] lets through or produces. *)
Definition url_safe (c : ascii) : bool :=
  Re.is_word c || Ascii.eqb c "." || Ascii.eqb c "-" || Ascii.eqb c "~"
  || Ascii.eqb c "+" || Ascii.eqb c "%".

Fixpoint all_chars (p : ascii -> bool) (s : string) : bool :=
  match s with
  | EmptyString => true
  | String c r => p c && all_chars p r
  end.

(** The words one of which every wake-up contains. *)
Definition wake_tokens : list string :=
  ["pluto"; "ghost"; "bluto"; "puto"; "gost"; "goast"].

(** The words one of which every direct command contains. *)
Definition command_tokens : list string :=
  ["open"; "close"; "search"; "thorakku"; "muddu"; "pannu"].

(** The computation neither reads nor writes the globals: its events and
    its result are the same from every store, which it hands back. *)
Definition oblivious {A} (m : M A) : Prop :=
  exists ev r, forall st, m st = (ev, st, r).

(** The computation leaves the session language and the failure counter
    as they were, however it ends. *)
Definition keeps_session {A} (m : M A) : Prop :=
  forall st ev st' r,
    m st = (ev, st', r) ->
    current_lang st' = current_lang st
    /\ consecutive_failures st' = consecutive_failures st.

(** The invariant of the session: a language the assistant answers in
    and a failure counter within the back-off threshold. *)
Definition session_ok (st : store) : Prop :=
  lang_ok st /\ (consecutive_failures st <= max_failures)%nat.

(** [is_str_value v]: the value is a string. *)
Definition is_str_value (v : value) : bool :=
  match v with
  | VStr _ => true
  | _ => false
  end.

(** [t] is what is left of [s] after some of its first characters. *)
Definition is_suffix (t s : string) : Prop := exists n, drop n s = t.

(** A pattern mentions the tokens [ts] when each of its matches has one
    of them, as written, somewhere at or after its start. *)
Definition mentions (ts : list string) (r : Re.regex) : Prop :=
  forall p q, In q (Re.matches r p) ->
    exists t s', In t ts /\ is_suffix s' (snd p) /\ startswith t s' = true.

(** The store after a turn that heard something: the counter is reset
    and the language follows the capture. *)
Definition settled (st : store) (detected_lang : string) : store :=
  {| last_generated_code := last_generated_code st;
     current_lang := if starts_ta detected_lang then "ta" else "en";
     consecutive_failures := 0 |}.

Definition listening : list event :=
  [Emit "status_update" "Listening for wake word or command..."; Listen 3 6].

(** * Properties *)

(** ** Running a computation step by step *)

Lemma bind_ret {A B} (a : A) (k : A -> M B) (st : store) :
  bind (ret a) k st = k a st.
Proof. unfold bind, ret. now destruct (k a st) as [[ev st'] r]. Qed.

Lemma bind_tell {B} (e : event) (k : unit -> M B) (st : store) :
  bind (tell e) k st
  = match k tt st with (ev, st', r) => (e :: ev, st', r) end.
Proof. unfold bind, tell. now destruct (k tt st) as [[ev st'] r]. Qed.

Lemma bind_get_store {B} (k : store -> M B) (st : store) :
  bind get_store k st = k st st.
Proof. unfold bind, get_store. now destruct (k st st) as [[ev st'] r]. Qed.

Lemma bind_put_store {B} (s : store) (k : unit -> M B) (st : store) :
  bind (put_store s) k st = k tt s.
Proof. unfold bind, put_store. now destruct (k tt s) as [[ev st'] r]. Qed.

Lemma bind_raise {A B} (e : exn) (k : A -> M B) (st : store) :
  bind (@raise A e) k st = ([], st, Raised e).
Proof. reflexivity. Qed.

Lemma bind_bind {A B C} (m : M A) (k : A -> M B) (h : B -> M C) (st : store) :
  bind (bind m k) h st = bind m (fun a => bind (k a) h) st.
Proof.
  unfold bind. destruct (m st) as [[ev st'] [a|e]]; [|reflexivity].
  destruct (k a st') as [[ev1 st1] [b|e]]; [|reflexivity].
  destruct (h b st1) as [[ev2 st2] r]. now rewrite app_assoc.
Qed.

Lemma bind_set_current_lang {B} (l : string) (k : unit -> M B) (st : store) :
  bind (set_current_lang l) k st
  = k tt {| last_generated_code := last_generated_code st;
            current_lang := l;
            consecutive_failures := consecutive_failures st |}.
Proof.
  unfold set_current_lang. now rewrite bind_bind, bind_get_store, bind_put_store.
Qed.

Lemma bind_set_consecutive_failures {B} (n : nat) (k : unit -> M B)
      (st : store) :
  bind (set_consecutive_failures n) k st
  = k tt {| last_generated_code := last_generated_code st;
            current_lang := current_lang st;
            consecutive_failures := n |}.
Proof.
  unfold set_consecutive_failures.
  now rewrite bind_bind, bind_get_store, bind_put_store.
Qed.

(** One step of a computation that starts with a primitive. *)
Ltac mstep :=
  first [ rewrite bind_bind
        | rewrite bind_ret
        | rewrite bind_tell
        | rewrite bind_get_store
        | rewrite bind_put_store
        | rewrite bind_raise
        | rewrite bind_set_current_lang
        | rewrite bind_set_consecutive_failures ];
  cbv beta.

(** ** The fallback classifier *)

(** Case analysis on the rule that fires. *)
Ltac by_fallback_rule text :=
  destruct (any_in media_words (lower text)); [reflexivity|];
  destruct (any_in clipboard_words (lower text)); [reflexivity|];
  destruct (any_in system_words (lower text)); [reflexivity|];
  destruct (any_in open_words (lower text)); [reflexivity|];
  destruct (any_in close_words (lower text)); [reflexivity|];
  destruct (any_in search_words (lower text)); reflexivity.

Lemma handle_fallback_tool (text : string) :
  intent_tool (handle_fallback text)
  = Some (tool_name (first_match fallback_rules (lower text))).
Proof.
  unfold handle_fallback, fallback_rules. cbv zeta. cbn [first_match].
  by_fallback_rule text.
Qed.

Lemma handle_fallback_valid (text : string) :
  structurally_valid (handle_fallback text) = true.
Proof.
  unfold handle_fallback. cbv zeta.
  by_fallback_rule text.
Qed.

(** C6.  The fallback classifier decides the tool by the first matching
    rule of the priority list media, clipboard, system control, open,
    close, search, with general chat as the default; so a text with a
    media keyword and a system-control keyword is [play_media], as
    "play shutdown song" is. *)
Theorem fallback_priority_order :
  (forall text,
      intent_tool (handle_fallback text)
      = Some (tool_name (first_match fallback_rules (lower text))))
  /\ (forall text,
         any_in media_words (lower text) = true ->
         any_in system_words (lower text) = true ->
         intent_tool (handle_fallback text) = Some "play_media")
  /\ any_in system_words (lower "play shutdown song") = true
  /\ handle_fallback "play shutdown song"
     = mk_intent play_media_t
         [("query", VStr "shutdown sg"); ("platform", VStr "youtube")].
Proof.
  split; [exact handle_fallback_tool|].
  split.
  - intros text Hmedia _.
    rewrite handle_fallback_tool. unfold fallback_rules. cbn [first_match].
    now rewrite Hmedia.
  - split; reflexivity.
Qed.

Lemma fallback_priority_order_witness :
  any_in media_words (lower "play shutdown song") = true
  /\ any_in system_words (lower "play shutdown song") = true
  /\ intent_tool (handle_fallback "play shutdown song") = Some "play_media".
Proof.
  split; [reflexivity|]. split; [reflexivity|].
  apply (proj1 (proj2 fallback_priority_order) "play shutdown song");
    reflexivity.
Defined.

(** C10.  The keyword tests are plain substring tests: every text whose
    lower-case form contains "play" anywhere, also inside another word,
    is classified [play_media], whatever other keywords it has;
    "open display settings" is, although it starts with an open verb. *)
Theorem fallback_play_inside_word :
  (forall text,
      contains "play" (lower text) = true ->
      intent_tool (handle_fallback text) = Some "play_media")
  /\ any_in open_words (lower "open display settings") = true
  /\ handle_fallback "open display settings"
     = mk_intent play_media_t
         [("query", VStr "open dis settgs"); ("platform", VStr "youtube")].
Proof.
  split.
  - intros text H.
    rewrite handle_fallback_tool.
    unfold fallback_rules, first_match, media_words, any_in.
    cbn [existsb]. rewrite H. reflexivity.
  - split; reflexivity.
Qed.

Lemma fallback_play_inside_word_witness :
  contains "play" (lower "open display settings") = true
  /\ intent_tool (handle_fallback "open display settings")
     = Some "play_media".
Proof.
  split; [reflexivity|].
  apply (proj1 fallback_play_inside_word "open display settings").
  reflexivity.
Defined.

(** ** Wake detection *)

Lemma isspace_lower_char (c : ascii) : isspace (lower_char c) = isspace c.
Proof. destruct c as [[] [] [] [] [] [] [] []]; reflexivity. Qed.

Lemma lower_char_idem (c : ascii) : lower_char (lower_char c) = lower_char c.
Proof. destruct c as [[] [] [] [] [] [] [] []]; reflexivity. Qed.

Lemma lower_idem (s : string) : lower (lower s) = lower s.
Proof.
  induction s as [|c r IH]; simpl; [reflexivity|].
  now rewrite lower_char_idem, IH.
Qed.

Lemma lstrip_lower (s : string) : lstrip (lower s) = lower (lstrip s).
Proof.
  induction s as [|c r IH]; simpl; [reflexivity|].
  rewrite isspace_lower_char. destruct (isspace c); [exact IH|reflexivity].
Qed.

Lemma rstrip_lower (s : string) : rstrip (lower s) = lower (rstrip s).
Proof.
  induction s as [|c r IH]; simpl; [reflexivity|].
  rewrite IH, isspace_lower_char.
  destruct (rstrip r) as [|d r']; simpl; [|reflexivity].
  destruct (isspace c); reflexivity.
Qed.

Lemma strip_lower (s : string) : strip (lower s) = lower (strip s).
Proof. unfold strip. now rewrite lstrip_lower, rstrip_lower. Qed.

Lemma rstrip_idem (s : string) : rstrip (rstrip s) = rstrip s.
Proof.
  induction s as [|c r IH]; simpl; [reflexivity|].
  destruct (rstrip r) as [|d r'] eqn:E.
  - destruct (isspace c) eqn:Ec; simpl; [reflexivity|]. now rewrite Ec.
  - simpl in *. now rewrite IH.
Qed.

(** A text without a leading blank keeps its first character. *)
Lemma lstrip_rstrip (s : string) : lstrip (rstrip (lstrip s)) = rstrip (lstrip s).
Proof.
  induction s as [|c r IH]; simpl; [reflexivity|].
  destruct (isspace c) eqn:Ec; [exact IH|].
  simpl. destruct (rstrip r) as [|d r']; [rewrite Ec|]; simpl; now rewrite Ec.
Qed.

Lemma strip_idem (s : string) : strip (strip s) = strip s.
Proof. unfold strip. now rewrite lstrip_rstrip, rstrip_idem. Qed.

(** [len] counts characters, not bytes. *)
Lemma len_le_bytes (s : string) : len s <= String.length s.
Proof.
  induction s as [|c r IH]; simpl; [lia|]. destruct (is_cont c); lia.
Qed.

Lemma len_of_sample_texts :
  len "5°" = 2 /\ len "é" = 1 /\ len "வணக்கம்" = 7
  /\ String.length "வணக்கம்" = 21.
Proof. repeat split; reflexivity. Qed.

Lemma detect_wake_word_normal alnum (text : string) :
  detect_wake_word alnum text = wake_on alnum (strip (lower text)).
Proof.
  unfold detect_wake_word, wake_on.
  destruct text; reflexivity.
Qed.

Lemma any_in_member (t : string) (ts : list string) (s : string) :
  In t ts -> contains t s = true -> any_in ts s = true.
Proof. intros Hin Hc. apply existsb_exists. now exists t. Qed.

(** C7, as the code has it.  Wake detection depends on its input only up
    to case and surrounding white space: lowering or trimming a text, or
    replacing it by any text with the same trimmed lower-case form, does
    not change the answer.  It is true on "  PLUTO  ", "pluto" and
    "Pluto anna" and false on "platoon".  But a wake phrase is looked for
    as a plain substring, without any boundary: every text that is not
    empty and has a wake phrase anywhere in its trimmed lower-case form
    wakes the assistant. *)
Theorem wake_detection_case_whitespace :
  (forall alnum a b,
      strip (lower a) = strip (lower b) ->
      detect_wake_word alnum a = detect_wake_word alnum b)
  /\ (forall alnum text,
         detect_wake_word alnum (lower text) = detect_wake_word alnum text)
  /\ (forall alnum text,
         detect_wake_word alnum (strip text) = detect_wake_word alnum text)
  /\ (forall alnum,
         detect_wake_word alnum "  PLUTO  " = true
         /\ detect_wake_word alnum "pluto" = true
         /\ detect_wake_word alnum "Pluto anna" = true
         /\ detect_wake_word alnum "platoon" = false)
  /\ (forall alnum text phrase,
         is_empty text = false ->
         In phrase wake_words ->
         contains phrase (strip (lower text)) = true ->
         detect_wake_word alnum text = true).
Proof.
  split; [|split; [|split; [|split]]].
  - intros alnum a b H. now rewrite !detect_wake_word_normal, H.
  - intros alnum text. now rewrite !detect_wake_word_normal, lower_idem.
  - intros alnum text.
    now rewrite !detect_wake_word_normal, strip_lower, strip_idem, strip_lower.
  - intros alnum. repeat split; reflexivity.
  - intros alnum text phrase Hne Hin Hc.
    unfold detect_wake_word. rewrite Hne. cbv zeta.
    now rewrite (any_in_member phrase wake_words _ Hin Hc).
Qed.

Lemma wake_detection_case_whitespace_witness :
  strip (lower "  PLUTO  ") = strip (lower "pluto")
  /\ detect_wake_word latin1_letter "  PLUTO  "
     = detect_wake_word latin1_letter "pluto".
Proof.
  split; [reflexivity|].
  apply (proj1 wake_detection_case_whitespace latin1_letter
               "  PLUTO  " "pluto").
  reflexivity.
Defined.

(** C7 as stated fails: "plutonium", "GHOSTLY" and "ghostwriter" are not
    wake words, no boundary is checked, and they wake the assistant. *)
Lemma wake_phrase_inside_a_word :
  detect_wake_word latin1_letter "plutonium" = true
  /\ detect_wake_word latin1_letter "GHOSTLY" = true
  /\ detect_wake_word latin1_letter "call the ghostwriter" = true
  /\ contains "pluto" "plutonium" = true
  /\ detect_wake_word latin1_letter "platoon" = false.
Proof. repeat split; vm_compute; reflexivity. Qed.

(** ** The intent classifier *)

Lemma query_ollama_smart_run w prompt query task_type st :
  query_ollama_smart w prompt query task_type st
  = ([], store_after (model_run w prompt query task_type) st,
     Ok (reply_of (model_run w prompt query task_type))).
Proof.
  unfold query_ollama_smart, model_run, try_except, bind, run_model,
    reply_of, store_after.
  destruct (ollama_run w _ prompt _) as [stdout| |]; try reflexivity.
  unfold ret. destruct (accepted (strip stdout)); [|reflexivity].
  destruct (looks_like_code (strip stdout)); [|reflexivity].
  destruct st; reflexivity.
Qed.

Lemma get_ai_intent_run w text st :
  get_ai_intent w text st
  = ([], store_after (intent_run w text) st,
     Ok (intent_of_reply text (reply_of (intent_run w text)))).
Proof.
  unfold get_ai_intent, try_except, bind.
  rewrite query_ollama_smart_run. fold (intent_run w text).
  unfold intent_of_reply, has_braces, brace_slice, json_loads.
  set (response := reply_of (intent_run w text)).
  destruct (negb (find_char "{" response =? -1)%Z
            && negb (rfind_char "}" response + 1 =? 0)%Z); [|reflexivity].
  destruct (Json.loads _); reflexivity.
Qed.

Lemma failed_reply_intent (text : string) :
  intent_of_reply text model_failed_reply
  = mk_intent general_chat_t [("query", VStr "AI model failed.")].
Proof.
  unfold intent_of_reply.
  replace (has_braces model_failed_reply) with true by (vm_compute; reflexivity).
  replace (Json.loads (brace_slice model_failed_reply))
    with (Some (mk_intent general_chat_t [("query", VStr "AI model failed.")]))
    by (vm_compute; reflexivity).
  reflexivity.
Qed.

Lemma reply_of_failed (o : run_outcome) :
  invocation_failed o = true -> reply_of o = model_failed_reply.
Proof.
  destruct o as [stdout| |]; simpl; try reflexivity.
  destruct (accepted (strip stdout)); [discriminate|reflexivity].
Qed.

Lemma store_after_failed (o : run_outcome) (st : store) :
  invocation_failed o = true -> store_after o st = st.
Proof.
  destruct o as [stdout| |]; simpl; try reflexivity.
  destruct (accepted (strip stdout)); [discriminate|reflexivity].
Qed.

(** C1, as the code has it.  When the model invocation fails (time-out,
    error, or a reply that is empty, too short or carries "Error:"),
    [get_ai_intent] returns the intent general_chat with the query
    "AI model failed." for every text: the failure reply of
    [query_ollama_smart] is itself a JSON intent and is decoded like a
    model answer.  The fallback classifier decides only when an accepted
    reply has no brace pair or does not decode; on "open chrome" it gives
    open_app with app_name "chrome". *)
Theorem failed_model_gives_general_chat :
  (forall w text st,
      invocation_failed (intent_run w text) = true ->
      get_ai_intent w text st
      = ([], st,
         Ok (mk_intent general_chat_t [("query", VStr "AI model failed.")])))
  /\ (forall w text st stdout,
         intent_run w text = Completed stdout ->
         accepted (strip stdout) = true ->
         has_braces (strip stdout) = false
         \/ Json.loads (brace_slice (strip stdout)) = None ->
         result_of (get_ai_intent w text st) = Ok (handle_fallback text))
  /\ handle_fallback "open chrome"
     = mk_intent open_app_t [("app_name", VStr "chrome")].
Proof.
  split; [|split].
  - intros w text st H.
    rewrite get_ai_intent_run, (reply_of_failed _ H), (store_after_failed _ st H).
    now rewrite failed_reply_intent.
  - intros w text st stdout Hrun Hacc Hno.
    rewrite get_ai_intent_run, Hrun. unfold result_of, snd, reply_of.
    rewrite Hacc. unfold intent_of_reply.
    destruct Hno as [Hb|Hj]; [now rewrite Hb|].
    rewrite Hj. now destruct (has_braces (strip stdout)).
  - reflexivity.
Qed.

Lemma failed_model_gives_general_chat_witness :
  invocation_failed (intent_run bare_world "open chrome") = true
  /\ get_ai_intent bare_world "open chrome" fresh
     = ([], fresh,
        Ok (mk_intent general_chat_t [("query", VStr "AI model failed.")])).
Proof.
  split; [reflexivity|].
  apply (proj1 failed_model_gives_general_chat bare_world "open chrome" fresh).
  reflexivity.
Defined.

(** C1 as stated fails: with no model available, "open chrome" is not
    classified by the fallback rules. *)
Lemma failed_model_skips_fallback :
  invocation_failed (intent_run bare_world "open chrome") = true
  /\ result_of (get_ai_intent bare_world "open chrome" fresh)
     = Ok (mk_intent general_chat_t [("query", VStr "AI model failed.")])
  /\ handle_fallback "open chrome"
     = mk_intent open_app_t [("app_name", VStr "chrome")]
  /\ result_of (get_ai_intent bare_world "open chrome" fresh)
     <> Ok (handle_fallback "open chrome").
Proof.
  split; [reflexivity|]. split; [vm_compute; reflexivity|].
  split; [reflexivity|]. vm_compute. discriminate.
Qed.

(** C2, as the code has it.  [get_ai_intent] always returns, for every
    text and every behaviour of the model, and causes no event.  Its
    result is structurally valid (tool among the seven, required
    parameters present) unless it is the decoded JSON of an accepted
    model reply, which is returned as decoded, without any check. *)
Theorem get_ai_intent_total :
  forall w text st,
    exists v st',
      get_ai_intent w text st = ([], st', Ok v)
      /\ (structurally_valid v = true
          \/ exists stdout,
               intent_run w text = Completed stdout
               /\ accepted (strip stdout) = true
               /\ Json.loads (brace_slice (strip stdout)) = Some v).
Proof.
  intros w text st.
  exists (intent_of_reply text (reply_of (intent_run w text))),
         (store_after (intent_run w text) st).
  split; [apply get_ai_intent_run|].
  destruct (invocation_failed (intent_run w text)) eqn:F.
  - left. rewrite (reply_of_failed _ F), failed_reply_intent. reflexivity.
  - destruct (intent_run w text) as [stdout| |]; try discriminate.
    simpl in F. apply negb_false_iff in F.
    unfold reply_of. rewrite F. unfold intent_of_reply.
    destruct (has_braces (strip stdout));
      [|left; apply handle_fallback_valid].
    destruct (Json.loads (brace_slice (strip stdout))) as [v|] eqn:J;
      [|left; apply handle_fallback_valid].
    right. exists stdout. auto.
Qed.

(** C2 as stated fails: a model that answers with a JSON object naming
    an unknown tool gets that object back as the intent. *)
Lemma model_reply_not_validated :
  result_of (get_ai_intent (answering (unq "{`tool`: `fly`}")) "open chrome"
                           fresh)
  = Ok (VDict [("tool", VStr "fly")])
  /\ structurally_valid (VDict [("tool", VStr "fly")]) = false.
Proof. split; vm_compute; reflexivity. Qed.

(** ** The dispatcher *)

Lemma speak_apology (lang : string) (st : store) :
  speak (generic_apology lang) lang st
  = ([Speak (generic_apology lang) lang], st, Ok tt).
Proof.
  unfold generic_apology, pick. destruct (String.eqb lang "ta"); reflexivity.
Qed.

Lemma execute_command_dispatch tools intent lang st :
  execute_command tools intent lang st
  = match dispatch_of intent lang with
    | Calls t args =>
        try_except (tools t args lang)
                   (fun _ => speak (generic_apology lang) lang) st
    | NoCall => ([Speak (generic_apology lang) lang], st, Ok tt)
    end.
Proof.
  unfold execute_command, dispatch_of.
  destruct intent as [| | | | |d];
    try (unfold try_except, bind, raise; now rewrite speak_apology).
  unfold try_except at 1. unfold bind at 1. unfold ret at 1.
  cbv iota beta. unfold tools_lookup.
  destruct (dict_get "tool" d) as [[| | |n| |]|];
    try (unfold bind, raise; cbv iota beta; now rewrite speak_apology);
    try (unfold try_except, bind, ret; cbv iota beta;
         now destruct (tools general_chat_t _ lang st) as [[ev st'] [[]|e]]).
  unfold bind at 1. unfold ret at 1. cbv iota beta.
  destruct (tool_of_name n) as [t|].
  - destruct (match dict_get "parameters" d with
              | Some p => p
              | None => VDict []
              end) as [| | | | |ps];
      try (unfold bind, raise; cbv iota beta; now rewrite speak_apology).
    unfold bind, ret, call_tool. cbv iota beta.
    destruct (bind_args t (dict_set "lang" (VStr lang) ps)) as [args|].
    + unfold try_except.
      now destruct (tools t args lang st) as [[ev st'] [[]|e]].
    + unfold raise. now rewrite speak_apology.
  - unfold try_except.
    now destruct (tools general_chat_t _ lang st) as [[ev st'] [[]|e]].
Qed.

Lemma execute_command_returns tools intent lang st :
  result_of (execute_command tools intent lang st) = Ok tt.
Proof.
  rewrite execute_command_dispatch.
  destruct (dispatch_of intent lang) as [t args|]; [|reflexivity].
  unfold try_except.
  destruct (tools t args lang st) as [[ev st'] [[]|e]]; [reflexivity|].
  now rewrite speak_apology.
Qed.

(** C5.  Whatever the handlers do, [execute_command] returns normally.
    When the handler it calls raises, the events are those the handler
    caused before raising followed by exactly one generic apology,
    spoken in the language passed in. *)
Theorem execute_command_never_raises :
  (forall tools intent lang st,
      result_of (execute_command tools intent lang st) = Ok tt)
  /\ (forall tools intent lang st t args ev st' e,
         dispatch_of intent lang = Calls t args ->
         tools t args lang st = (ev, st', Raised e) ->
         execute_command tools intent lang st
         = ((ev ++ [Speak (generic_apology lang) lang])%list, st', Ok tt))
  /\ generic_apology "en" = "Sorry, I had an error processing that"
  /\ generic_apology "ta" = "Error aachu, mannichanga".
Proof.
  split; [exact execute_command_returns|]. split; [|split; reflexivity].
  intros tools intent lang st t args ev st' e Hd Hr.
  rewrite execute_command_dispatch, Hd. unfold try_except.
  now rewrite Hr, speak_apology.
Qed.

Lemma execute_command_never_raises_witness :
  dispatch_of (mk_intent general_chat_t [("query", VNum "5")]) "ta"
  = Calls general_chat_t [VNum "5"]
  /\ TOOLS bare_world general_chat_t [VNum "5"] "ta" fresh
     = ([], fresh, Raised AttributeError)
  /\ execute_command (TOOLS bare_world)
       (mk_intent general_chat_t [("query", VNum "5")]) "ta" fresh
     = ([Speak "Error aachu, mannichanga" "ta"], fresh, Ok tt).
Proof.
  split; [reflexivity|]. split; [reflexivity|].
  apply (proj1 (proj2 execute_command_never_raises)
           (TOOLS bare_world) (mk_intent general_chat_t [("query", VNum "5")])
           "ta" fresh general_chat_t [VNum "5"] [] fresh AttributeError);
    reflexivity.
Defined.

(** ** What reaches a handler *)

Lemma dict_get_set_other k k' v (d : dict) :
  String.eqb k k' = false -> dict_get k (dict_set k' v d) = dict_get k d.
Proof.
  intros Hk. induction d as [|[k0 v0] r IH]; simpl.
  - now rewrite Hk.
  - destruct (String.eqb k' k0) eqn:E0; simpl.
    + apply String.eqb_eq in E0. subst k0. now rewrite Hk.
    + now rewrite IH.
Qed.

Lemma required_not_lang (t : tool) :
  forallb (fun k => negb (String.eqb k "lang")) (required t) = true.
Proof. destruct t; reflexivity. Qed.

Lemma tool_of_name_inv (n : string) (t : tool) :
  tool_of_name n = Some t -> n = tool_name t.
Proof.
  unfold tool_of_name. intros H.
  apply find_some in H. destruct H as [_ H]. now apply String.eqb_eq.
Qed.

Lemma bound_required_present t lang ps args :
  bind_args t (dict_set "lang" (VStr lang) ps) = Some args ->
  forallb (fun k => dict_has k ps) (required t) = true.
Proof.
  unfold bind_args.
  destruct (forallb _ (dict_keys _)); [|discriminate]. simpl.
  destruct (forallb (fun k => dict_has k (dict_set "lang" (VStr lang) ps))
                    (required t)) eqn:E; [|discriminate].
  intros _. pose proof (required_not_lang t) as Hl.
  rewrite forallb_forall in *.
  intros k Hk. specialize (E k Hk). specialize (Hl k Hk).
  apply negb_true_iff in Hl.
  unfold dict_has in *. now rewrite dict_get_set_other in E.
Qed.

Lemma dispatch_calls_inv intent lang t args :
  dispatch_of intent lang = Calls t args ->
  (intent_tool intent = Some (tool_name t)
   /\ structurally_valid intent = true)
  \/ (tool_known intent = false /\ t = general_chat_t /\ args = not_sure).
Proof.
  unfold dispatch_of, structurally_valid, tool_known, intent_tool,
    intent_parameters.
  destruct intent as [| | | | |d]; try discriminate.
  destruct (dict_get "tool" d) as [[| | |n| |]|]; try discriminate;
    try (intros H; injection H as <- <-; right; auto).
  destruct (tool_of_name n) as [t0|] eqn:Ht.
  - destruct (dict_get "parameters" d) as [[| | | | |ps]|]; try discriminate.
    + destruct (bind_args t0 _) as [a|] eqn:Hb; [|discriminate].
      intros H. injection H as <- <-. left.
      split; [now rewrite (tool_of_name_inv _ Ht)|].
      exact (bound_required_present _ _ _ Hb).
    + destruct t0; discriminate.
  - intros H; injection H as <- <-; right; auto.
Qed.

Lemma tool_of_name_name (t : tool) : tool_of_name (tool_name t) = Some t.
Proof. destruct t; reflexivity. Qed.

Lemma dict_keys_set_lang (p : string -> bool) v (ps : dict) :
  p "lang" = true ->
  forallb p (dict_keys (dict_set "lang" v ps)) = forallb p (dict_keys ps).
Proof.
  intros Hp. unfold dict_keys. induction ps as [|[k0 v0] r IH].
  - cbn [dict_set map fst forallb]. now rewrite Hp.
  - cbn [dict_set]. destruct (String.eqb "lang" k0) eqn:E.
    + apply String.eqb_eq in E. subst k0. reflexivity.
    + cbn [map fst forallb]. now rewrite IH.
Qed.

Lemma required_has_set_lang (t : tool) v (ps : dict) :
  forallb (fun k => dict_has k (dict_set "lang" v ps)) (required t)
  = forallb (fun k => dict_has k ps) (required t).
Proof.
  pose proof (required_not_lang t) as Hl. rewrite forallb_forall in Hl.
  assert (H : forall k, In k (required t) ->
                dict_has k (dict_set "lang" v ps) = dict_has k ps).
  { intros k Hk. specialize (Hl k Hk). apply negb_true_iff in Hl.
    unfold dict_has. now rewrite dict_get_set_other. }
  induction (required t) as [|k r IH]; [reflexivity|].
  simpl. rewrite H by (now left). rewrite IH; [reflexivity| |].
  - intros k' Hk'. apply Hl. now right.
  - intros k' Hk'. apply H. now right.
Qed.

Lemma dispatch_of_known_tool intent lang t :
  intent_tool intent = Some (tool_name t) ->
  if parameters_bind t intent
  then exists args, dispatch_of intent lang = Calls t args
  else dispatch_of intent lang = NoCall.
Proof.
  unfold intent_tool, parameters_bind, dispatch_of.
  destruct intent as [| | | | |d]; try discriminate.
  destruct (dict_get "tool" d) as [[| | |n| |]|]; try discriminate.
  intros H. injection H as ->. rewrite tool_of_name_name.
  destruct (dict_get "parameters" d) as [[| | | | |ps]|];
    try reflexivity.
  - unfold bind_args.
    rewrite dict_keys_set_lang by apply orb_true_r.
    rewrite required_has_set_lang.
    destruct (_ && _); [eexists; reflexivity | reflexivity].
  - unfold bind_args. rewrite required_has_set_lang.
    destruct t; reflexivity.
Qed.

Lemma dispatch_of_unknown_tool intent lang :
  is_dict intent = true ->
  tool_known intent = false ->
  dispatch_of intent lang
  = if tool_unhashable intent then NoCall else Calls general_chat_t not_sure.
Proof.
  unfold is_dict, tool_known, intent_tool, tool_unhashable, dispatch_of.
  destruct intent as [| | | | |d]; try discriminate. intros _.
  destruct (dict_get "tool" d) as [[| | |n| |]|]; try reflexivity.
  destruct (tool_of_name n); [discriminate|reflexivity].
Qed.

(** C3, as the code has it.  The dispatcher checks the shape of an
    intent, not the content of its parameters.  Every call of a handler
    is either for an intent whose tool is in the registry and whose
    required parameters are all present (empty or not), or the call of
    general_chat on "I'm not sure what you mean" for an intent whose tool
    is not in the registry.  Conversely, a dictionary whose tool is not
    in the registry goes to general_chat in that way unless the tool is
    a list or a dictionary; then, as for an intent that is not a
    dictionary, no handler is reached and the generic apology is spoken.
    An intent with a tool of the registry reaches that handler exactly
    when its parameters bind to it (all required ones present, no
    unexpected one); otherwise no handler is reached and the generic
    apology is spoken.  "Sorry, I didn't understand that command" is the
    answer of [handle_command] to a classification without a tool key. *)
Theorem dispatch_checks_shape_only :
  (forall tools intent lang st,
      execute_command tools intent lang st
      = match dispatch_of intent lang with
        | Calls t args =>
            try_except (tools t args lang)
                       (fun _ => speak (generic_apology lang) lang) st
        | NoCall => ([Speak (generic_apology lang) lang], st, Ok tt)
        end)
  /\ (forall intent lang t args,
         dispatch_of intent lang = Calls t args ->
         (intent_tool intent = Some (tool_name t)
          /\ structurally_valid intent = true)
         \/ (tool_known intent = false
             /\ t = general_chat_t /\ args = not_sure))
  /\ (forall w text lang st st' intent,
         lang = "en" \/ lang = "ta" ->
         (2 <=? len (strip text))%nat = true ->
         get_ai_intent w (strip text) st = ([], st', Ok intent) ->
         has_tool intent = false ->
         handle_command w text lang st
         = ([Emit "log_message" (strip text);
             Emit "status_update" "🤖 Processing with AI...";
             Speak (if String.eqb lang "ta"
                    then "Command puriyala, marupadiyum sollunga"
                    else "Sorry, I didn't understand that command") lang],
            st', Ok tt))
  /\ (forall intent lang,
         is_dict intent = true ->
         tool_known intent = false ->
         dispatch_of intent lang
         = if tool_unhashable intent then NoCall
           else Calls general_chat_t not_sure)
  /\ (forall intent lang,
         is_dict intent = false -> dispatch_of intent lang = NoCall)
  /\ (forall intent lang t,
         intent_tool intent = Some (tool_name t) ->
         if parameters_bind t intent
         then exists args, dispatch_of intent lang = Calls t args
         else dispatch_of intent lang = NoCall).
Proof.
  split; [exact execute_command_dispatch|].
  split; [exact dispatch_calls_inv|].
  split; [|split; [exact dispatch_of_unknown_tool|split]].
  - intros w text lang st st' intent Hlang Hlen Hget Hno.
    unfold handle_command, try_except. cbv zeta.
    apply Nat.leb_le in Hlen.
    destruct (Nat.ltb_spec (len (strip text)) 2) as [Hlt|_]; [lia|].
    repeat mstep. unfold bind at 1. rewrite Hget. cbv iota beta. rewrite Hno.
    destruct Hlang as [-> | ->]; reflexivity.
  - intros intent lang H. destruct intent; try reflexivity. discriminate.
  - exact dispatch_of_known_tool.
Qed.

Lemma dispatch_checks_shape_only_witness :
  (dispatch_of (mk_intent open_app_t [("app_name", VStr "")]) "en"
   = Calls open_app_t [VStr ""]
   /\ ((intent_tool (mk_intent open_app_t [("app_name", VStr "")])
        = Some (tool_name open_app_t)
        /\ structurally_valid (mk_intent open_app_t [("app_name", VStr "")])
           = true)
       \/ (tool_known (mk_intent open_app_t [("app_name", VStr "")]) = false
           /\ open_app_t = general_chat_t /\ [VStr ""] = not_sure)))
  /\ handle_command (answering (unq "{`speech`: `open chrome`}"))
       " open chrome " "en" fresh
     = ([Emit "log_message" "open chrome";
         Emit "status_update" "🤖 Processing with AI...";
         Speak "Sorry, I didn't understand that command" "en"],
        fresh, Ok tt)
  /\ dispatch_of (VDict [("tool", VList [])]) "en" = NoCall
  /\ dispatch_of (VDict [("tool", VStr "fly")]) "en"
     = Calls general_chat_t not_sure.
Proof.
  split; [|split; [|split]].
  - split; [reflexivity|].
    apply (proj1 (proj2 dispatch_checks_shape_only)
             (mk_intent open_app_t [("app_name", VStr "")]) "en"
             open_app_t [VStr ""]).
    reflexivity.
  - apply (proj1 (proj2 (proj2 dispatch_checks_shape_only))
             (answering (unq "{`speech`: `open chrome`}")) " open chrome "
             "en" fresh fresh (VDict [("speech", VStr "open chrome")]));
      [left; reflexivity | vm_compute; reflexivity ..].
  - apply (proj1 (proj2 (proj2 (proj2 dispatch_checks_shape_only)))
             (VDict [("tool", VList [])]) "en"); reflexivity.
  - apply (proj1 (proj2 (proj2 (proj2 dispatch_checks_shape_only)))
             (VDict [("tool", VStr "fly")]) "en"); reflexivity.
Defined.

(** C3 as stated fails: the fallback classifier turns "open" into an
    open_app intent with an empty app_name; the intent is not valid, yet
    the handler runs on it and answers in its own words. *)
Lemma empty_parameter_is_dispatched :
  handle_fallback "open" = mk_intent open_app_t [("app_name", VStr "")]
  /\ valid_intent (mk_intent open_app_t [("app_name", VStr "")]) = false
  /\ dispatch_of (mk_intent open_app_t [("app_name", VStr "")]) "en"
     = Calls open_app_t [VStr ""]
  /\ execute_command (TOOLS bare_world)
       (mk_intent open_app_t [("app_name", VStr "")]) "en" fresh
     = TOOLS bare_world open_app_t [VStr ""] "en" fresh
  /\ execute_command (TOOLS bare_world)
       (mk_intent open_app_t [("app_name", VStr "")]) "en" fresh
     = ([Speak "I couldn't find " "en"], fresh, Ok tt).
Proof. repeat split; vm_compute; reflexivity. Qed.

(** ** Failure paths of the clipboard handler *)

(** C4 at the failing inputs.  With the action "paste" the handler says
    nothing when the target application is not found and nothing when it
    cannot be started; with "copy_paste" the same two failures are
    announced ("Couldn't find ...", "Couldn't open ..."). *)
Theorem paste_failures_are_silent :
  find_app bare_world "vscode" = None
  /\ clipboard_action bare_world (VStr "paste") (VStr "vscode") "en" fresh
     = ([], fresh, Ok tt)
  /\ handle_fallback "paste in vscode"
     = mk_intent clipboard_action_t
         [("action", VStr "paste"); ("target_app", VStr "vscode")]
  /\ execute_command (TOOLS bare_world) (handle_fallback "paste in vscode")
       "en" fresh
     = ([], fresh, Ok tt)
  /\ find_app no_launch "notepad" = Some "notepad.exe"
  /\ launch_app no_launch "notepad.exe" fresh = ([], fresh, Ok false)
  /\ clipboard_action no_launch (VStr "paste") (VStr "notepad") "en" fresh
     = ([], fresh, Ok tt)
  /\ clipboard_action bare_world (VStr "copy_paste") (VStr "vscode") "en"
       with_code
     = ([ClipboardCopy "def f(): pass";
         Speak "Code copied to clipboard" "en"; Sleep 10;
         Speak "Couldn't find vscode" "en"], with_code, Ok tt)
  /\ clipboard_action no_launch (VStr "copy_paste") (VStr "notepad") "en"
       with_code
     = ([ClipboardCopy "def f(): pass";
         Speak "Code copied to clipboard" "en"; Sleep 10;
         Speak "Couldn't open notepad" "en"], with_code, Ok tt).
Proof. repeat split; vm_compute; reflexivity. Qed.

(** ** The listening loop *)

Lemma strip_empty_length (c : string) :
  (2 <? len (strip c))%nat = true -> is_empty c = false.
Proof. destruct c; [discriminate|reflexivity]. Qed.

(** C8, as the code has it.  After the acknowledgement the second
    capture is dispatched exactly when its trimmed form is longer than
    two characters: then the entry point is called once, on the captured
    text and in the language of the session, which a Tamil capture
    switches to "ta".  Otherwise nothing is dispatched, whatever the
    entry point is, and "I didn't hear a command" is spoken. *)
Theorem follow_up_dispatches_by_trimmed_length :
  forall handle c cl st,
    current_lang st = "en" \/ current_lang st = "ta" ->
    ((2 <? len (strip c))%nat = true ->
     follow_up handle (Some (c, cl)) st
     = let st1 := if starts_ta cl then with_lang st "ta" else st in
       match handle c (current_lang st1) st1 with
       | (ev, st2, r) => (Listen 8 10 :: ev, st2, r)
       end)
    /\ ((2 <? len (strip c))%nat = false ->
        follow_up handle (Some (c, cl)) st
        = ([Listen 8 10;
            Speak (if String.eqb (current_lang st) "ta"
                   then "Command kekkala" else "I didn't hear a command")
                  (current_lang st)], st, Ok tt)).
Proof.
  intros handle c cl st Hlang. split; intros Hlen.
  - unfold follow_up, unpack. cbv zeta. repeat mstep. cbn [fst snd].
    rewrite Hlen, (strip_empty_length _ Hlen). cbn [negb andb].
    destruct (starts_ta cl); repeat mstep; cbv zeta.
    + reflexivity.
    + reflexivity.
  - unfold follow_up, unpack. cbv zeta. repeat mstep. cbn [fst snd].
    rewrite Hlen, andb_false_r. repeat mstep.
    destruct Hlang as [H|H]; rewrite H; reflexivity.
Qed.

Lemma follow_up_dispatches_by_trimmed_length_witness :
  (current_lang fresh = "en" \/ current_lang fresh = "ta")
  /\ (2 <? len (strip "  ok  "))%nat = false
  /\ follow_up (handle_command bare_world) (Some ("  ok  ", "en")) fresh
     = ([Listen 8 10; Speak "I didn't hear a command" "en"], fresh, Ok tt).
Proof.
  split; [left; reflexivity|]. split; [reflexivity|].
  apply (proj2 (follow_up_dispatches_by_trimmed_length
                  (handle_command bare_world) "  ok  " "en" fresh
                  (or_introl eq_refl))).
  reflexivity.
Defined.

(** C8 as stated fails: "a b" has two characters that are not white
    space, the recogniser can return it, and it is dispatched. *)
Lemma two_letters_and_a_gap_are_dispatched :
  non_space_count "a b" = 2
  /\ listen_once (Recognized "a b") = Some ("a b", "en")
  /\ follow_up (handle_command bare_world) (Some ("a b", "en")) fresh
     = match handle_command bare_world "a b" "en" fresh with
       | (ev, st, r) => (Listen 8 10 :: ev, st, r)
       end
  /\ events_of (follow_up (handle_command bare_world) (Some ("a b", "en"))
                          fresh)
     = [Listen 8 10; Emit "log_message" "a b";
        Emit "status_update" "🤖 Processing with AI...";
        Speak "I'm not sure how to help with that" "en";
        Emit "status_update" "✅ Command completed"].
Proof. repeat split; vm_compute; reflexivity. Qed.

Lemma listener_turn_wake w handle text detected_lang second st :
  is_empty text = false ->
  detect_wake_word (isalnum w) (strip text) = true ->
  listener_turn w handle (Some (text, detected_lang)) second st
  = wake_turn w handle text detected_lang second st.
Proof.
  intros Hne Hwake.
  unfold listener_turn, wake_turn, try_except, unpack. cbv zeta.
  repeat mstep. cbn [fst snd]. rewrite Hne. repeat mstep. rewrite Hwake.
  unfold on_wake. repeat mstep.
  cbn [current_lang last_generated_code consecutive_failures].
  assert (Hack : forall l, l = "en" \/ l = "ta" ->
            index l wake_responses
            = ret (if String.eqb l "ta" then "Sollunga, enna help venum?"
                   else "Yes, how can I help?")).
  { intros l [->| ->]; reflexivity. }
  assert (Hno : forall l, l = "en" \/ l = "ta" ->
            index l no_command_responses
            = ret (if String.eqb l "ta" then "Command kekkala"
                   else "I didn't hear a command")).
  { intros l [->| ->]; reflexivity. }
  assert (Hl : (if starts_ta detected_lang then "ta" else "en") = "en"
               \/ (if starts_ta detected_lang then "ta" else "en") = "ta").
  { destruct (starts_ta detected_lang); auto. }
  set (lang := if starts_ta detected_lang then "ta" else "en") in *.
  rewrite (Hack lang Hl). repeat mstep.
  assert (Hs1 : forall k st',
            bind (speak (if String.eqb lang "ta"
                         then "Sollunga, enna help venum?"
                         else "Yes, how can I help?") lang) k st'
            = bind (tell (Speak (if String.eqb lang "ta"
                                 then "Sollunga, enna help venum?"
                                 else "Yes, how can I help?") lang)) k st'
              :> list event * store * result unit).
  { intros k st'. destruct Hl as [-> | ->]; reflexivity. }
  rewrite Hs1. repeat mstep.
  unfold follow_up, unpack. repeat mstep.
  destruct second as [[command_text cmd_lang]|].
  - repeat mstep. cbn [fst snd].
    destruct (2 <? len (strip command_text))%nat eqn:Hlen.
    + rewrite (strip_empty_length _ Hlen). cbn [negb andb].
      destruct (starts_ta cmd_lang); repeat mstep; unfold with_lang;
        cbn [current_lang last_generated_code consecutive_failures];
        unfold bind at 1;
        destruct (handle command_text _ _) as [[ev st2] [[]|e]];
        unfold wake_prefix, listener_error, tell, bind; cbn [app];
        rewrite ?app_nil_r; reflexivity.
    + rewrite andb_false_r. repeat mstep.
      cbn [current_lang]. rewrite (Hno lang Hl). repeat mstep.
      destruct Hl as [E | E]; rewrite E; reflexivity.
  - repeat mstep. reflexivity.
Qed.

Lemma wake_word_not_empty alnum (text : string) :
  detect_wake_word alnum (strip text) = true -> is_empty text = false.
Proof. destruct text; [discriminate|reflexivity]. Qed.

(** C9.  A captured utterance on which both detectors answer true takes
    the wake path: the turn is the wake turn, it begins with the log
    entry, the acknowledgement and the second capture, and the entry
    point is run on nothing but the text of the second capture.  Two
    entry points that agree on that text give the same turn, however
    they treat the original utterance. *)
Theorem wake_word_precedes_direct_command :
  forall w text detected_lang second st,
    detect_wake_word (isalnum w) (strip text) = true ->
    is_direct_command (isalnum w) (strip text) = true ->
    (forall handle,
        listener_turn w handle (Some (text, detected_lang)) second st
        = wake_turn w handle text detected_lang second st)
    /\ (forall handle,
           exists rest,
             events_of (listener_turn w handle (Some (text, detected_lang))
                                      second st)
             = (wake_prefix (strip text)
                            (if starts_ta detected_lang then "ta" else "en")
                ++ rest)%list)
    /\ (forall h1 h2,
           (forall cmd cl l st',
               second = Some (cmd, cl) -> h1 cmd l st' = h2 cmd l st') ->
           listener_turn w h1 (Some (text, detected_lang)) second st
           = listener_turn w h2 (Some (text, detected_lang)) second st).
Proof.
  intros w text detected_lang second st Hwake _.
  pose proof (wake_word_not_empty _ _ Hwake) as Hne.
  split; [|split].
  - intros handle. now apply listener_turn_wake.
  - intros handle. rewrite listener_turn_wake by assumption.
    unfold wake_turn. cbv zeta.
    destruct second as [[cmd cl]|]; [|eexists; reflexivity].
    destruct (2 <? len (strip cmd))%nat; [|eexists; reflexivity].
    destruct (handle cmd _ _) as [[ev st2] [[]|e]]; eexists; reflexivity.
  - intros h1 h2 Hagree.
    rewrite !listener_turn_wake by assumption.
    unfold wake_turn. cbv zeta.
    destruct second as [[cmd cl]|]; [|reflexivity].
    destruct (2 <? len (strip cmd))%nat; [|reflexivity].
    now rewrite (Hagree cmd cl _ _ eq_refl).
Qed.

Lemma wake_word_precedes_direct_command_witness :
  detect_wake_word (isalnum bare_world) (strip "pluto open chrome") = true
  /\ is_direct_command (isalnum bare_world) (strip "pluto open chrome") = true
  /\ listener_turn bare_world (handle_command bare_world)
       (Some ("pluto open chrome", "en")) (Some ("", "en")) fresh
     = wake_turn bare_world (handle_command bare_world)
         "pluto open chrome" "en" (Some ("", "en")) fresh
  /\ events_of (continuous_listener_turn bare_world
                  (Some ("pluto open chrome", "en")) (Some ("", "en")) fresh)
     = [Emit "status_update" "Listening for wake word or command...";
        Listen 3 6;
        Emit "log_message" "Wake word: pluto open chrome";
        Emit "status_update"
             "🎯 Wake word detected! Listening for command...";
        Speak "Yes, how can I help?" "en";
        Listen 8 10;
        Speak "I didn't hear a command" "en";
        Sleep 2].
Proof.
  split; [reflexivity|]. split; [reflexivity|].
  split.
  - apply (proj1 (wake_word_precedes_direct_command
                    bare_world "pluto open chrome" "en" (Some ("", "en"))
                    fresh eq_refl eq_refl)).
  - vm_compute. reflexivity.
Defined.

(** * Further properties *)

(** ** Speaking *)

Lemma has_nonspace_app (a b : string) :
  has_nonspace (a ++ b) = has_nonspace a || has_nonspace b.
Proof.
  induction a as [|c r IH]; simpl; [reflexivity|].
  now rewrite IH, orb_assoc.
Qed.

Lemma has_nonspace_lstrip (s : string) :
  has_nonspace (lstrip s) = has_nonspace s.
Proof.
  induction s as [|c r IH]; simpl; [reflexivity|].
  destruct (isspace c) eqn:Ec; simpl; [exact IH|now rewrite Ec].
Qed.

Lemma has_nonspace_rstrip (s : string) :
  has_nonspace (rstrip s) = has_nonspace s.
Proof.
  induction s as [|c r IH]; simpl; [reflexivity|].
  rewrite <- IH. destruct (rstrip r) as [|d r']; simpl; [|reflexivity].
  destruct (isspace c) eqn:Ec; simpl; [reflexivity|now rewrite Ec].
Qed.

Lemma has_nonspace_strip (s : string) : has_nonspace (strip s) = has_nonspace s.
Proof. unfold strip. now rewrite has_nonspace_rstrip, has_nonspace_lstrip. Qed.

Lemma rstrip_nonspace (s : string) :
  has_nonspace (rstrip s) = negb (is_empty (rstrip s)).
Proof.
  induction s as [|c r IH]; simpl; [reflexivity|].
  destruct (rstrip r) as [|d r'] eqn:E.
  - destruct (isspace c) eqn:Ec; simpl; [reflexivity|]. now rewrite Ec.
  - change (has_nonspace (String c (String d r')))
      with (negb (isspace c) || has_nonspace (String d r')).
    rewrite IH. simpl. apply orb_true_r.
Qed.

Lemma strip_nonspace (s : string) :
  has_nonspace s = negb (is_empty (strip s)).
Proof.
  rewrite <- has_nonspace_strip. unfold strip. apply rstrip_nonspace.
Qed.

Lemma has_nonspace_not_empty (s : string) :
  has_nonspace s = true -> is_empty s = false.
Proof. destruct s; [discriminate|reflexivity]. Qed.

(** A text that is not blank is spoken. *)
Lemma speak_nonblank (text lang : string) (st : store) :
  has_nonspace text = true ->
  speak text lang st = ([Speak text lang], st, Ok tt).
Proof.
  intros H. unfold speak.
  rewrite (has_nonspace_not_empty _ H).
  rewrite strip_nonspace in H. apply negb_true_iff in H. now rewrite H.
Qed.

Lemma bind_speak_nonblank {B} (text lang : string) (k : unit -> M B)
      (st : store) :
  has_nonspace text = true ->
  bind (speak text lang) k st
  = match k tt st with (ev, st', r) => (Speak text lang :: ev, st', r) end.
Proof.
  intros H. unfold bind. rewrite speak_nonblank by assumption.
  now destruct (k tt st) as [[ev st'] r].
Qed.

Lemma has_nonspace_pick (lang en ta : string) :
  has_nonspace en = true -> has_nonspace ta = true ->
  has_nonspace (pick lang en ta) = true.
Proof. unfold pick. now destruct (String.eqb lang "ta"). Qed.

(** A message built around a name is never blank. *)
Ltac nonblank :=
  repeat apply has_nonspace_pick;
  first [ reflexivity
        | repeat (rewrite ?has_nonspace_app; simpl; rewrite ?orb_true_r);
          reflexivity ].

(** Run the spoken messages of a computation. *)
Ltac say :=
  first [ rewrite bind_speak_nonblank by nonblank
        | rewrite speak_nonblank by nonblank ].

(** ** Model selection *)

Lemma preferred_in_fallback (q : string) :
  In (preferred_by_keywords q) MODEL_FALLBACK.
Proof.
  unfold preferred_by_keywords, MODEL_FALLBACK. cbv zeta.
  destruct (_ <? _)%nat; [simpl; auto|].
  destruct (_ <? _)%nat; simpl; auto.
Qed.

Lemma available_nonempty w m :
  In m MODEL_FALLBACK -> check_model_availability w m = true ->
  get_available_models w <> [].
Proof.
  intros Hin Hc E.
  assert (H : In m (get_available_models w)).
  { unfold get_available_models. apply filter_In. auto. }
  rewrite E in H. destruct H.
Qed.

Lemma select_by_keywords_spec w query :
  In (select_by_keywords w query) MODEL_FALLBACK
  /\ (get_available_models w <> [] ->
      check_model_availability w (select_by_keywords w query) = true)
  /\ (get_available_models w = [] -> select_by_keywords w query = "phi3:mini").
Proof.
  unfold select_by_keywords. cbv zeta.
  pose proof (preferred_in_fallback (lower query)) as Hp.
  destruct (check_model_availability w (preferred_by_keywords (lower query)))
    eqn:Hc.
  - split; [exact Hp|]. split; [auto|].
    intros E. now destruct (@available_nonempty w _ Hp Hc).
  - destruct (get_available_models w) as [|m rest] eqn:E.
    + split; [simpl; auto|]. split; [congruence|reflexivity].
    + assert (Hm : In m (get_available_models w)) by (rewrite E; simpl; auto).
      unfold get_available_models in Hm. apply filter_In in Hm.
      destruct Hm as [Hin Hav]. split; [exact Hin|].
      split; [auto|discriminate].
Qed.

Lemma task_model_in_fallback t m :
  lookup t TASK_MODELS = Some m -> In m MODEL_FALLBACK.
Proof.
  unfold TASK_MODELS, MODEL_FALLBACK. simpl.
  destruct (String.eqb t "fast"); [intros [= <-]; simpl; auto|].
  destruct (String.eqb t "deep"); [intros [= <-]; simpl; auto|].
  destruct (String.eqb t "reasoning"); [intros [= <-]; simpl; auto|].
  discriminate.
Qed.

(** X1.  [select_model_for_task] always names one of the three models of
    the fallback list.  When [ollama list] shows at least one of them the
    chosen model is one it shows; when it shows none (or fails) the
    choice is "phi3:mini", whatever the query and the task type. *)
Theorem select_model_is_available :
  forall w query task_type,
    In (select_model_for_task w query task_type) MODEL_FALLBACK
    /\ (get_available_models w <> [] ->
        check_model_availability w (select_model_for_task w query task_type)
        = true)
    /\ (get_available_models w = [] ->
        select_model_for_task w query task_type = "phi3:mini").
Proof.
  intros w query task_type.
  pose proof (select_by_keywords_spec w query) as Hk.
  unfold select_model_for_task.
  destruct task_type as [t|]; [|exact Hk].
  destruct (if is_empty t then None else lookup t TASK_MODELS) as [m|] eqn:El;
    [|exact Hk].
  assert (Hin : In m MODEL_FALLBACK).
  { destruct (is_empty t); [discriminate|]. now apply task_model_in_fallback in El. }
  destruct (check_model_availability w m) eqn:Hc; [|exact Hk].
  split; [exact Hin|]. split; [auto|].
  intros E. now destruct (@available_nonempty w _ Hin Hc).
Qed.

Lemma select_model_is_available_witness :
  get_available_models (answering "ok") <> []
  /\ check_model_availability (answering "ok")
       (select_model_for_task (answering "ok") "explain what is a proof"
                              (Some "reasoning")) = true.
Proof.
  split; [discriminate|].
  apply (proj1 (proj2 (select_model_is_available
                         (answering "ok") "explain what is a proof"
                         (Some "reasoning")))).
  discriminate.
Defined.

(** ** Model invocation *)

Lemma reply_of_nonblank (o : run_outcome) : has_nonspace (reply_of o) = true.
Proof.
  destruct o as [stdout| |]; simpl; try reflexivity.
  destruct (accepted (strip stdout)) eqn:Ha; [|reflexivity].
  rewrite strip_nonspace, strip_idem.
  unfold accepted in Ha. apply andb_true_iff in Ha. destruct Ha as [Ha _].
  apply andb_true_iff in Ha. now destruct Ha as [Ha _].
Qed.

Lemma store_after_lang (o : run_outcome) (st : store) :
  current_lang (store_after o st) = current_lang st
  /\ consecutive_failures (store_after o st) = consecutive_failures st.
Proof.
  destruct o as [stdout| |]; simpl; auto.
  destruct (accepted (strip stdout) && looks_like_code (strip stdout)); auto.
Qed.

(** X2.  [query_ollama_smart] never raises and causes no event.  Its
    reply is never blank: it is the trimmed output of the model or the
    failure reply.  Of the globals it can only change the cached code,
    and only to a reply that looks like code. *)
Theorem query_ollama_smart_total :
  forall w prompt query task_type st,
    exists reply st',
      query_ollama_smart w prompt query task_type st = ([], st', Ok reply)
      /\ has_nonspace reply = true
      /\ current_lang st' = current_lang st
      /\ consecutive_failures st' = consecutive_failures st
      /\ (last_generated_code st' = last_generated_code st
          \/ (last_generated_code st' = reply
              /\ looks_like_code reply = true)).
Proof.
  intros w prompt query task_type st.
  rewrite query_ollama_smart_run.
  set (o := model_run w prompt query task_type).
  exists (reply_of o), (store_after o st). split; [reflexivity|].
  split; [apply reply_of_nonblank|].
  destruct (store_after_lang o st) as [Hl Hc].
  split; [exact Hl|]. split; [exact Hc|].
  destruct o as [stdout| |]; simpl; auto.
  destruct (accepted (strip stdout)); simpl; auto.
  destruct (looks_like_code (strip stdout)) eqn:E; simpl; auto.
Qed.

(** ** The capability registry *)

Lemma launch_app_run w app_path :
  exists ev b,
    (forall st, launch_app w app_path st = (ev, st, Ok b))
    /\ if b then exists e, ev = [e] /\ is_launch_event e = true
       else ev = [].
Proof.
  assert (Hp : forall p sh,
             (forall st,
                 try_except (bind (popen w p sh) (fun _ => ret true))
                            (fun _ => ret false) st
                 = ([Popen p sh], st, Ok true))
             \/ (forall st,
                    try_except (bind (popen w p sh) (fun _ => ret true))
                               (fun _ => ret false) st
                    = ([], st, Ok false))).
  { intros p sh. unfold try_except, bind, popen, tell, raise, ret.
    destruct (popen_ok w p sh); auto. }
  assert (Hb : forall u,
             (forall st,
                 try_except (bind (webbrowser_open w u) (fun _ => ret true))
                            (fun _ => ret false) st
                 = ([OpenUrl u], st, Ok true))
             \/ (forall st,
                    try_except (bind (webbrowser_open w u) (fun _ => ret true))
                               (fun _ => ret false) st
                    = ([], st, Ok false))).
  { intros u. unfold try_except, bind, webbrowser_open, tell, raise, ret.
    destruct (browser_ok w u); auto. }
  unfold launch_app.
  destruct (startswith "system:" app_path).
  { destruct (lookup (drop 7 app_path) system_commands) as [info|].
    - exists [OsSystem (fst info)], true. split; [reflexivity|eauto].
    - exists [], false. split; reflexivity. }
  destruct (startswith "web:" app_path).
  { destruct (Hb (drop 4 app_path)) as [E|E].
    - exists [OpenUrl (drop 4 app_path)], true. split; [exact E|eauto].
    - exists [], false. split; [exact E|reflexivity]. }
  destruct (startswith "media:" app_path).
  { destruct (lookup (drop 6 app_path) media_platforms) as [info|];
      [|exists [], false; split; reflexivity].
    match goal with
    | |- context [match ?d with Some _ => _ | None => _ end] =>
        destruct d as [desktop_path|]
    end.
    - destruct (Hp desktop_path false) as [E|E].
      + exists [Popen desktop_path false], true. split; [exact E|eauto].
      + exists [], false. split; [exact E|reflexivity].
    - destruct (Hb (base_url info)) as [E|E].
      + exists [OpenUrl (base_url info)], true. split; [exact E|eauto].
      + exists [], false. split; [exact E|reflexivity]. }
  destruct (endswith ".exe" app_path);
    [|exists [], false; split; reflexivity].
  destruct (path_exists w app_path).
  - destruct (Hp app_path false) as [E|E].
    + exists [Popen app_path false], true. split; [exact E|eauto].
    + exists [], false. split; [exact E|reflexivity].
  - destruct (Hp app_path true) as [E|E].
    + exists [Popen app_path true], true. split; [exact E|eauto].
    + exists [], false. split; [exact E|reflexivity].
Qed.

(** X3.  [launch_app] never raises and neither reads nor writes the
    globals.  It answers true exactly when it has made one call to the
    operating system (a process, a system command or a browser page) and
    false when it has made none. *)
Theorem launch_app_outcome :
  forall w app_path,
    exists ev b,
      (forall st, launch_app w app_path st = (ev, st, Ok b))
      /\ if b then exists e, ev = [e] /\ is_launch_event e = true
         else ev = [].
Proof. intros. apply launch_app_run. Qed.

Lemma lookup_in_keys {A} k (l : list (string * A)) v :
  lookup k l = Some v -> In k (map fst l).
Proof.
  induction l as [|[k0 v0] r IH]; simpl; [discriminate|].
  destruct (String.eqb k k0) eqn:E; [|auto].
  apply String.eqb_eq in E. auto.
Qed.

Lemma lookup_not_in_keys {A} k (l : list (string * A)) :
  ~ In k (map fst l) -> lookup k l = None.
Proof.
  intros H. destruct (lookup k l) eqn:E; [|reflexivity].
  now apply lookup_in_keys in E.
Qed.

(** The manual mapping of a name is the first candidate path that exists
    or is not an absolute path on drive C. *)
Lemma lookup_candidates (p : string -> bool) k
      (l : list (string * list string)) :
  NoDup (map fst l) ->
  lookup k (flat_map (fun entry : string * list string =>
                        match find p (snd entry) with
                        | Some path => [(fst entry, path)]
                        | None => []
                        end) l)
  = match lookup k l with
    | Some paths => find p paths
    | None => None
    end.
Proof.
  induction l as [|[k0 ps] r IH]; intros Hnd; simpl; [reflexivity|].
  inversion Hnd as [|? ? Hnotin Hnd']; subst.
  destruct (String.eqb k k0) eqn:E.
  - apply String.eqb_eq in E. subst k0.
    destruct (find p ps) as [path|]; simpl.
    + now rewrite String.eqb_refl.
    + rewrite (IH Hnd'). now rewrite (lookup_not_in_keys _ _ Hnotin).
  - destruct (find p ps) as [path|]; simpl; [rewrite E|]; exact (IH Hnd').
Qed.

Lemma app_search_keys (user : string) :
  map fst (app_search user)
  = ["chrome"; "firefox"; "spotify"; "whatsapp"; "vscode"; "notepad";
     "notepadplusplus"; "calculator"; "paint"].
Proof. reflexivity. Qed.

Lemma app_search_nodup (user : string) : NoDup (map fst (app_search user)).
Proof.
  rewrite app_search_keys.
  repeat (constructor; [simpl; intuition discriminate|]). constructor.
Qed.

Lemma manual_lookup w k :
  lookup k (manual_app_paths w)
  = match lookup k (app_search (username w)) with
    | Some paths =>
        find (fun path => path_existed w path || negb (startswith "C:" path))
             paths
    | None => None
    end.
Proof.
  unfold manual_app_paths. apply lookup_candidates, app_search_nodup.
Qed.

(** X4.  The manual mapping gives every application its first candidate
    path that was on disk when the mapping was built or is a bare
    program name, and none when no candidate qualifies.  Hence Notepad,
    Calculator and Paint are found on every machine, while an
    application with absolute candidates only is in the mapping exactly
    when one of them existed then. *)
Theorem manual_mapping_first_candidate :
  forall w,
    (forall k,
        lookup k (manual_app_paths w)
        = match lookup k (app_search (username w)) with
          | Some paths =>
              find (fun path =>
                      path_existed w path || negb (startswith "C:" path))
                   paths
          | None => None
          end)
    /\ find_app w "notepad" = Some "notepad.exe"
    /\ find_app w "calculator" = Some "calc.exe"
    /\ find_app w "paint" = Some "mspaint.exe"
    /\ (3 <= List.length (manual_app_paths w) <= 9)%nat.
Proof.
  intros w. split; [apply manual_lookup|].
  assert (F : forall name exe,
             clean_app_name name = name ->
             lookup name system_commands = None ->
             lookup name (app_search (username w)) = Some [exe] ->
             startswith "C:" exe = false ->
             find_app w name = Some exe).
  { intros name exe Hc Hs Hl Hx. unfold find_app. cbv zeta.
    rewrite Hc, Hs, manual_lookup, Hl. cbn [find]. rewrite Hx.
    cbn [negb]. now rewrite orb_true_r. }
  split; [now apply F|]. split; [now apply F|]. split; [now apply F|].
  unfold manual_app_paths, app_search. cbn [flat_map snd fst find].
  cbn [startswith Ascii.eqb Bool.eqb andb negb orb].
  rewrite !orb_true_r. cbn [app].
  repeat match goal with
         | |- context [if ?c then _ else _] => destruct c
         end; cbn [app List.length]; lia.
Qed.

Lemma find_app_system w name info :
  lookup (clean_app_name name) system_commands = Some info ->
  find_app w name = Some ("system:" ++ clean_app_name name).
Proof. intros H. unfold find_app. cbv zeta. now rewrite H. Qed.

Lemma launch_app_system w c info st :
  lookup c system_commands = Some info ->
  launch_app w ("system:" ++ c) st = ([OsSystem (fst info)], st, Ok true).
Proof.
  intros H. unfold launch_app.
  change (startswith "system:" ("system:" ++ c)) with true.
  change (drop 7 ("system:" ++ c)) with c.
  cbv iota. now rewrite H.
Qed.

(** X5.  System commands and web applications are resolved by name on
    every machine, before anything installed is looked at: a name whose
    cleaned form is a system command gives "system:" and that name, and
    launching it runs the command of the table and succeeds; a name whose
    cleaned form is a web application gives "web:" and its address. *)
Theorem find_app_builtin_first :
  forall w name,
    (forall info,
        lookup (clean_app_name name) system_commands = Some info ->
        find_app w name = Some ("system:" ++ clean_app_name name)
        /\ forall st,
            launch_app w ("system:" ++ clean_app_name name) st
            = ([OsSystem (fst info)], st, Ok true))
    /\ (forall url,
           lookup (clean_app_name name) web_apps = Some url ->
           find_app w name = Some ("web:" ++ url)).
Proof.
  intros w name. split.
  - intros info H. split.
    + now apply find_app_system with (info := info).
    + intros st. now apply launch_app_system.
  - intros url H. unfold find_app. cbv zeta.
    rewrite manual_lookup.
    pose proof (lookup_in_keys _ _ H) as Hin.
    simpl in Hin.
    repeat (destruct Hin as [E|Hin]; [rewrite <- E in *; simpl in H;
                                      injection H as <-; reflexivity|]).
    destruct Hin.
Qed.

Lemma find_app_builtin_first_witness :
  lookup (clean_app_name " Shutdown ") system_commands
  = Some ("shutdown /s /t 5", "Shutdown computer in 5 seconds")
  /\ find_app bare_world " Shutdown " = Some "system:shutdown"
  /\ lookup (clean_app_name "GitHub") web_apps
     = Some "https://www.github.com"
  /\ find_app bare_world "GitHub" = Some "web:https://www.github.com".
Proof.
  split; [reflexivity|]. split.
  - apply (proj1 (find_app_builtin_first bare_world " Shutdown ")
                 ("shutdown /s /t 5", "Shutdown computer in 5 seconds")
                 eq_refl).
  - split; [reflexivity|].
    apply (proj2 (find_app_builtin_first bare_world "GitHub")
                 "https://www.github.com" eq_refl).
Defined.

(** X6.  An absolute path on drive C that [find_app] answers with
    comes from the manual mapping or from the registry.  From the
    mapping it was on disk when the mapping was built, and it is handed
    out without a new look at the disk; from the registry it is on disk
    now. *)
Theorem find_app_path_was_seen :
  forall w name path,
    find_app w name = Some path ->
    startswith "C:" path = true ->
    (lookup (clean_app_name name) (manual_app_paths w) = Some path
     /\ path_existed w path = true)
    \/ (lookup (clean_app_name name) (manual_app_paths w) = None
        /\ path_exists w path = true).
Proof.
  intros w name path. unfold find_app. cbv zeta.
  destruct (lookup (clean_app_name name) system_commands);
    [intros [= <-]; discriminate|].
  destruct (lookup (clean_app_name name) (manual_app_paths w))
    as [p|] eqn:Em.
  - intros [= <-] Hc. left. split; [reflexivity|].
    rewrite manual_lookup in Em.
    destruct (lookup (clean_app_name name) (app_search (username w)))
      as [paths|]; [|discriminate].
    apply find_some in Em. destruct Em as [_ Ef].
    rewrite Hc in Ef. simpl in Ef. now rewrite orb_false_r in Ef.
  - destruct (lookup (clean_app_name name) web_apps);
      [intros [= <-]; discriminate|].
    destruct (lookup (clean_app_name name) media_platforms);
      [intros [= <-]; discriminate|].
    destruct (lookup (clean_app_name name) (installed_apps w)) as [p|].
    + destruct (path_exists w p) eqn:Ep; [intros [= <-]; now right|].
      destruct (find _ (installed_apps w)) as [e|] eqn:Ef; [|discriminate].
      intros [= <-] _. apply find_some in Ef. destruct Ef as [_ Ef].
      apply andb_true_iff in Ef. right. tauto.
    + destruct (find _ (installed_apps w)) as [e|] eqn:Ef; [|discriminate].
      intros [= <-] _. apply find_some in Ef. destruct Ef as [_ Ef].
      apply andb_true_iff in Ef. right. tauto.
Qed.

Lemma find_app_path_was_seen_witness :
  find_app uninstalled "Chrome"
  = Some "C:\Program Files\Google\Chrome\Application\chrome.exe"
  /\ path_exists uninstalled
       "C:\Program Files\Google\Chrome\Application\chrome.exe" = false
  /\ ((lookup (clean_app_name "Chrome") (manual_app_paths uninstalled)
       = Some "C:\Program Files\Google\Chrome\Application\chrome.exe"
       /\ path_existed uninstalled
            "C:\Program Files\Google\Chrome\Application\chrome.exe"
          = true)
      \/ (lookup (clean_app_name "Chrome") (manual_app_paths uninstalled)
          = None
          /\ path_exists uninstalled
               "C:\Program Files\Google\Chrome\Application\chrome.exe"
             = true)).
Proof.
  split; [reflexivity|]. split; [reflexivity|].
  apply (@find_app_path_was_seen uninstalled "Chrome"); reflexivity.
Defined.

(** X7.  [clean_app_name] always answers in lower case and without
    white space at either end, so the tables are searched by a
    normalised name. *)
Theorem clean_app_name_normalised :
  forall name,
    lower (clean_app_name name) = clean_app_name name
    /\ strip (clean_app_name name) = clean_app_name name.
Proof.
  intros name. unfold clean_app_name. cbv zeta. split.
  - apply lower_idem.
  - now rewrite strip_lower, strip_idem.
Qed.

(** ** URLs *)

Lemma all_chars_app p (a b : string) :
  all_chars p (a ++ b) = all_chars p a && all_chars p b.
Proof.
  induction a as [|c r IH]; simpl; [reflexivity|].
  now rewrite IH, andb_assoc.
Qed.

Lemma quote_char_safe (c : ascii) : all_chars url_safe (quote_char c) = true.
Proof. destruct c as [[] [] [] [] [] [] [] []]; reflexivity. Qed.

Lemma quote_plus_app (a b : string) :
  quote_plus (a ++ b) = quote_plus a ++ quote_plus b.
Proof.
  induction a as [|c r IH]; simpl; [reflexivity|].
  rewrite IH. 
  generalize (quote_char c) as q. intros q.
  induction q as [|d q' IHq]; simpl; [reflexivity|]. now rewrite IHq.
Qed.

Lemma quote_plus_safe (s : string) : all_chars url_safe (quote_plus s) = true.
Proof.
  induction s as [|c r IH]; simpl; [reflexivity|].
  now rewrite all_chars_app, quote_char_safe, IH.
Qed.

(** X8.  [quote_plus] produces nothing but letters, digits, the marks
    [_ . - ~], the plus sign and the percent sign (so no blank, no
    ampersand, no slash, no byte above 127), and it encodes a text piece
    by piece. *)
Theorem quote_plus_url_safe :
  forall s t,
    all_chars url_safe (quote_plus s) = true
    /\ quote_plus (s ++ t) = quote_plus s ++ quote_plus t.
Proof.
  intros s t. split; [apply quote_plus_safe|apply quote_plus_app].
Qed.

(** ** Tool handlers *)

Lemma bind_set_last_generated_code {B} (c : string) (k : unit -> M B)
      (st : store) :
  bind (set_last_generated_code c) k st
  = k tt {| last_generated_code := c;
            current_lang := current_lang st;
            consecutive_failures := consecutive_failures st |}.
Proof.
  unfold set_last_generated_code.
  now rewrite bind_bind, bind_get_store, bind_put_store.
Qed.

Lemma search_web_speaks_once_run :
  forall w query lang st,
    exists ev msg,
      search_web w query lang st = ((ev ++ [Speak msg lang])%list, st, Ok tt)
      /\ (ev = []
          \/ exists q,
               ev = [OpenUrl ("https://www.google.com/search?q=" ++ q)]
               /\ all_chars url_safe q = true).
Proof.
  intros w query lang st. unfold search_web, try_except.
  destruct query as [| | |q| |];
    try (exists [], (pick lang "Sorry, couldn't perform the search"
                               "Search panna mudiyala");
         unfold str_method; rewrite bind_raise; say;
         split; [reflexivity|auto]).
  unfold str_method. mstep. cbv zeta.
  unfold bind at 1, webbrowser_open.
  destruct (browser_ok w _).
  - unfold tell at 1. say.
    eexists [OpenUrl _], _. split; [reflexivity|].
    right. eexists. split; [reflexivity|]. apply quote_plus_safe.
  - unfold raise. say. eexists [], _. split; [reflexivity|auto].
Qed.

(** X9.  [search_web] never raises, whatever its argument is, and leaves
    the globals alone.  It speaks exactly one message, last; before it
    there is at most the opening of a Google search page whose query
    part is URL-safe. *)
Theorem search_web_speaks_once :
  forall w query lang st,
    exists ev msg,
      search_web w query lang st = ((ev ++ [Speak msg lang])%list, st, Ok tt)
      /\ (ev = []
          \/ exists q,
               ev = [OpenUrl ("https://www.google.com/search?q=" ++ q)]
               /\ all_chars url_safe q = true).
Proof. intros. apply search_web_speaks_once_run. Qed.

Lemma found_some (o : option string) (p : string) :
  found o = Some p -> o = Some p /\ is_empty p = false.
Proof.
  destruct o as [q|]; simpl; [|discriminate].
  destruct (is_empty q) eqn:E; [discriminate|]. now intros [= <-].
Qed.

Lemma open_app_speaks_once_run :
  forall w lang st,
    (forall name,
        exists ev msg,
          open_app w (VStr name) lang st
          = ((ev ++ [Speak msg lang])%list, st, Ok tt)
          /\ (ev = [] \/ exists e, ev = [e] /\ is_launch_event e = true))
    /\ (forall v,
           (forall name, v <> VStr name) ->
           open_app w v lang st = ([], st, Raised TypeError)).
Proof.
  intros w lang st. split.
  - intros name. unfold open_app, as_str. mstep.
    destruct (found (find_app w name)) as [app_path|].
    + destruct (launch_app_run w app_path) as [ev [b [E Hb]]].
      unfold bind at 1. rewrite E.
      destruct b.
      * destruct Hb as [e [-> He]].
        destruct (startswith "system:" app_path); say;
          eexists [e], _; (split; [reflexivity|eauto]).
      * subst ev. say. eexists [], _. split; [reflexivity|auto].
    + say. eexists [], _. split; [reflexivity|auto].
  - intros v Hv. destruct v; try reflexivity. now destruct (Hv s).
Qed.

(** X10.  [open_app] on a string never raises and leaves the globals
    alone: it makes at most one call to the operating system and then
    speaks exactly one message.  On anything but a string it raises a
    [TypeError] before any effect. *)
Theorem open_app_speaks_once :
  forall w lang st,
    (forall name,
        exists ev msg,
          open_app w (VStr name) lang st
          = ((ev ++ [Speak msg lang])%list, st, Ok tt)
          /\ (ev = [] \/ exists e, ev = [e] /\ is_launch_event e = true))
    /\ (forall v,
           (forall name, v <> VStr name) ->
           open_app w v lang st = ([], st, Raised TypeError)).
Proof. intros. apply open_app_speaks_once_run. Qed.

Lemma open_app_speaks_once_witness :
  open_app bare_world (VNum "7") "en" fresh = ([], fresh, Raised TypeError).
Proof.
  apply (proj2 (open_app_speaks_once bare_world "en" fresh) (VNum "7")).
  intros name. discriminate.
Defined.

Lemma general_chat_speaks_once_run :
  forall w q lang st,
    exists msg st',
      general_chat w (VStr q) lang st = ([Speak msg lang], st', Ok tt)
      /\ current_lang st' = current_lang st.
Proof.
  intros w q lang st. unfold general_chat, str_method. mstep. cbv zeta.
  destruct (any_in ["vanakkam"; "hai"; "hello"] (lower q));
    [say; eauto|].
  destruct (any_in ["how are you"; "epdi irukka"] (lower q));
    [say; eauto|].
  destruct (any_in ["thank you"; "thanks"; "nandri"] (lower q));
    [say; eauto|].
  destruct (any_in code_keywords (lower q)).
  - unfold bind at 1. rewrite query_ollama_smart_run.
    match goal with
    | |- context [reply_of ?o] =>
        set (run := o);
        pose proof (reply_of_nonblank run) as Hn;
        destruct (store_after_lang run st) as [Hl _]
    end.
    destruct (negb (is_empty (reply_of run)) && looks_like_code (reply_of run)).
    + rewrite bind_set_last_generated_code. say. cbn [app]. eauto.
    + rewrite speak_nonblank by assumption. cbn [app]. eauto.
  - unfold bind at 1. rewrite query_ollama_smart_run.
    match goal with
    | |- context [reply_of ?o] =>
        set (run := o);
        pose proof (reply_of_nonblank run) as Hn;
        destruct (store_after_lang run st) as [Hl _]
    end.
    destruct (negb (is_empty (reply_of run))
              && negb (contains "failed" (lower (reply_of run)))).
    + rewrite speak_nonblank by assumption. cbn [app]. eauto.
    + say. cbn [app]. eauto.
Qed.

(** X11.  [general_chat] on a string speaks exactly one message and does
    nothing else to the outside, never raises, and keeps the session
    language: a greeting, a canned reply, the model's answer or the
    apology, never silence. *)
Theorem general_chat_speaks_once :
  forall w q lang st,
    exists msg st',
      general_chat w (VStr q) lang st = ([Speak msg lang], st', Ok tt)
      /\ current_lang st' = current_lang st.
Proof. intros. apply general_chat_speaks_once_run. Qed.

Lemma process_names_not_empty k p :
  lookup k process_map = Some p -> is_empty p = false.
Proof.
  unfold process_map. simpl.
  repeat (destruct (String.eqb k _); [now intros [= <-]|]).
  discriminate.
Qed.

Lemma close_app_outcomes_run :
  forall w name lang st,
    close_app w (VStr name) lang st
    = match lookup (clean_app_name name) process_map with
      | Some process_name =>
          match taskkill w process_name with
          | Killed =>
              ([TaskKill process_name;
                Speak (pick lang ("Closed " ++ name) (name ++ " mudditten"))
                      lang], st, Ok tt)
          | NotRunning =>
              ([TaskKill process_name;
                Speak (pick lang (name ++ " is not running")
                            (name ++ " odala")) lang], st, Ok tt)
          | KillFailed => ([], st, Raised OSError)
          end
      | None =>
          ([Speak (pick lang ("Don't know how to close " ++ name)
                        (name ++ " mudda theriyala")) lang], st, Ok tt)
      end.
Proof.
  intros w name lang st. unfold close_app, as_str. mstep.
  destruct (lookup (clean_app_name name) process_map) as [p|] eqn:E.
  - unfold found. rewrite (process_names_not_empty _ E).
    unfold try_except_called, run_taskkill.
    destruct (taskkill w p).
    + mstep. say. reflexivity.
    + rewrite bind_bind, bind_tell, bind_raise. say. reflexivity.
    + rewrite bind_raise. reflexivity.
  - unfold found. say. reflexivity.
Qed.

(** X12.  The outcomes of [close_app] on a string.  A name outside the
    process map is answered with "Don't know how to close".  Otherwise
    one [taskkill] is run on the mapped process: "Closed" is spoken only
    when it succeeds, "is not running" when it exits with an error, and
    when [taskkill] itself cannot be started the exception escapes with
    nothing spoken. *)
Theorem close_app_outcomes :
  forall w name lang st,
    close_app w (VStr name) lang st
    = match lookup (clean_app_name name) process_map with
      | Some process_name =>
          match taskkill w process_name with
          | Killed =>
              ([TaskKill process_name;
                Speak (pick lang ("Closed " ++ name) (name ++ " mudditten"))
                      lang], st, Ok tt)
          | NotRunning =>
              ([TaskKill process_name;
                Speak (pick lang (name ++ " is not running")
                            (name ++ " odala")) lang], st, Ok tt)
          | KillFailed => ([], st, Raised OSError)
          end
      | None =>
          ([Speak (pick lang ("Don't know how to close " ++ name)
                        (name ++ " mudda theriyala")) lang], st, Ok tt)
      end.
Proof. intros. apply close_app_outcomes_run. Qed.

Lemma action_messages_nonblank a m :
  lookup a action_messages = Some m ->
  has_nonspace (fst m) = true /\ has_nonspace (snd m) = true.
Proof.
  unfold action_messages. simpl.
  repeat (destruct (String.eqb a _); [intros [= <-]; split; reflexivity|]).
  discriminate.
Qed.

Lemma fallback_system_action_known (text_lower : string) :
  clean_app_name (fallback_system_action text_lower)
  = fallback_system_action text_lower
  /\ lookup (fallback_system_action text_lower) system_commands <> None
  /\ lookup (fallback_system_action text_lower) action_messages <> None.
Proof.
  unfold fallback_system_action.
  repeat (destruct (any_in _ text_lower);
          [split; [reflexivity|split; vm_compute; discriminate]|]).
  split; [reflexivity|split; vm_compute; discriminate].
Qed.

(** X13.  [system_control] runs a system command whenever the cleaned
    action names one, and announces it only when the action as given is
    a key of the announcement table: "Shutdown" with a capital shuts the
    computer down without a spoken warning.  The actions the fallback
    classifier produces are always known and always announced. *)
Theorem system_control_runs_known_actions :
  (forall w action lang st info,
      lookup (clean_app_name action) system_commands = Some info ->
      system_control w (VStr action) lang st
      = ((match lookup action action_messages with
          | Some msgs => [Speak (pick lang (fst msgs) (snd msgs)) lang]
          | None => []
          end ++ [OsSystem (fst info)])%list, st, Ok tt))
  /\ (forall text_lower,
         clean_app_name (fallback_system_action text_lower)
         = fallback_system_action text_lower
         /\ lookup (fallback_system_action text_lower) system_commands <> None
         /\ lookup (fallback_system_action text_lower) action_messages
            <> None).
Proof.
  split; [|exact fallback_system_action_known].
  intros w action lang st info H.
  unfold system_control, as_str. mstep.
  rewrite (find_app_system w _ H).
  change (found (Some ("system:" ++ clean_app_name action)))
    with (Some ("system:" ++ clean_app_name action)).
  cbv iota.
  assert (Hs : startswith "system:" ("system:" ++ clean_app_name action)
               = true) by reflexivity.
  rewrite Hs.
  destruct (lookup action action_messages) as [msgs|] eqn:Em.
  - destruct (action_messages_nonblank _ Em) as [H1 H2].
    rewrite bind_speak_nonblank by (now apply has_nonspace_pick).
    unfold bind. rewrite (launch_app_system w _ st H). reflexivity.
  - mstep. unfold bind. rewrite (launch_app_system w _ st H). reflexivity.
Qed.

Lemma system_control_runs_known_actions_witness :
  lookup (clean_app_name "Shutdown") system_commands
  = Some ("shutdown /s /t 5", "Shutdown computer in 5 seconds")
  /\ system_control bare_world (VStr "Shutdown") "en" fresh
     = ([OsSystem "shutdown /s /t 5"], fresh, Ok tt).
Proof.
  split; [reflexivity|].
  apply (proj1 system_control_runs_known_actions bare_world "Shutdown" "en"
               fresh ("shutdown /s /t 5", "Shutdown computer in 5 seconds")).
  reflexivity.
Defined.

Lemma discovery_play_media_run w query platform st :
  exists ev b,
    discovery_play_media w query platform st = (ev, st, Ok b)
    /\ spoken ev = []
    /\ (b = true -> exists p, platform = VStr p).
Proof.
  unfold discovery_play_media, try_except.
  destruct platform as [| | |p| |];
    try (exists [], false; unfold as_str; rewrite bind_raise;
         split; [reflexivity|]; split; [reflexivity|discriminate]).
  unfold as_str. rewrite bind_ret.
  destruct (lookup (clean_app_name p) media_platforms) as [info|];
    [|exists [], false; split; [reflexivity|];
      split; [reflexivity|discriminate]].
  destruct query as [| | |q| |];
    try (exists [], false; unfold str_method; rewrite bind_raise;
         split; [reflexivity|]; split; [reflexivity|discriminate]).
  unfold str_method. rewrite bind_ret. cbv zeta.
  match goal with
  | |- context [match ?d with Some _ => _ | None => _ end] =>
      destruct d as [desktop_path|]
  end.
  - unfold popen, webbrowser_open.
    destruct (popen_ok w desktop_path false).
    + destruct (browser_ok w _) eqn:Eb.
      * rewrite !bind_tell. unfold ret.
        eexists [_; _; _], true. split; [reflexivity|].
        split; [reflexivity|eauto].
      * rewrite !bind_tell, bind_raise.
        eexists [_; _], false. split; [reflexivity|].
        split; [reflexivity|discriminate].
    + rewrite bind_raise. exists [], false.
      split; [reflexivity|]. split; [reflexivity|discriminate].
  - unfold webbrowser_open.
    destruct (browser_ok w _) eqn:Eb.
    + rewrite bind_tell. unfold ret.
      eexists [_], true. split; [reflexivity|].
      split; [reflexivity|eauto].
    + rewrite bind_raise. exists [], false.
      split; [reflexivity|]. split; [reflexivity|discriminate].
Qed.

Lemma play_media_speaks_once_run :
  forall w query platform lang st,
    exists ev msg,
      play_media w query platform lang st
      = ((ev ++ [Speak msg lang])%list, st, Ok tt)
      /\ spoken ev = [].
Proof.
  intros w query platform lang st. unfold play_media.
  destruct (discovery_play_media_run w query platform st)
    as [ev [b [E [Hs Hb]]]].
  unfold bind at 1. rewrite E. cbv zeta.
  destruct b.
  - destruct (Hb eq_refl) as [p ->]. unfold str_method. mstep.
    cbn [fmt].
    destruct (String.eqb (lower p) "youtube"); [say; eauto|].
    destruct (String.eqb (lower p) "spotify"); say; eauto.
  - say. eauto.
Qed.

(** X14.  [play_media] never raises, whatever its arguments are, and
    leaves the globals alone.  It speaks exactly one message, the last
    thing it does: a confirmation when the platform could be opened, an
    apology otherwise. *)
Theorem play_media_speaks_once :
  forall w query platform lang st,
    exists ev msg,
      play_media w query platform lang st
      = ((ev ++ [Speak msg lang])%list, st, Ok tt)
      /\ spoken ev = [].
Proof. intros. apply play_media_speaks_once_run. Qed.

Lemma bind_oblivious {A B} (m : M A) (k : A -> M B) ev a (st : store) :
  (forall st', m st' = (ev, st', Ok a)) ->
  bind m k st
  = match k a st with (ev', st', r) => ((ev ++ ev')%list, st', r) end.
Proof. intros E. unfold bind. now rewrite E. Qed.

(** Run a handler to its end. *)
Ltac crunch :=
  repeat first
    [ mstep
    | say
    | rewrite bind_raise
    | rewrite bind_set_last_generated_code
    | progress cbv iota beta ].

Lemma clipboard_paste_run w target lang :
  oblivious (clipboard_action w (VStr "paste") target lang).
Proof.
  exists (events_of (clipboard_action w (VStr "paste") target lang fresh)),
         (result_of (clipboard_action w (VStr "paste") target lang fresh)).
  intros st.
  unfold clipboard_action, try_except, events_of, result_of. cbv zeta.
  change (is_str (VStr "paste") "copy_paste") with false.
  change (is_str (VStr "paste") "paste") with true. cbv iota.
  destruct target as [| | |t| |];
    try (unfold as_str; crunch; reflexivity).
  unfold as_str. crunch.
  destruct (found (find_app w t)) as [app_path|]; [|crunch; reflexivity].
  destruct (launch_app_run w app_path) as [ev [b [E _]]].
  rewrite !(@bind_oblivious _ _ _ _ _ _ _ E).
  destruct b; [|crunch; reflexivity].
  unfold pyautogui_hotkey. destruct (hotkey_ok w); crunch; reflexivity.
Qed.

Lemma clipboard_action_returns w action target lang st :
  exists ev, clipboard_action w action target lang st = (ev, st, Ok tt).
Proof.
  unfold clipboard_action, try_except. cbv zeta.
  destruct (is_str action "copy_paste").
  { crunch.
    destruct (negb (is_empty (last_generated_code st))); [|crunch; unfold ret; eauto].
    unfold pyperclip_copy. destruct (clipboard_ok w); [|crunch; unfold ret; eauto].
    crunch.
    destruct target as [| | |ts| |]; try (unfold as_str; crunch; unfold ret; eauto).
    unfold as_str. crunch.
    destruct (found (find_app w ts)) as [app_path|]; [|crunch; unfold ret; eauto].
    destruct (launch_app_run w app_path) as [ev [b [E _]]].
    rewrite (@bind_oblivious _ _ _ _ _ _ _ E).
    destruct b; [|crunch; unfold ret; eauto].
    unfold pyautogui_hotkey. destruct (hotkey_ok w); crunch; unfold ret; eauto. }
  destruct (is_str action "paste").
  { destruct target as [| | |ts| |]; try (unfold as_str; crunch; unfold ret; eauto).
    unfold as_str. crunch.
    destruct (found (find_app w ts)) as [app_path|]; [|crunch; unfold ret; eauto].
    destruct (launch_app_run w app_path) as [ev [b [E _]]].
    rewrite (@bind_oblivious _ _ _ _ _ _ _ E).
    destruct b; [|crunch; unfold ret; eauto].
    unfold pyautogui_hotkey. destruct (hotkey_ok w); crunch; unfold ret; eauto. }
  destruct (is_str action "copy"); [|crunch; unfold ret; eauto].
  crunch.
  destruct (negb (is_empty (last_generated_code st))); [|crunch; unfold ret; eauto].
  unfold pyperclip_copy. destruct (clipboard_ok w); crunch; unfold ret; eauto.
Qed.

(** X15.  [clipboard_action] never raises and never changes the
    globals, whatever its arguments are.  With the action "paste" it
    does not even read them: it behaves the same whether or not code is
    cached.  With "copy" and "copy_paste" and no cached code it says
    "No code to copy" and does nothing else: nothing reaches the
    clipboard and no application is started. *)
Theorem clipboard_action_guards :
  (forall w action target lang st,
      exists ev, clipboard_action w action target lang st = (ev, st, Ok tt))
  /\ (forall w target lang,
         oblivious (clipboard_action w (VStr "paste") target lang))
  /\ (forall w target lang st,
         last_generated_code st = EmptyString ->
         clipboard_action w (VStr "copy") target lang st
         = ([Speak (pick lang "No code to copy" "Copy panna code illai") lang],
            st, Ok tt)
         /\ clipboard_action w (VStr "copy_paste") target lang st
            = ([Speak (pick lang "No code to copy" "Copy panna code illai")
                      lang], st, Ok tt)).
Proof.
  split; [exact clipboard_action_returns|].
  split; [exact clipboard_paste_run|].
  intros w target lang st H.
  unfold clipboard_action, try_except. cbv zeta.
  change (is_str (VStr "copy") "copy_paste") with false.
  change (is_str (VStr "copy") "paste") with false.
  change (is_str (VStr "copy") "copy") with true.
  change (is_str (VStr "copy_paste") "copy_paste") with true.
  cbv iota. split; crunch; rewrite H; cbn [is_empty negb]; crunch;
    reflexivity.
Qed.

Lemma clipboard_action_guards_witness :
  last_generated_code fresh = EmptyString
  /\ clipboard_action bare_world (VStr "copy") (VStr "notepad") "ta" fresh
     = ([Speak "Copy panna code illai" "ta"], fresh, Ok tt).
Proof.
  split; [reflexivity|].
  apply (proj1 (proj2 (proj2 clipboard_action_guards) bare_world
                      (VStr "notepad") "ta" fresh eq_refl)).
Defined.

(** ** What the handlers leave of the session *)

Lemma ks_ret {A} (a : A) : keeps_session (ret a).
Proof. intros st ev st' r [= _ <- _]. auto. Qed.

Lemma ks_raise {A} (e : exn) : keeps_session (@raise A e).
Proof. intros st ev st' r [= _ <- _]. auto. Qed.

Lemma ks_tell (e : event) : keeps_session (tell e).
Proof. intros st ev st' r [= _ <- _]. auto. Qed.

Lemma ks_get_store : keeps_session get_store.
Proof. intros st ev st' r [= _ <- _]. auto. Qed.

Lemma ks_speak (text lang : string) : keeps_session (speak text lang).
Proof.
  unfold speak. destruct (_ || _); [apply ks_ret|apply ks_tell].
Qed.

Lemma ks_bind {A B} (m : M A) (k : A -> M B) :
  keeps_session m -> (forall a, keeps_session (k a)) ->
  keeps_session (bind m k).
Proof.
  intros Hm Hk st ev st' r. unfold bind.
  destruct (m st) as [[ev1 st1] [a|e]] eqn:E1.
  - destruct (k a st1) as [[ev2 st2] r2] eqn:E2. intros [= _ <- _].
    destruct (Hm _ _ _ _ E1) as [H1 H2].
    destruct (Hk a _ _ _ _ E2) as [H3 H4]. split; congruence.
  - intros [= _ <- _]. exact (Hm _ _ _ _ E1).
Qed.

Lemma ks_try_except {A} (m : M A) (h : exn -> M A) :
  keeps_session m -> (forall e, keeps_session (h e)) ->
  keeps_session (try_except m h).
Proof.
  intros Hm Hh st ev st' r. unfold try_except.
  destruct (m st) as [[ev1 st1] [a|e]] eqn:E1.
  - intros [= _ <- _]. exact (Hm _ _ _ _ E1).
  - destruct (h e st1) as [[ev2 st2] r2] eqn:E2. intros [= _ <- _].
    destruct (Hm _ _ _ _ E1) as [H1 H2].
    destruct (Hh e _ _ _ _ E2) as [H3 H4]. split; congruence.
Qed.

Lemma ks_try_except_called {A} (m h : M A) :
  keeps_session m -> keeps_session h ->
  keeps_session (try_except_called m h).
Proof.
  intros Hm Hh st ev st' r. unfold try_except_called.
  destruct (m st) as [[ev1 st1] [a|e]] eqn:E1.
  - intros [= _ <- _]. exact (Hm _ _ _ _ E1).
  - destruct e; try (intros [= _ <- _]; exact (Hm _ _ _ _ E1)).
    destruct (h st1) as [[ev2 st2] r2] eqn:E2. intros [= _ <- _].
    destruct (Hm _ _ _ _ E1) as [H1 H2].
    destruct (Hh _ _ _ _ E2) as [H3 H4]. split; congruence.
Qed.

Lemma ks_set_last_generated_code (c : string) :
  keeps_session (set_last_generated_code c).
Proof.
  intros st ev st' r. unfold set_last_generated_code.
  rewrite bind_get_store. unfold put_store. intros [= _ <- _]. auto.
Qed.

Lemma ks_index k table : keeps_session (index k table).
Proof.
  induction table as [|[k' v] t IH]; simpl; [apply ks_raise|].
  destruct (String.eqb k k'); [apply ks_ret|exact IH].
Qed.

Lemma ks_launch_app w p : keeps_session (launch_app w p).
Proof.
  intros st ev st' r E.
  destruct (launch_app_run w p) as [ev0 [b [E0 _]]].
  rewrite E0 in E. injection E as _ <- _. auto.
Qed.

Lemma ks_query_ollama_smart w prompt query task_type :
  keeps_session (query_ollama_smart w prompt query task_type).
Proof.
  intros st ev st' r. rewrite query_ollama_smart_run. intros [= _ <- _].
  apply store_after_lang.
Qed.

Lemma ks_get_ai_intent w text : keeps_session (get_ai_intent w text).
Proof.
  intros st ev st' r. rewrite get_ai_intent_run. intros [= _ <- _].
  apply store_after_lang.
Qed.

(** Decompose a computation into the pieces above. *)
Ltac ks_step :=
  first
    [ solve [auto]
    | apply ks_ret | apply ks_raise | apply ks_tell | apply ks_speak
    | apply ks_get_store | apply ks_index | apply ks_launch_app
    | apply ks_query_ollama_smart | apply ks_get_ai_intent
    | apply ks_set_last_generated_code
    | apply ks_bind; [|intros ?]
    | apply ks_try_except; [|intros ?]
    | apply ks_try_except_called
    | progress cbv zeta
    | match goal with
      | |- keeps_session (if ?c then _ else _) => destruct c
      | |- keeps_session (match ?x with _ => _ end) => destruct x
      end ].

Ltac ks := repeat ks_step.

Lemma ks_primitives w :
  (forall p sh, keeps_session (popen w p sh))
  /\ (forall u, keeps_session (webbrowser_open w u))
  /\ (forall t, keeps_session (pyperclip_copy w t))
  /\ (forall k, keeps_session (pyautogui_hotkey w k))
  /\ (forall p, keeps_session (run_taskkill w p)).
Proof.
  unfold popen, webbrowser_open, pyperclip_copy, pyautogui_hotkey,
    run_taskkill.
  split; [|split; [|split; [|split]]]; intros; ks.
Qed.

Lemma ks_as_str v : keeps_session (as_str v).
Proof. unfold as_str. ks. Qed.

Lemma ks_str_method v : keeps_session (str_method v).
Proof. unfold str_method. ks. Qed.

Lemma ks_tools w t args lang : keeps_session (TOOLS w t args lang).
Proof.
  destruct (ks_primitives w) as [Hp [Hb [Hc [Hh Hk]]]].
  pose proof ks_as_str as Ha. pose proof ks_str_method as Hm.
  assert (Hd : forall q p, keeps_session (discovery_play_media w q p)).
  { intros q p st ev st' r E.
    destruct (discovery_play_media_run w q p st) as [ev0 [b [E0 _]]].
    rewrite E0 in E. injection E as _ <- _. auto. }
  unfold TOOLS.
  destruct t; destruct args as [|a1 [|a2 [|a3 rest]]]; try apply ks_raise.
  - unfold open_app. ks; auto.
  - unfold close_app. ks; auto.
  - unfold search_web. ks; auto.
  - unfold system_control. ks; auto.
  - unfold play_media. ks; auto.
  - unfold clipboard_action. cbv zeta. ks; auto.
  - unfold general_chat. cbv zeta. ks; auto.
Qed.

(** ** From the fallback classifier to the handlers *)

Lemma try_except_ok {A} (m : M A) (h : exn -> M A) st ev st' a :
  m st = (ev, st', Ok a) -> try_except m h st = (ev, st', Ok a).
Proof. intros E. unfold try_except. now rewrite E. Qed.

Lemma speak_run (text lang : string) :
  exists ev, forall st, speak text lang st = (ev, st, Ok tt).
Proof.
  unfold speak. destruct (_ || _); eexists; intros st; reflexivity.
Qed.

Lemma system_control_returns w action lang st :
  exists ev, system_control w (VStr action) lang st = (ev, st, Ok tt).
Proof.
  unfold system_control, as_str. crunch.
  destruct (found (find_app w action)) as [app_path|]; [|crunch; eauto].
  destruct (startswith "system:" app_path); [|crunch; eauto].
  destruct (launch_app_run w app_path) as [ev [b [E _]]].
  destruct (lookup action action_messages) as [msgs|].
  - destruct (speak_run (pick lang (fst msgs) (snd msgs)) lang) as [ev1 E1].
    rewrite (@bind_oblivious _ _ _ _ _ _ _ E1).
    rewrite (@bind_oblivious _ _ _ _ _ _ _ E).
    destruct b; crunch; unfold ret; eauto.
  - crunch. rewrite (@bind_oblivious _ _ _ _ _ _ _ E).
    destruct b; crunch; unfold ret; eauto.
Qed.

Lemma fallback_intent_runs w text lang st :
  (forall p, taskkill w p <> KillFailed) ->
  exists args ev st',
    forallb is_str_value args = true
    /\ dispatch_of (handle_fallback text) lang
       = Calls (first_match fallback_rules (lower text)) args
    /\ TOOLS w (first_match fallback_rules (lower text)) args lang st
       = (ev, st', Ok tt).
Proof.
  intros Hkill. unfold handle_fallback, fallback_rules. cbv zeta.
  cbn [first_match].
  destruct (any_in media_words (lower text)).
  { eexists [VStr _; VStr _].
    destruct (play_media_speaks_once_run w (VStr (strip_words
                ["play"; "kelu"; "pottu"; "on"; "in"; "la";
                 fallback_platform (lower text)] (lower text)))
                (VStr (fallback_platform (lower text))) lang st)
      as [ev [msg [E _]]].
    eexists _, _. split; [reflexivity|]. split; [reflexivity|exact E]. }
  destruct (any_in clipboard_words (lower text)).
  { eexists [VStr _; VStr _].
    destruct (clipboard_action_returns w
                (VStr (fallback_clip_action (lower text)))
                (VStr (fallback_clip_target (lower text))) lang st)
      as [ev E].
    eexists _, _. split; [reflexivity|]. split; [reflexivity|exact E]. }
  destruct (any_in system_words (lower text)).
  { eexists [VStr _].
    destruct (system_control_returns w
                (fallback_system_action (lower text)) lang st) as [ev E].
    eexists _, _. split; [reflexivity|]. split; [reflexivity|exact E]. }
  destruct (any_in open_words (lower text)).
  { eexists [VStr _].
    destruct (proj1 (open_app_speaks_once_run w lang st)
                (strip_words open_fillers
                   (strip_words open_words (lower text))))
      as [ev [msg [E _]]].
    eexists _, _. split; [reflexivity|]. split; [reflexivity|exact E]. }
  destruct (any_in close_words (lower text)).
  { eexists [VStr _].
    pose proof (close_app_outcomes_run w
                  (strip_words close_words (lower text)) lang st) as E.
    destruct (lookup _ process_map) as [p|].
    - pose proof (Hkill p) as Hp.
      destruct (taskkill w p); [| |congruence];
        eexists _, _; (split; [reflexivity|]);
        (split; [reflexivity|exact E]).
    - eexists _, _. split; [reflexivity|]. split; [reflexivity|exact E]. }
  destruct (any_in search_words (lower text)).
  { eexists [VStr _].
    destruct (search_web_speaks_once_run w
                (VStr (strip_words search_fillers (lower text))) lang st)
      as [ev [msg [E _]]].
    eexists _, _. split; [reflexivity|]. split; [reflexivity|exact E]. }
  eexists [VStr _].
  destruct (general_chat_speaks_once_run w text lang st)
    as [msg [st' [E _]]].
  eexists _, _. split; [reflexivity|]. split; [reflexivity|exact E].
Qed.

(** X16.  An intent built by the fallback classifier always reaches the
    handler of its tool, with string arguments only, and that handler
    returns normally: the dispatcher runs it and its catch-all is not
    used, so the generic apology is not spoken.  The one exception is a
    machine on which [taskkill] itself cannot be started. *)
Theorem fallback_intents_run_their_handler :
  forall w text lang st,
    (forall p, taskkill w p <> KillFailed) ->
    exists args ev st',
      forallb is_str_value args = true
      /\ dispatch_of (handle_fallback text) lang
         = Calls (first_match fallback_rules (lower text)) args
      /\ execute_command (TOOLS w) (handle_fallback text) lang st
         = TOOLS w (first_match fallback_rules (lower text)) args lang st
      /\ execute_command (TOOLS w) (handle_fallback text) lang st
         = (ev, st', Ok tt).
Proof.
  intros w text lang st Hkill.
  destruct (fallback_intent_runs w text lang st Hkill)
    as [args [ev [st' [Hs [Hd Hr]]]]].
  exists args, ev, st'. split; [exact Hs|]. split; [exact Hd|].
  rewrite execute_command_dispatch, Hd.
  rewrite (@try_except_ok _ _ _ _ _ _ _ Hr). auto.
Qed.

Lemma fallback_intents_run_their_handler_witness :
  exists args ev st',
    forallb is_str_value args = true
    /\ dispatch_of (handle_fallback "close the door") "en"
       = Calls (first_match fallback_rules (lower "close the door")) args
    /\ execute_command (TOOLS bare_world) (handle_fallback "close the door")
         "en" fresh
       = TOOLS bare_world (first_match fallback_rules (lower "close the door"))
           args "en" fresh
    /\ execute_command (TOOLS bare_world) (handle_fallback "close the door")
         "en" fresh
       = (ev, st', Ok tt).
Proof.
  apply (fallback_intents_run_their_handler bare_world "close the door" "en"
           fresh).
  intros p. discriminate.
Defined.

Lemma strip_words_trimmed (words : list string) (s : string) :
  words <> [] -> strip (strip_words words s) = strip_words words s.
Proof.
  unfold strip_words. revert s.
  induction words as [|w ws IH]; intros s H; [congruence|].
  simpl. destruct ws as [|w' ws'].
  - simpl. apply strip_idem.
  - apply IH. discriminate.
Qed.

(** X17.  What the fallback classifier can put into an intent.  A media
    intent always names a platform of the media table (so the handler
    never meets an unsupported platform) and carries a trimmed query; a
    clipboard intent always has one of the three actions the handler
    knows and a target the manual mapping has candidates for. *)
Theorem fallback_parameters_in_range :
  forall text,
    (any_in media_words (lower text) = true ->
     exists q p,
       handle_fallback text
       = mk_intent play_media_t [("query", VStr q); ("platform", VStr p)]
       /\ lookup (clean_app_name p) media_platforms <> None
       /\ strip q = q)
    /\ (any_in media_words (lower text) = false ->
        any_in clipboard_words (lower text) = true ->
        exists a t,
          handle_fallback text
          = mk_intent clipboard_action_t
              [("action", VStr a); ("target_app", VStr t)]
          /\ mem a ["copy"; "paste"; "copy_paste"] = true
          /\ forall user, lookup (clean_app_name t) (app_search user) <> None).
Proof.
  intros text. unfold handle_fallback. cbv zeta. split.
  - intros ->. eexists _, _. split; [reflexivity|]. split.
    + unfold fallback_platform.
      destruct (contains "spotify" (lower text)); [vm_compute; discriminate|].
      destruct (contains "soundcloud" (lower text)); vm_compute; discriminate.
    + apply strip_words_trimmed. discriminate.
  - intros -> ->. eexists _, _. split; [reflexivity|]. split.
    + unfold fallback_clip_action.
      destruct (_ && _); [reflexivity|]. destruct (_ && _); reflexivity.
    + intros user. unfold fallback_clip_target.
      destruct (_ || _); [discriminate|].
      destruct (contains "notepad++" (lower text)); discriminate.
Qed.

Lemma fallback_parameters_in_range_witness :
  exists q p,
    handle_fallback "Spotify la ilayaraja pattu pottu"
    = mk_intent play_media_t [("query", VStr q); ("platform", VStr p)]
    /\ lookup (clean_app_name p) media_platforms <> None
    /\ strip q = q.
Proof.
  apply (proj1 (fallback_parameters_in_range
                  "Spotify la ilayaraja pattu pottu")).
  reflexivity.
Defined.

(** ** The command entry point *)

Lemma ks_execute_command w intent lang :
  keeps_session (execute_command (TOOLS w) intent lang).
Proof.
  pose proof (ks_tools w) as Ht.
  unfold execute_command, call_tool, tools_lookup. ks.
Qed.

Lemma ks_handle_command w text lang : keeps_session (handle_command w text lang).
Proof.
  pose proof (ks_execute_command w) as He.
  unfold handle_command. ks.
Qed.

Lemma index_missing lang (en ta : string) :
  String.eqb lang "en" = false -> String.eqb lang "ta" = false ->
  index lang [("en", en); ("ta", ta)] = raise KeyError.
Proof. intros H1 H2. simpl. now rewrite H1, H2. Qed.

Lemma handle_command_run w text lang st :
  lang = "en" \/ lang = "ta" ->
  exists ev st',
    handle_command w text lang st = (ev, st', Ok tt)
    /\ if (len (strip text) <? 2)%nat
       then ev = [] /\ st' = st
       else exists rest,
           ev = Emit "log_message" (strip text)
                :: Emit "status_update" "🤖 Processing with AI..." :: rest.
Proof.
  intros Hlang. unfold handle_command, try_except. cbv zeta.
  destruct (len (strip text) <? 2)%nat.
  { exists [], st. split; [reflexivity|auto]. }
  crunch. unfold bind at 1. rewrite get_ai_intent_run. cbv iota beta.
  destruct (negb (has_tool _)).
  - destruct Hlang as [-> | ->]; simpl index; crunch;
      eexists _, _; (split; [reflexivity|eauto]).
  - unfold bind at 1.
    pose proof (execute_command_returns (TOOLS w)
                  (intent_of_reply (strip text)
                     (reply_of (intent_run w (strip text)))) lang
                  (store_after (intent_run w (strip text)) st)) as Hr.
    destruct (execute_command _ _ _ _) as [[ev1 st1] r1].
    unfold result_of, snd in Hr. subst r1. crunch. unfold tell.
    eexists _, _. split; [reflexivity|eauto].
Qed.

Lemma handle_command_session w text lang st :
  lang = "en" \/ lang = "ta" ->
  exists ev st',
    handle_command w text lang st = (ev, st', Ok tt)
    /\ current_lang st' = current_lang st
    /\ consecutive_failures st' = consecutive_failures st
    /\ if (len (strip text) <? 2)%nat
       then ev = [] /\ st' = st
       else exists rest,
           ev = Emit "log_message" (strip text)
                :: Emit "status_update" "🤖 Processing with AI..." :: rest.
Proof.
  intros Hlang.
  destruct (handle_command_run w text st Hlang) as [ev [st' [E H]]].
  exists ev, st'. split; [exact E|].
  pose proof (@ks_handle_command w text lang) as K.
  destruct (K _ _ _ _ E) as [H1 H2]. auto.
Qed.

(** X18.  In either session language [handle_command] never raises and
    leaves the session language and the failure counter as they were.
    A command whose trimmed form has fewer than two characters is
    dropped without a trace; any other is logged and announced before
    it is classified. *)
Theorem handle_command_total :
  forall w text lang st,
    lang = "en" \/ lang = "ta" ->
    exists ev st',
      handle_command w text lang st = (ev, st', Ok tt)
      /\ current_lang st' = current_lang st
      /\ consecutive_failures st' = consecutive_failures st
      /\ if (len (strip text) <? 2)%nat
         then ev = [] /\ st' = st
         else exists rest,
             ev = Emit "log_message" (strip text)
                  :: Emit "status_update" "🤖 Processing with AI..." :: rest.
Proof. intros. now apply handle_command_session. Qed.

Lemma handle_command_total_witness :
  exists ev st',
    handle_command bare_world " é " "ta" fresh = (ev, st', Ok tt)
    /\ current_lang st' = current_lang fresh
    /\ consecutive_failures st' = consecutive_failures fresh
    /\ if (len (strip " é ") <? 2)%nat
       then ev = [] /\ st' = fresh
       else exists rest,
           ev = Emit "log_message" (strip " é ")
                :: Emit "status_update" "🤖 Processing with AI..." :: rest.
Proof.
  apply (@handle_command_total bare_world " é " "ta" fresh). right. reflexivity.
Defined.

(** X19.  In any other language [handle_command] lets a [KeyError]
    escape when the classification has no tool key: the table of the
    "not understood" answer has no entry for the language, and neither
    has the table its own error handler reads. *)
Theorem handle_command_unknown_language :
  forall w text lang st st' intent,
    String.eqb lang "en" = false ->
    String.eqb lang "ta" = false ->
    (len (strip text) <? 2)%nat = false ->
    get_ai_intent w (strip text) st = ([], st', Ok intent) ->
    has_tool intent = false ->
    handle_command w text lang st
    = ([Emit "log_message" (strip text);
        Emit "status_update" "🤖 Processing with AI..."], st',
       Raised KeyError).
Proof.
  intros w text lang st st' intent H1 H2 Hlen Hget Hno.
  unfold handle_command, try_except. cbv zeta. rewrite Hlen.
  crunch. unfold bind at 1. rewrite Hget. cbv iota beta. rewrite Hno.
  cbn [negb]. rewrite !index_missing by assumption. crunch. reflexivity.
Qed.

Lemma handle_command_unknown_language_witness :
  handle_command (answering (unq "{`speech`: `open chrome`}")) "open chrome"
                 "fr" fresh
  = ([Emit "log_message" "open chrome";
      Emit "status_update" "🤖 Processing with AI..."], fresh,
     Raised KeyError).
Proof.
  apply (@handle_command_unknown_language
           (answering (unq "{`speech`: `open chrome`}")) "open chrome" "fr"
           fresh fresh (VDict [("speech", VStr "open chrome")]));
    vm_compute; reflexivity.
Defined.

(** ** The listener *)

Lemma listener_turn_plain w handle text detected_lang second st :
  is_empty text = false ->
  detect_wake_word (isalnum w) (strip text) = false ->
  listener_turn w handle (Some (text, detected_lang)) second st
  = if is_direct_command (isalnum w) (strip text) then
      match handle (strip text) (current_lang (settled st detected_lang))
                   (settled st detected_lang) with
      | (ev, st', Ok _) =>
          ((listening
            ++ Emit "log_message" ("Direct command: " ++ strip text)
            :: ev ++ [Sleep 2])%list, st', Ok tt)
      | (ev, st', Raised e) =>
          ((listening
            ++ Emit "log_message" ("Direct command: " ++ strip text)
            :: ev ++ listener_error w e)%list, st', Ok tt)
      end
    else ((listening ++ [Sleep 2])%list, settled st detected_lang, Ok tt).
Proof.
  intros Hne Hwake.
  unfold listener_turn, try_except, unpack. cbv zeta.
  repeat mstep. cbn [fst snd]. rewrite Hne. repeat mstep. rewrite Hwake.
  cbn [current_lang last_generated_code consecutive_failures].
  fold (settled st detected_lang).
  destruct (is_direct_command (isalnum w) (strip text)).
  - unfold on_direct. repeat mstep. unfold bind at 1.
    destruct (handle _ _ _) as [[ev st2] [[]|e]];
      unfold listening, listener_error, tell, bind; cbn [app];
      rewrite ?app_nil_r; reflexivity.
  - repeat mstep. reflexivity.
Qed.

(** X20.  A turn that heard speech without a wake word never asks for a
    second capture and never speaks on its own.  It resets the failure
    counter and sets the language from the capture; then a direct
    command is logged and handed, trimmed, to the entry point in that
    language, and an exception of the entry point ends the turn in the
    error report; anything else is dropped after the pause. *)
Theorem listener_without_wake_word :
  forall w handle text detected_lang second st,
    is_empty text = false ->
    detect_wake_word (isalnum w) (strip text) = false ->
    listener_turn w handle (Some (text, detected_lang)) second st
    = if is_direct_command (isalnum w) (strip text) then
        match handle (strip text) (current_lang (settled st detected_lang))
                     (settled st detected_lang) with
        | (ev, st', Ok _) =>
            ((listening
              ++ Emit "log_message" ("Direct command: " ++ strip text)
              :: ev ++ [Sleep 2])%list, st', Ok tt)
        | (ev, st', Raised e) =>
            ((listening
              ++ Emit "log_message" ("Direct command: " ++ strip text)
              :: ev ++ listener_error w e)%list, st', Ok tt)
        end
      else ((listening ++ [Sleep 2])%list, settled st detected_lang, Ok tt).
Proof. intros. now apply listener_turn_plain. Qed.

Lemma listener_without_wake_word_witness :
  listener_turn bare_world (fun _ _ => raise KeyError)
                (Some ("café pannu", "ta")) None fresh
  = ((listening
      ++ Emit "log_message" "Direct command: café pannu"
      :: listener_error bare_world KeyError)%list,
     settled fresh "ta", Ok tt).
Proof.
  apply (@listener_without_wake_word bare_world (fun _ _ => raise KeyError)
           "café pannu" "ta" None fresh); reflexivity.
Defined.

Lemma listener_turn_empty w handle detected_lang second st :
  consecutive_failures st <= max_failures ->
  exists ev st',
    listener_turn w handle (Some (EmptyString, detected_lang)) second st
    = ((listening ++ ev)%list, st', Ok tt)
    /\ consecutive_failures st'
       = S (consecutive_failures st) mod S max_failures
    /\ current_lang st' = current_lang st
    /\ last_generated_code st' = last_generated_code st
    /\ ev = if (consecutive_failures st' =? 0)%nat then [Sleep 20] else [].
Proof.
  intros Hle.
  unfold listener_turn, try_except, unpack. cbv zeta.
  repeat mstep. cbn [fst snd is_empty]. repeat mstep.
  destruct (max_failures <? S (consecutive_failures st))%nat eqn:E.
  - repeat mstep. eexists _, _. split; [reflexivity|].
    cbn [consecutive_failures current_lang last_generated_code].
    apply Nat.ltb_lt in E. unfold max_failures in *.
    assert (consecutive_failures st = 5) as -> by lia.
    repeat split; reflexivity.
  - repeat mstep. exists [].
    eexists. split; [reflexivity|].
    cbn [consecutive_failures current_lang last_generated_code].
    apply Nat.ltb_ge in E. unfold max_failures in *.
    rewrite Nat.mod_small by lia. repeat split; reflexivity.
Qed.

(** X21.  An empty capture touches nothing but the failure counter: the
    language and the remembered code stay, the entry point is not
    called and nothing is spoken.  The counter runs modulo six: five
    empty captures in a row are retried at once, the sixth is followed
    by the two-second pause and starts the count again. *)
Theorem empty_capture_backs_off :
  forall w handle detected_lang second st,
    consecutive_failures st <= max_failures ->
    exists ev st',
      listener_turn w handle (Some (EmptyString, detected_lang)) second st
      = ((listening ++ ev)%list, st', Ok tt)
      /\ consecutive_failures st'
         = S (consecutive_failures st) mod S max_failures
      /\ current_lang st' = current_lang st
      /\ last_generated_code st' = last_generated_code st
      /\ ev = if (consecutive_failures st' =? 0)%nat then [Sleep 20] else [].
Proof. intros. now apply listener_turn_empty. Qed.

Lemma empty_capture_backs_off_witness :
  exists ev st',
    listener_turn bare_world (handle_command bare_world)
                  (Some (EmptyString, "en")) None fresh
    = ((listening ++ ev)%list, st', Ok tt)
    /\ consecutive_failures st'
       = S (consecutive_failures fresh) mod S max_failures
    /\ current_lang st' = current_lang fresh
    /\ last_generated_code st' = last_generated_code fresh
    /\ ev = if (consecutive_failures st' =? 0)%nat then [Sleep 20] else [].
Proof.
  apply (@empty_capture_backs_off bare_world (handle_command bare_world)
           "en" None fresh).
  vm_compute. lia.
Defined.

Lemma settled_lang st l :
  current_lang (settled st l) = "en" \/ current_lang (settled st l) = "ta".
Proof. unfold settled. cbn. destruct (starts_ta l); auto. Qed.

Lemma listener_turn_session w first second st :
  session_ok st ->
  exists ev st',
    continuous_listener_turn w first second st = (ev, st', Ok tt)
    /\ session_ok st'.
Proof.
  intros [Hlang Hcnt]. unfold continuous_listener_turn.
  destruct first as [[text detected_lang]|].
  - destruct text as [|c text'] eqn:Et.
    + destruct (@listener_turn_empty w (handle_command w) detected_lang
                  second st Hcnt) as [ev [st' [E [H1 [H2 [H3 H4]]]]]].
      eexists _, st'. split; [exact E|]. split.
      * unfold lang_ok. rewrite H2. exact Hlang.
      * rewrite H1. pose proof (Nat.mod_upper_bound
                                  (S (consecutive_failures st)) (S max_failures)).
        unfold max_failures in *. lia.
    + rewrite <- Et. assert (Hne : is_empty text = false) by (subst; reflexivity).
      clear Et.
      destruct (detect_wake_word (isalnum w) (strip text)) eqn:Hw.
      * rewrite (listener_turn_wake w (handle_command w) text detected_lang
                   second st Hne Hw).
        unfold wake_turn. cbv zeta. fold (settled st detected_lang).
        pose proof (settled_lang st detected_lang) as Hl.
        assert (Hok : session_ok (settled st detected_lang)).
        { split; [exact Hl|]. cbn. lia. }
        destruct second as [[command_text cmd_lang]|].
        -- destruct (2 <? len (strip command_text))%nat.
           ++ set (st1 := if starts_ta cmd_lang
                          then with_lang (settled st detected_lang) "ta"
                          else settled st detected_lang).
              assert (Hok1 : session_ok st1).
              { unfold st1. destruct (starts_ta cmd_lang); [|exact Hok].
                split; [right; reflexivity|]. cbn. lia. }
              destruct (@handle_command_session w command_text
                          (current_lang st1) st1 (proj1 Hok1))
                as [ev [st2 [E [H1 [H2 _]]]]].
              rewrite E. eexists _, _. split; [reflexivity|].
              destruct Hok1 as [Ha Hb]. split.
              ** unfold lang_ok. rewrite H1. exact Ha.
              ** rewrite H2. exact Hb.
           ++ eexists _, _. split; [reflexivity|exact Hok].
        -- eexists _, _. split; [reflexivity|exact Hok].
      * rewrite (listener_turn_plain w (handle_command w) text detected_lang
                   second st Hne Hw).
        pose proof (settled_lang st detected_lang) as Hl.
        assert (Hok : session_ok (settled st detected_lang)).
        { split; [exact Hl|]. cbn. lia. }
        destruct (is_direct_command (isalnum w) (strip text)).
        -- destruct (@handle_command_session w (strip text)
                       (current_lang (settled st detected_lang))
                       (settled st detected_lang) Hl)
             as [ev [st2 [E [H1 [H2 _]]]]].
           rewrite E. eexists _, _. split; [reflexivity|].
           destruct Hok as [Ha Hb]. split.
           ++ unfold lang_ok. rewrite H1. exact Ha.
           ++ rewrite H2. exact Hb.
        -- eexists _, _. split; [reflexivity|exact Hok].
  - eexists _, _. split; [reflexivity|]. split; assumption.
Qed.

(** X22.  One turn of the listener with the real entry point never
    raises, whatever the two captures are, and keeps the session in
    order: the language is "en" or "ta" and the failure counter is at
    most [max_failures]. *)
Theorem listener_keeps_session_in_order :
  forall w first second st,
    session_ok st ->
    exists ev st',
      continuous_listener_turn w first second st = (ev, st', Ok tt)
      /\ session_ok st'.
Proof. intros. now apply listener_turn_session. Qed.

Lemma listener_keeps_session_in_order_witness :
  exists ev st',
    continuous_listener_turn bare_world (Some ("hey pluto", "en"))
                             (Some ("notepad thorakku", "ta")) fresh
    = (ev, st', Ok tt)
    /\ session_ok st'.
Proof.
  apply (@listener_keeps_session_in_order bare_world (Some ("hey pluto", "en"))
           (Some ("notepad thorakku", "ta")) fresh).
  split; [left; reflexivity | vm_compute; lia].
Defined.

(** ** Speech capture *)

Lemma strip_short_not_long (t : string) :
  (1 <? len (strip t))%nat = false ->
  negb (is_empty t) && (1 <? len (strip t))%nat = false.
Proof. intros ->. apply andb_false_r. Qed.

(** X23.  What [listen_once] hands to the loop when it returns a pair:
    the text is trimmed and is either empty or at least two characters
    long; the language is "ta" exactly when the text has a Tamil
    keyword, "en" otherwise, and an empty text always comes with
    "en". *)
Theorem listen_once_shape :
  forall h text lang,
    listen_once h = Some (text, lang) ->
    strip text = text
    /\ (text = EmptyString \/ 2 <= len text)
    /\ lang = (if is_tamil_text text then "ta" else "en")
    /\ (text = EmptyString -> lang = "en").
Proof.
  intros h text lang H. destruct h as [t| | | |]; simpl in H;
    try (injection H as <- <-; repeat split; auto).
  destruct (negb (is_empty t) && (1 <? len (strip t))%nat) eqn:E;
    [|discriminate].
  injection H as <- <-. apply andb_prop in E. destruct E as [_ E].
  apply Nat.ltb_lt in E. split; [apply strip_idem|].
  split; [right; lia|]. split; [reflexivity|].
  intros H0. rewrite H0 in E. simpl in E. lia.
Qed.

Lemma listen_once_shape_witness :
  strip "notepad thorakku" = "notepad thorakku"
  /\ ("notepad thorakku" = EmptyString
      \/ 2 <= len "notepad thorakku")
  /\ "ta" = (if is_tamil_text "notepad thorakku" then "ta" else "en")
  /\ ("notepad thorakku" = EmptyString -> "ta" = "en").
Proof.
  apply (@listen_once_shape (Recognized "  notepad thorakku ")
           "notepad thorakku" "ta").
  reflexivity.
Defined.

(** X24.  A recognised utterance with at most one character besides
    blanks makes [listen_once] fall off its end; the loop cannot unpack
    the result, so the turn ends in its error report and the long pause,
    with the session untouched. *)
Theorem short_utterance_is_listener_error :
  forall w handle t second st,
    len (strip t) <= 1 ->
    listener_turn w handle (listen_once (Recognized t)) second st
    = ((listening ++ listener_error w TypeError)%list, st, Ok tt).
Proof.
  intros w handle t second st H. unfold listen_once.
  rewrite strip_short_not_long by (apply Nat.ltb_ge; lia).
  reflexivity.
Qed.

Lemma short_utterance_is_listener_error_witness :
  listener_turn bare_world (handle_command bare_world)
                (listen_once (Recognized " a ")) None fresh
  = ((listening ++ listener_error bare_world TypeError)%list, fresh, Ok tt).
Proof.
  apply (@short_utterance_is_listener_error bare_world
           (handle_command bare_world) " a " None fresh).
  vm_compute. lia.
Defined.

(** ** The socket handlers *)

Lemma change_language_run data st :
  exists ev st' r,
    change_language data st = (ev, st', r)
    /\ last_generated_code st' = last_generated_code st
    /\ consecutive_failures st' = consecutive_failures st
    /\ match data with
       | VDict d =>
           r = Ok tt
           /\ match dict_get "language" d with
              | None => current_lang st' = "en"
                        /\ ev = [Emit "status_update" "🌐 Language: English"]
              | Some (VStr l) =>
                  if String.eqb l "en" then
                    current_lang st' = "en"
                    /\ ev = [Emit "status_update" "🌐 Language: English"]
                  else if String.eqb l "ta" then
                    current_lang st' = "ta"
                    /\ ev = [Emit "status_update" "🌐 Language: Tamil"]
                  else st' = st /\ ev = []
              | Some _ => st' = st /\ ev = []
              end
       | _ => r = Raised AttributeError /\ st' = st /\ ev = []
       end.
Proof.
  unfold change_language.
  destruct data as [| b | n | s | l | d];
    try (eexists _, _, _; split; [reflexivity|]; repeat split; reflexivity).
  mstep. destruct (dict_get "language" d) as [[| b | n | s | l | d']|];
    try (eexists _, _, _; split; [reflexivity|]; repeat split; reflexivity).
  unfold mem, existsb.
  destruct (String.eqb s "en") eqn:E1.
  - apply String.eqb_eq in E1. subst s.
    eexists _, _, _; split; [reflexivity|]; repeat split; reflexivity.
  - destruct (String.eqb s "ta") eqn:E2.
    + apply String.eqb_eq in E2. subst s.
      eexists _, _, _; split; [reflexivity|]; repeat split; reflexivity.
    + eexists _, _, _; split; [reflexivity|]; repeat split; reflexivity.
Qed.

(** X25.  [change_language] on any payload: it touches nothing but the
    session language and leaves it "en" or "ta"; it raises exactly when
    the payload is not a dictionary; a supported language is set and
    reported, and when nothing is reported nothing has changed, so an
    unsupported language is ignored without a message. *)
Theorem change_language_guards :
  forall data st,
    lang_ok st ->
    exists ev st' r,
      change_language data st = (ev, st', r)
      /\ lang_ok st'
      /\ last_generated_code st' = last_generated_code st
      /\ consecutive_failures st' = consecutive_failures st
      /\ (r = Ok tt <-> exists d, data = VDict d)
      /\ (ev = [] -> st' = st)
      /\ (forall d l, data = VDict d ->
            dict_get "language" d = Some (VStr l) ->
            mem l ["en"; "ta"] = true ->
            current_lang st' = l /\ ev <> []).
Proof.
  intros data st Hok.
  destruct (change_language_run data st) as [ev [st' [r [E [H1 [H2 H]]]]]].
  exists ev, st', r. split; [exact E|].
  split; [|split; [exact H1|split; [exact H2|]]].
  - unfold lang_ok in *.
    destruct data as [| b | n | s | l | d];
      try (destruct H as [_ [-> _]]; exact Hok).
    destruct H as [_ H].
    destruct (dict_get "language" d) as [[| b | n | s | l | d']|];
      try (destruct H as [-> _]; exact Hok); try (left; tauto).
    destruct (String.eqb s "en"); [left; tauto|].
    destruct (String.eqb s "ta"); [right; tauto|].
    destruct H as [-> _]; exact Hok.
  - destruct data as [| b | n | s | l | d];
      try (destruct H as [-> [-> ->]];
           split; [split; [discriminate | intros [d0 Hd]; discriminate]|];
           split; [intros _; reflexivity | intros d0 l0 Hd; discriminate]).
    destruct H as [-> H]. split; [split; eauto|].
    destruct (dict_get "language" d) as [[| b | n | s | l | d']|] eqn:Eg;
      try (destruct H as [-> ->];
           split; [intros _; reflexivity
                  | intros d0 l0 Hd Hg; injection Hd as <-; congruence]);
      try (destruct H as [_ ->];
           split; [discriminate
                  | intros d0 l0 Hd Hg; injection Hd as <-; congruence]).
    destruct (String.eqb s "en") eqn:E1.
    { apply String.eqb_eq in E1. subst s. destruct H as [Hl ->].
      split; [discriminate|]. intros d0 l0 Hd Hg _. injection Hd as <-.
      rewrite Eg in Hg. injection Hg as <-.
      split; [exact Hl | discriminate]. }
    destruct (String.eqb s "ta") eqn:E2.
    { apply String.eqb_eq in E2. subst s. destruct H as [Hl ->].
      split; [discriminate|]. intros d0 l0 Hd Hg _. injection Hd as <-.
      rewrite Eg in Hg. injection Hg as <-.
      split; [exact Hl | discriminate]. }
    destruct H as [-> ->]. split; [intros _; reflexivity|].
    intros d0 l0 Hd Hg Hm. injection Hd as <-.
    rewrite Eg in Hg. injection Hg as <-.
    unfold mem, existsb in Hm. rewrite E1, E2 in Hm. discriminate.
Qed.

Lemma change_language_guards_witness :
  exists ev st' r,
    change_language (VDict [("language", VStr "ta")]) fresh = (ev, st', r)
    /\ lang_ok st'
    /\ last_generated_code st' = last_generated_code fresh
    /\ consecutive_failures st' = consecutive_failures fresh
    /\ (r = Ok tt <-> exists d, VDict [("language", VStr "ta")] = VDict d)
    /\ (ev = [] -> st' = fresh)
    /\ (forall d l, VDict [("language", VStr "ta")] = VDict d ->
          dict_get "language" d = Some (VStr l) ->
          mem l ["en"; "ta"] = true ->
          current_lang st' = l /\ ev <> []).
Proof.
  apply (@change_language_guards (VDict [("language", VStr "ta")]) fresh).
  left. reflexivity.
Defined.

(** ** [search_youtube] *)

Lemma replace_blank_length (s : string) :
  String.length (replace " " "+" s) = String.length s.
Proof.
  unfold replace. induction s as [|c r IH]; [reflexivity|].
  cbn [replace_from]. destruct (startswith " " (String c r));
    cbn [String.length Nat.sub append]; simpl; now rewrite IH.
Qed.

Lemma replace_blank_none (s : string) :
  all_chars (fun c => negb (Ascii.eqb c " ")) (replace " " "+" s) = true.
Proof.
  unfold replace. induction s as [|c r IH]; [reflexivity|].
  cbn [replace_from]. destruct (startswith " " (String c r)) eqn:E.
  - simpl. exact IH.
  - cbn [all_chars]. cbn [startswith] in E. rewrite andb_true_r in E.
    rewrite Ascii.eqb_sym, E. exact IH.
Qed.

Lemma search_youtube_run w query st :
  let url := "https://www.youtube.com/results?search_query="
             ++ replace " " "+" query in
  search_youtube w query st
  = if browser_ok w url
    then ([OpenUrl url; Speak ("Searching YouTube for " ++ query) "en"],
          st, Ok true)
    else ([Speak ("Failed to search YouTube: " ++ exn_text w OSError) "en"],
          st, Ok false).
Proof.
  cbv zeta. unfold search_youtube, try_except, webbrowser_open.
  destruct (browser_ok w _); crunch; reflexivity.
Qed.

(** X26.  [search_youtube] never raises and speaks exactly once: it
    returns [True] after opening the search page and announcing it, and
    [False], with the failure spoken, when the browser cannot be
    started.  The query part of the address is as long as the query and
    has no blank left in it. *)
Theorem search_youtube_outcome :
  forall w query st,
    exists q,
      String.length q = String.length query
      /\ all_chars (fun c => negb (Ascii.eqb c " ")) q = true
      /\ let url := "https://www.youtube.com/results?search_query=" ++ q in
         search_youtube w query st
         = if browser_ok w url
           then ([OpenUrl url; Speak ("Searching YouTube for " ++ query) "en"],
                 st, Ok true)
           else ([Speak ("Failed to search YouTube: " ++ exn_text w OSError)
                        "en"],
                 st, Ok false).
Proof.
  intros w query st. exists (replace " " "+" query).
  split; [apply replace_blank_length|].
  split; [apply replace_blank_none|]. apply search_youtube_run.
Qed.

(** ** What the patterns look for *)

Lemma is_suffix_refl (s : string) : is_suffix s s.
Proof. exists 0. reflexivity. Qed.

Lemma is_suffix_tail (t : string) (c : ascii) (r : string) :
  is_suffix t r -> is_suffix t (String c r).
Proof. intros [n H]. exists (S n). exact H. Qed.

Lemma drop_drop (n m : nat) (s : string) : drop n (drop m s) = drop (m + n) s.
Proof.
  revert s. induction m as [|m IH]; intros s; [reflexivity|].
  destruct s as [|c r]; simpl; [destruct n; reflexivity | apply IH].
Qed.

Lemma is_suffix_trans (a b c : string) :
  is_suffix a b -> is_suffix b c -> is_suffix a c.
Proof.
  intros [n Hn] [m Hm]. exists (m + n). now rewrite <- drop_drop, Hm.
Qed.

Lemma contains_suffix (t s' s : string) :
  is_suffix s' s -> startswith t s' = true -> contains t s = true.
Proof.
  intros [n Hn]. revert s Hn. induction n as [|n IH]; intros s Hn Hs.
  - simpl in Hn. subst s'. destruct s; simpl; now rewrite Hs.
  - destruct s as [|c r]; simpl in Hn.
    + subst s'. simpl. now rewrite Hs.
    + simpl. rewrite (IH r Hn Hs). apply orb_true_r.
Qed.

Lemma contains_inv (t s : string) :
  contains t s = true ->
  exists s', is_suffix s' s /\ startswith t s' = true.
Proof.
  induction s as [|c r IH]; simpl; intros H.
  - rewrite orb_false_r in H. exists EmptyString.
    split; [apply is_suffix_refl | exact H].
  - apply orb_prop in H. destruct H as [H | H].
    + exists (String c r). split; [apply is_suffix_refl | exact H].
    + destruct (IH H) as [s' [Hs Ht]]. exists s'.
      split; [now apply is_suffix_tail | exact Ht].
Qed.

Lemma startswith_app (a b s : string) :
  startswith (a ++ b) s = true ->
  startswith b (drop (String.length a) s) = true.
Proof.
  revert s. induction a as [|x a IH]; intros s H; [exact H|].
  destruct s as [|y r]; simpl in H; [discriminate|].
  apply andb_prop in H. simpl. apply IH. tauto.
Qed.

Lemma contains_app (a b s : string) :
  contains (a ++ b) s = true -> contains b s = true.
Proof.
  intros H. destruct (contains_inv _ _ H) as [s' [Hs Ht]].
  apply (@contains_suffix b (drop (String.length a) s') s).
  - apply (@is_suffix_trans _ s' _); [|exact Hs]. now exists (String.length a).
  - now apply startswith_app.
Qed.

Lemma startswith_prefix (a b s : string) :
  startswith (a ++ b) s = true -> startswith a s = true.
Proof.
  revert s. induction a as [|x a IH]; intros s H; [reflexivity|].
  destruct s as [|y r]; simpl in H; [discriminate|].
  apply andb_prop in H. simpl. rewrite (proj1 H). simpl. apply IH. tauto.
Qed.

Lemma contains_prefix (a b s : string) :
  contains (a ++ b) s = true -> contains a s = true.
Proof.
  intros H. destruct (contains_inv _ _ H) as [s' [Hs Ht]].
  apply (@contains_suffix a s' s Hs). now apply (@startswith_prefix a b).
Qed.

Lemma span_cont_suffix (s : string) : is_suffix (snd (span_cont s)) s.
Proof.
  induction s as [|c r IH]; [apply is_suffix_refl|].
  cbn [span_cont]. destruct (is_cont c); [|apply is_suffix_refl].
  destruct (span_cont r) as [k rest]. apply is_suffix_tail. exact IH.
Qed.

Lemma span_cont_none (s rest : string) :
  span_cont s = (EmptyString, rest) -> rest = s.
Proof.
  destruct s as [|c r]; cbn [span_cont]; [now intros [= <-]|].
  destruct (is_cont c); [|now intros [= <-]].
  destruct (span_cont r); discriminate.
Qed.

Lemma next_char_suffix (s ch rest : string) :
  next_char s = Some (ch, rest) -> is_suffix rest s.
Proof.
  destruct s as [|c r]; [discriminate|]. unfold next_char.
  pose proof (span_cont_suffix r) as H.
  destruct (span_cont r) as [k rest']. intros [= _ <-].
  apply is_suffix_tail. exact H.
Qed.

Lemma next_char_single (s : string) (c : ascii) (rest : string) :
  next_char s = Some (String c EmptyString, rest) -> s = String c rest.
Proof.
  destruct s as [|b r]; [discriminate|]. unfold next_char.
  destruct (span_cont r) as [k rest'] eqn:E. intros [= -> -> <-].
  now rewrite (span_cont_none _ E).
Qed.

Lemma star_from_suffix (step : Re.pos -> list Re.pos) :
  (forall p q, In q (step p) -> is_suffix (snd q) (snd p)) ->
  forall fuel p q, In q (Re.star_from step fuel p) ->
    is_suffix (snd q) (snd p).
Proof.
  intros Hstep. induction fuel as [|n IH]; intros p q H.
  - simpl in H. destruct H as [<- | []]. apply is_suffix_refl.
  - simpl in H. destruct H as [<- | H]; [apply is_suffix_refl|].
    apply in_flat_map in H. destruct H as [m [Hm Hq]].
    apply filter_In in Hm. destruct Hm as [Hm _].
    apply (@is_suffix_trans _ (snd m) _); [now apply IH | now apply Hstep].
Qed.

Lemma matches_suffix (r : Re.regex) :
  forall p q, In q (Re.matches r p) -> is_suffix (snd q) (snd p).
Proof.
  induction r as [| accept | a IHa b IHb | a IHa b IHb | a IHa | word |];
    intros p q H; cbn [Re.matches] in H.
  - destruct H as [<- | []]. apply is_suffix_refl.
  - destruct (next_char (snd p)) as [[ch rest]|] eqn:E; [|destruct H].
    destruct (accept ch); [|destruct H]. destruct H as [<- | []].
    cbn [snd]. now apply next_char_suffix with (ch := ch).
  - apply in_flat_map in H. destruct H as [m [Hm Hq]].
    apply (@is_suffix_trans _ (snd m) _); [now apply IHb | now apply IHa].
  - apply in_app_or in H. destruct H; [now apply IHa | now apply IHb].
  - eapply star_from_suffix; [exact IHa | exact H].
  - destruct (xorb _ _); [|destruct H]. destruct H as [<- | []].
    apply is_suffix_refl.
  - destruct (Re.at_end p); [|destruct H]. destruct H as [<- | []].
    apply is_suffix_refl.
Qed.

Lemma lit_startswith (t : string) :
  forall p q, In q (Re.matches (Re.lit t) p) -> startswith t (snd p) = true.
Proof.
  induction t as [|c t IH]; intros p q H; [reflexivity|].
  cbn [Re.lit Re.matches] in H. apply in_flat_map in H.
  destruct H as [m [Hm Hq]]. unfold Re.chr in Hm. cbn [Re.matches] in Hm.
  destruct (next_char (snd p)) as [[ch rest]|] eqn:E; [|destruct Hm].
  destruct (String.eqb (String c EmptyString) ch) eqn:Ec; [|destruct Hm].
  apply String.eqb_eq in Ec. subst ch.
  destruct Hm as [<- | []]. apply IH in Hq. cbn [snd] in Hq.
  rewrite (next_char_single _ E). cbn [startswith].
  now rewrite Ascii.eqb_refl, Hq.
Qed.

Lemma mentions_lit (ts : list string) (t : string) :
  In t ts -> mentions ts (Re.lit t).
Proof.
  intros Hin p q H. exists t, (snd p).
  split; [exact Hin|]. split; [apply is_suffix_refl|].
  now apply (lit_startswith t p q).
Qed.

Lemma mentions_alt (ts : list string) (a b : Re.regex) :
  mentions ts a -> mentions ts b -> mentions ts (Re.Alt a b).
Proof.
  intros Ha Hb p q H. simpl in H. apply in_app_or in H.
  destruct H; [now apply (Ha p q) | now apply (Hb p q)].
Qed.

Lemma mentions_seq_l (ts : list string) (a b : Re.regex) :
  mentions ts a -> mentions ts (Re.Seq a b).
Proof.
  intros Ha p q H. simpl in H. apply in_flat_map in H.
  destruct H as [m [Hm _]]. now apply (Ha p m).
Qed.

Lemma mentions_seq_r (ts : list string) (a b : Re.regex) :
  mentions ts b -> mentions ts (Re.Seq a b).
Proof.
  intros Hb p q H. simpl in H. apply in_flat_map in H.
  destruct H as [m [Hm Hq]].
  destruct (Hb m q Hq) as [t [s' [Hin [Hs Ht]]]].
  exists t, s'. split; [exact Hin|]. split; [|exact Ht].
  apply (@is_suffix_trans _ (snd m) _); [exact Hs|].
  now apply (matches_suffix a).
Qed.

Lemma search_from_mentions (ts : list string) (r : Re.regex) :
  mentions ts r ->
  forall s prev, Re.search_from r prev s = true -> any_in ts s = true.
Proof.
  intros Hr.
  assert (Hat : forall prev s, Re.matches_at r (prev, s) = true ->
                  any_in ts s = true).
  { intros prev s H. unfold Re.matches_at in H.
    destruct (Re.matches r (prev, s)) as [|q qs] eqn:E; [discriminate|].
    destruct (Hr (prev, s) q) as [t [s' [Hin [Hs Ht]]]];
      [rewrite E; now left|].
    unfold any_in. apply existsb_exists. exists t.
    split; [exact Hin|]. now apply (@contains_suffix t s' s). }
  assert (Hcons : forall c rest, any_in ts rest = true ->
                    any_in ts (String c rest) = true).
  { intros c rest H. unfold any_in in *. apply existsb_exists in H.
    destruct H as [t [Hin Hc]]. apply existsb_exists. exists t.
    split; [exact Hin|]. cbn [contains]. rewrite Hc. apply orb_true_r. }
  induction s as [|c rest IH]; intros prev H; cbn [Re.search_from] in H.
  - now apply (Hat prev).
  - destruct (is_cont c).
    + apply Hcons. now apply (IH prev).
    + apply orb_prop in H. destruct H as [H | H]; [now apply (Hat prev)|].
      apply Hcons. now apply (IH _ H).
Qed.

Ltac find_mention :=
  first [ solve [apply mentions_lit; simpl; tauto]
        | solve [apply mentions_alt; find_mention]
        | solve [apply mentions_seq_l; find_mention]
        | solve [apply mentions_seq_r; find_mention] ].

Lemma fuzzy_patterns_mention alnum :
  Forall (mentions wake_tokens) (fuzzy_patterns alnum).
Proof.
  unfold fuzzy_patterns. repeat constructor;
    cbn [Re.seq Re.alt Re.plus]; find_mention.
Qed.

Lemma command_patterns_mention alnum :
  Forall (mentions command_tokens) (command_patterns alnum).
Proof.
  unfold command_patterns. repeat constructor;
    cbn [Re.seq Re.alt Re.plus]; find_mention.
Qed.

Lemma any_in_mono (ts us : list string) (s : string) :
  (forall t, In t ts -> contains t s = true -> any_in us s = true) ->
  any_in ts s = true -> any_in us s = true.
Proof.
  intros H Hany. unfold any_in in Hany. apply existsb_exists in Hany.
  destruct Hany as [t [Hin Hc]]. now apply (H t).
Qed.

Lemma detect_wake_word_sound alnum (text : string) :
  detect_wake_word alnum text = true ->
  any_in wake_tokens (strip (lower text)) = true.
Proof.
  unfold detect_wake_word. destruct (is_empty text); [discriminate|].
  cbv zeta. destruct (any_in wake_words (strip (lower text))) eqn:E.
  - intros _. revert E. apply any_in_mono. intros t Hin Hc.
    simpl in Hin.
    destruct Hin as [<- | [<- | [<- | [<- | [<- | [<- | []]]]]]].
    + apply (@any_in_member "pluto"); [simpl; tauto | exact Hc].
    + apply (@any_in_member "ghost"); [simpl; tauto | exact Hc].
    + apply (@any_in_member "pluto"); [simpl; tauto|].
      now apply (@contains_app "hey ").
    + apply (@any_in_member "ghost"); [simpl; tauto|].
      now apply (@contains_app "hey ").
    + apply (@any_in_member "pluto"); [simpl; tauto|].
      now apply (@contains_prefix "pluto" " anna").
    + apply (@any_in_member "ghost"); [simpl; tauto|].
      now apply (@contains_prefix "ghost" " anna").
  - intros H. apply existsb_exists in H. destruct H as [r [Hin Hs]].
    pose proof (fuzzy_patterns_mention alnum) as F.
    rewrite Forall_forall in F.
    apply (@search_from_mentions wake_tokens r (F r Hin) _ None Hs).
Qed.

(** X27.  The wake-word detector fires only on a text whose lower-cased,
    trimmed form contains one of six spellings, and it fires on every
    non-empty text whose form contains "pluto" or "ghost": for these
    two the word boundaries and the longer phrases add nothing. *)
Theorem wake_word_needs_a_spelling :
  forall alnum text,
    (detect_wake_word alnum text = true ->
     any_in wake_tokens (strip (lower text)) = true)
    /\ (is_empty text = false ->
        any_in ["pluto"; "ghost"] (strip (lower text)) = true ->
        detect_wake_word alnum text = true).
Proof.
  intros alnum text. split; [apply detect_wake_word_sound|].
  intros Hne H. unfold detect_wake_word. rewrite Hne. cbv zeta.
  unfold any_in, wake_words in *. cbn [existsb] in *.
  rewrite orb_false_r in H. apply orb_prop in H.
  destruct H as [-> | ->]; [reflexivity|].
  rewrite orb_true_r. reflexivity.
Qed.

Lemma wake_word_needs_a_spelling_witness :
  any_in wake_tokens (strip (lower " Hey GOAST ")) = true.
Proof.
  apply (proj1 (wake_word_needs_a_spelling latin1_letter " Hey GOAST ")).
  reflexivity.
Defined.

Lemma is_direct_command_sound alnum (text : string) :
  is_direct_command alnum text = true ->
  any_in command_tokens (lower text) = true.
Proof.
  unfold is_direct_command. destruct (is_empty text); [discriminate|].
  intros H. apply existsb_exists in H. destruct H as [r [Hin Hs]].
  pose proof (command_patterns_mention alnum) as F.
  rewrite Forall_forall in F.
  apply (@search_from_mentions command_tokens r (F r Hin) _ None Hs).
Qed.

(** X28.  A text the direct-command patterns accept contains, in lower
    case, one of the six command words, and every one of them is a
    keyword of the fallback classifier: a direct command is never
    classified as general chat by [handle_fallback]. *)
Theorem direct_command_is_not_chat :
  forall alnum text,
    is_direct_command alnum text = true ->
    any_in command_tokens (lower text) = true
    /\ intent_tool (handle_fallback text) <> Some (tool_name general_chat_t).
Proof.
  intros alnum text H. apply is_direct_command_sound in H.
  split; [exact H|].
  rewrite handle_fallback_tool.
  assert (K : any_in open_words (lower text) = true
              \/ any_in close_words (lower text) = true
              \/ any_in search_words (lower text) = true).
  { unfold any_in in H. apply existsb_exists in H.
    destruct H as [t [Hin Hc]]. simpl in Hin.
    destruct Hin as [<- | [<- | [<- | [<- | [<- | [<- | []]]]]]].
    - left. apply (@any_in_member "open"); [simpl; tauto | exact Hc].
    - right. left. apply (@any_in_member "close"); [simpl; tauto | exact Hc].
    - right. right.
      apply (@any_in_member "search"); [simpl; tauto | exact Hc].
    - left. apply (@any_in_member "thorakku"); [simpl; tauto | exact Hc].
    - right. left. apply (@any_in_member "muddu"); [simpl; tauto | exact Hc].
    - left. apply (@any_in_member "pannu"); [simpl; tauto | exact Hc]. }
  unfold fallback_rules. cbn [first_match].
  destruct (any_in media_words _); [discriminate|].
  destruct (any_in clipboard_words _); [discriminate|].
  destruct (any_in system_words _); [discriminate|].
  destruct (any_in open_words _); [discriminate|].
  destruct (any_in close_words _); [discriminate|].
  destruct (any_in search_words _); [discriminate|].
  destruct K as [K | [K | K]]; discriminate.
Qed.

Lemma direct_command_is_not_chat_witness :
  any_in command_tokens (lower "Spotify MUDDU") = true
  /\ intent_tool (handle_fallback "Spotify MUDDU")
     <> Some (tool_name general_chat_t).
Proof.
  apply (@direct_command_is_not_chat latin1_letter "Spotify MUDDU").
  reflexivity.
Defined.
